(** * Ethio Mosaic storefront: cart, checkout, backend facade and
    translation pipeline, embedded from the TypeScript sources.

    Layout: the first half of the file holds the embedding (one module per
    source unit), the second half the lemmas and theorems about it.

    Conventions of the embedding
    - a JavaScript string is the list of its UTF-16 code units ([list Z]);
    - a JavaScript [number] that carries money or a quantity is a binary64
      float ([PrimFloat.float]), with the additions and multiplications in
      the order the source performs them; loop counters and digit sums,
      which stay far below 2^53, are [Z];
    - objects that the source shares by reference (cart arrays, cart lines,
      order objects) live in an explicit heap of locations;
    - [localStorage] is a finite map; a write may be refused by the browser
      (quota), in which case [setItem] throws;
    - the [await delay(ms)] that opens every method of the backend only
      postpones its body; the body runs without interleaving and is what the
      embedding gives. Toasts, console output and rendering are left out. *)

From Stdlib Require Import ZArith List PrimFloat Floats Ascii String Lia.
From stdpp Require Import gmap list fin_maps pretty.

Local Open Scope Z_scope.

(* ===================================================================== *)
(** * Part I: the embedding                                               *)
(* ===================================================================== *)

(** ** JavaScript values *)

Module JS.

Abbreviation jsstring := (list Z).

(** Embedding of an ASCII literal as a JavaScript string. *)
Fixpoint js (s : string) : jsstring :=
  match s with
  | EmptyString => []
  | String a r => Z.of_N (N_of_ascii a) :: js r
  end.

(** [a === b] on strings. *)
Definition str_eqb (a b : jsstring) : bool := bool_decide (a = b).

(** Truthiness of a string value: the empty string is falsy. *)
Definition truthy_str (s : jsstring) : bool :=
  match s with [] => false | _ :: _ => true end.

(** Truthiness of [string | null | undefined]. *)
Definition truthy (o : option jsstring) : bool :=
  match o with Some s => truthy_str s | None => false end.

(** The character class [0-9] (also [\d]; [\D] is its complement). *)
Definition isDigit (c : Z) : bool := (48 <=? c) && (c <=? 57).

(** The character class [\s]: ECMAScript WhiteSpace and LineTerminator. *)
Definition isSpace (c : Z) : bool :=
  ((9 <=? c) && (c <=? 13)) || (c =? 32) || (c =? 160) || (c =? 5760)
  || ((8192 <=? c) && (c <=? 8202)) || (c =? 8232) || (c =? 8233)
  || (c =? 8239) || (c =? 8287) || (c =? 12288) || (c =? 65279).

Fixpoint dropWhile (f : Z -> bool) (s : jsstring) : jsstring :=
  match s with
  | [] => []
  | c :: r => if f c then dropWhile f r else s
  end.

(** [String.prototype.trim]: strips white space and line terminators from
    both ends. *)
Definition trim (s : jsstring) : jsstring :=
  rev (dropWhile isSpace (rev (dropWhile isSpace s))).

(** [ToInt32]: the wrap-around of the bit operators. *)
Definition toInt32 (z : Z) : Z := (z + 2 ^ 31) mod 2 ^ 32 - 2 ^ 31.

(** [Math.max] on two numbers. *)
Definition Math_max (a b : float) : float :=
  if is_nan a || is_nan b then nan
  else if (a <? b)%float then b
  else if (b <? a)%float then a
  else if get_sign a then b else a.

(** Decimal rendering of an integer-valued number, as template literals
    produce it. *)
Definition numberToString (z : Z) : jsstring := js (pretty z).

End JS.

Import JS.

(** ** types.ts *)

Inductive Category := ALL | CLOTHES | ART | MISC | ACCESSORIES.

Module Product.
Record t := mk {
  id : jsstring;
  name : jsstring;
  price : float;
  currency : jsstring;
  category : Category;
  description : jsstring;
  detailedHistory : jsstring;
  imageUrl : jsstring;
  inStock : bool
}.
End Product.

(** [CartItem extends Product]: the inherited fields are kept together in
    [product]; the object spread [{...item, quantity: q}] copies them. *)
Module CartItem.
Record t := mk {
  product : Product.t;
  quantity : float
}.
Definition id (c : t) : jsstring := Product.id (product c).
Definition price (c : t) : float := Product.price (product c).
End CartItem.

Record ShippingDetails := {
  firstName : jsstring;
  lastName : jsstring;
  email : jsstring;
  phone : jsstring;
  address : jsstring;
  city : jsstring;
  postalCode : jsstring;
  country : jsstring
}.

Inductive PaymentMethod := credit_card | paypal | bank_transfer.
Inductive CardProvider := visa | mastercard | amex.
Inductive OrderStatus := pending | shipped.

(** ** App.tsx: the cart updaters

    Each handler passes a pure updater to [setCart]; the functions below
    are those updaters, from the previous cart to the next one. *)

Module Cart.

(** [handleAddToCart]. *)
Definition handleAddToCart (product : Product.t) (prev : list CartItem.t)
  : list CartItem.t :=
  match List.find (fun item => str_eqb (CartItem.id item) (Product.id product)) prev with
  | Some _existing =>
      List.map (fun item =>
             if str_eqb (CartItem.id item) (Product.id product)
             then CartItem.mk (CartItem.product item) (CartItem.quantity item + 1)%float
             else item) prev
  | None => prev ++ [CartItem.mk product 1%float]
  end.

(** [handleUpdateCartQuantity]. *)
Definition handleUpdateCartQuantity (id : jsstring) (delta : float)
  (prev : list CartItem.t) : list CartItem.t :=
  List.map (fun item =>
         if str_eqb (CartItem.id item) id
         then CartItem.mk (CartItem.product item)
                (Math_max 1%float (CartItem.quantity item + delta)%float)
         else item) prev.

(** [handleRemoveFromCart]. *)
Definition handleRemoveFromCart (id : jsstring) (prev : list CartItem.t)
  : list CartItem.t :=
  List.filter (fun item => negb (str_eqb (CartItem.id item) id)) prev.

(** The operations a user can perform on the cart. *)
Inductive op :=
| Add (product : Product.t)
| UpdateQuantity (id : jsstring) (delta : float)
| Remove (id : jsstring).

Definition step (cart : list CartItem.t) (o : op) : list CartItem.t :=
  match o with
  | Add p => handleAddToCart p cart
  | UpdateQuantity id delta => handleUpdateCartQuantity id delta cart
  | Remove id => handleRemoveFromCart id cart
  end.

(** The cart starts empty ([useState<CartItem[]>([])]). *)
Definition run (ops : list op) : list CartItem.t := fold_left step ops [].

Definition ids (cart : list CartItem.t) : list jsstring :=
  List.map CartItem.id cart.

End Cart.

(** ** components/CheckoutModal.tsx: card check and pricing *)

Module Checkout.

(** The characters that [/[^0-9-\s]+/] does not match: digits, the hyphen
    and white space. *)
Definition allowedCardChar (c : Z) : bool :=
  isDigit c || (c =? 45) || isSpace c.

(** [parseInt(cDigit, 10)] on a one-character string holding a digit. *)
Definition parseInt (cDigit : Z) : Z := cDigit - 48.

(** One iteration of the [for] loop of [isValidCreditCard], on the state
    [(nCheck, bEven)]. *)
Definition luhnStep (st : Z * bool) (cDigit : Z) : Z * bool :=
  let '(nCheck, bEven) := st in
  let nDigit := parseInt cDigit in
  let nDigit :=
    if bEven
    then (let d := nDigit * 2 in if 9 <? d then d - 9 else d)
    else nDigit in
  (nCheck + nDigit, negb bEven).

(** [isValidCreditCard]. The loop runs over [newValue] from its last
    character to its first. *)
Definition isValidCreditCard (value : jsstring) : bool :=
  if existsb (fun c => negb (allowedCardChar c)) value then false
  else
    let newValue := List.filter isDigit value in
    let len := Z.of_nat (length newValue) in
    if (len <? 13) || (19 <? len) then false
    else
      let '(nCheck, _) := fold_left luhnStep (rev newValue) (0, false) in
      nCheck mod 10 =? 0.

(** [subtotal], [shippingCost], [importDuties] and [total] as the component
    body computes them from its [cart] prop. *)
Definition subtotal (cart : list CartItem.t) : float :=
  fold_left
    (fun sum item => (sum + CartItem.price item * CartItem.quantity item)%float)
    cart 0%float.

Definition shippingCost : float := 25%float.
Definition importDuties : float := 12.5%float.

Definition total (cart : list CartItem.t) : float :=
  (subtotal cart + shippingCost + importDuties)%float.

End Checkout.

(** ** The card check and the pricing rule as the specification words them *)

Module Spec.

(** A doubled digit, reduced by 9 when it exceeds 9. *)
Definition doubled (d : Z) : Z := if 9 <? 2 * d then 2 * d - 9 else 2 * d.

(** Alternate-doubling sum over the digits listed from the rightmost one:
    the digits at odd distance from the right end are doubled. *)
Fixpoint alternateSum (distance : nat) (fromRight : list Z) : Z :=
  match fromRight with
  | [] => 0
  | d :: r =>
      (if Nat.even distance then d else doubled d) + alternateSum (S distance) r
  end.

Definition luhnChecksum (digits : list Z) : Z := alternateSum 0 (rev digits).

(** Strip the non-digits, require 13 to 19 digits, accept exactly when the
    checksum is 0 modulo 10. *)
Definition luhnAccepts (value : jsstring) : bool :=
  let stripped := List.filter isDigit value in
  let digits := List.map (fun c => c - 48) stripped in
  (13 <=? Z.of_nat (length stripped)) && (Z.of_nat (length stripped) <=? 19)
  && (luhnChecksum digits mod 10 =? 0).

(** The sum of the numbers of a list, taken in list order. *)
Definition sum (l : list float) : float :=
  fold_left (fun acc x => (acc + x)%float) l 0%float.

(** [Σ (unit_price × quantity)] over the cart lines. *)
Definition lineTotals (cart : list CartItem.t) : list float :=
  List.map (fun line => (CartItem.price line * CartItem.quantity line)%float) cart.

End Spec.

(** ** Sample data used by the examples below *)

Module Sample.

Definition basket : Product.t :=
  Product.mk (js "p1") (js "Mesob Basket") 100%float (js "EUR") ART
             (js "Handwoven basket") (js "Woven in Harar") (js "/img/p1.jpg") true.

Definition scarf : Product.t :=
  Product.mk (js "p2") (js "Netela Scarf") 45.5%float (js "EUR") CLOTHES
             (js "Cotton scarf") (js "Woven in Addis Ababa") (js "/img/p2.jpg") true.

Definition oneBasket : list CartItem.t := [CartItem.mk basket 1%float].

End Sample.

(** ** Objects shared by reference *)

Module Order.
(** [Order], generic in what [items] holds: a reference to an array of cart
    lines for the live object, the lines themselves for its JSON text. *)
Record t (Items : Type) := mk {
  id : jsstring;
  date : jsstring;
  items : Items;
  subtotal : float;
  shippingCost : float;
  duties : float;
  total : float;
  shippingDetails : ShippingDetails;
  paymentMethod : PaymentMethod;
  cardProvider : option CardProvider;
  language : jsstring;
  status : OrderStatus
}.
Arguments mk {Items}.
Arguments id {Items}.
Arguments date {Items}.
Arguments items {Items}.
Arguments subtotal {Items}.
Arguments shippingCost {Items}.
Arguments duties {Items}.
Arguments total {Items}.
Arguments shippingDetails {Items}.
Arguments paymentMethod {Items}.
Arguments cardProvider {Items}.
Arguments language {Items}.
Arguments status {Items}.

Definition withItems {I J : Type} (o : t I) (its : J) : t J :=
  mk (id o) (date o) its (subtotal o) (shippingCost o) (duties o) (total o)
     (shippingDetails o) (paymentMethod o) (cardProvider o) (language o)
     (status o).
End Order.

Module Heap.

Abbreviation loc := positive.

Inductive object :=
| OItem (line : CartItem.t)          (* a cart line object *)
| OArray (elems : list loc)          (* a [CartItem[]] array *)
| OOrder (order : Order.t loc).      (* an order object; [items] is a reference *)

Abbreviation heap := (gmap loc object).

Definition readItem (h : heap) (l : loc) : option CartItem.t :=
  match h !! l with Some (OItem c) => Some c | _ => None end.

Definition readArray (h : heap) (l : loc) : option (list loc) :=
  match h !! l with Some (OArray a) => Some a | _ => None end.

Definition readOrder (h : heap) (l : loc) : option (Order.t loc) :=
  match h !! l with Some (OOrder o) => Some o | _ => None end.

(** An assignment through a reference: the object at [l] becomes [x]; every
    holder of [l] sees the change. *)
Definition store (l : loc) (x : object) (h : heap) : heap := <[l := x]> h.

(** The lines an array reference stands for. *)
Definition resolveItems (h : heap) (arr : loc) : option (list CartItem.t) :=
  elems ← readArray h arr; mapM (readItem h) elems.

(** The content of an order object, as [JSON.stringify] walks it. *)
Definition resolveOrder (h : heap) (l : loc)
  : option (Order.t (list CartItem.t)) :=
  o ← readOrder h l;
  lines ← resolveItems h (Order.items o);
  Some (Order.withItems o lines).

End Heap.

Import Heap.

(** ** services/backend.ts *)

Module Backend.

Definition KEYS_ORDERS : jsstring := js "ethio_backend_orders".
Definition KEYS_PRODUCTS : jsstring := js "ethio_backend_products".
Definition KEYS_AUTH : jsstring := js "ethio_backend_auth".
Definition KEYS_SUBSCRIBERS : jsstring := js "ethio_backend_subscribers".

(** A JSON text kept in [localStorage], represented by the data that
    [JSON.stringify] was given to produce it. *)
Inductive json :=
| JProducts (ps : list Product.t)
| JOrders (os : list (Order.t (list CartItem.t)))
| JStrings (ss : list jsstring).

(** [localStorage]: its entries, and which contents the browser accepts
    (the quota); [setItem] throws when the new contents are refused. *)
Record Storage := mkStorage {
  entries : gmap jsstring json;
  fits : gmap jsstring json -> bool
}.

(** The private fields of [BackendService]. The constructor, which loads
    them from the store or seeds the catalog from the fixtures of
    constants.ts, plays no part in the properties below and is left out. *)
Record BackendService := mkService {
  products : list Product.t;
  orders : list loc;
  subscribers : list jsstring
}.

Record World := mkWorld {
  heap : gmap loc object;
  service : BackendService;
  localStorage : Storage
}.

Inductive error :=
| QuotaExceededError          (* thrown by [localStorage.setItem] *)
| ProductNotFound             (* [new Error('Product not found')] *)
| TypeError.                  (* a property read through a dangling reference *)

Inductive outcome (A : Type) :=
| Returned (a : A)
| Thrown (e : error).
Arguments Returned {A}.
Arguments Thrown {A}.

(** State and exceptions: a computation maps the world to the world it
    leaves behind and to what it returned or threw. *)
Definition M (A : Type) : Type := World -> World * outcome A.

Definition ret {A} (a : A) : M A := fun w => (w, Returned a).

Definition throw {A} (e : error) : M A := fun w => (w, Thrown e).

Definition bind {A B} (m : M A) (k : A -> M B) : M B :=
  fun w =>
    match m w with
    | (w', Returned a) => k a w'
    | (w', Thrown e) => (w', Thrown e)
    end.

Definition gets {A} (f : World -> A) : M A := fun w => (w, Returned (f w)).

Definition modify (f : World -> World) : M unit := fun w => (f w, Returned tt).

Declare Scope backend_scope.
Delimit Scope backend_scope with M.
Notation "'let*' x ':=' m 'in' k" :=
  (bind m (fun x => k))
  (at level 10, x name, m at level 100, k at level 200) : backend_scope.
Notation "m ';;' k" :=
  (bind m (fun _ => k))
  (at level 100, k at level 200, right associativity) : backend_scope.

Definition setProducts (ps : list Product.t) (w : World) : World :=
  mkWorld (heap w)
    (mkService ps (orders (service w)) (subscribers (service w)))
    (localStorage w).

Definition setOrders (os : list loc) (w : World) : World :=
  mkWorld (heap w)
    (mkService (products (service w)) os (subscribers (service w)))
    (localStorage w).

Definition setSubscribers (ss : list jsstring) (w : World) : World :=
  mkWorld (heap w)
    (mkService (products (service w)) (orders (service w)) ss)
    (localStorage w).

(** [localStorage.setItem(key, value)]. *)
Definition setItem (key : jsstring) (value : json) : M unit :=
  fun w =>
    let contents := <[key := value]> (entries (localStorage w)) in
    if fits (localStorage w) contents
    then (mkWorld (heap w) (service w)
            (mkStorage contents (fits (localStorage w))), Returned tt)
    else (w, Thrown QuotaExceededError).

(** [JSON.stringify(this.orders)]. *)
Definition stringifyOrders (h : gmap loc object) (os : list loc)
  : list (Order.t (list CartItem.t)) :=
  omap (resolveOrder h) os.

Local Open Scope backend_scope.

Definition saveProducts : M unit :=
  let* ps := gets (fun w => products (service w)) in
  setItem KEYS_PRODUCTS (JProducts ps).

Definition saveOrders : M unit :=
  let* text := gets (fun w => stringifyOrders (heap w) (orders (service w))) in
  setItem KEYS_ORDERS (JOrders text).

Definition saveSubscribers : M unit :=
  let* ss := gets (fun w => subscribers (service w)) in
  setItem KEYS_SUBSCRIBERS (JStrings ss).

(** *** Product management *)

Definition getProducts : M (list Product.t) :=
  gets (fun w => products (service w)).

Definition withId (p : Product.t) (id : jsstring) : Product.t :=
  Product.mk id (Product.name p) (Product.price p) (Product.currency p)
    (Product.category p) (Product.description p) (Product.detailedHistory p)
    (Product.imageUrl p) (Product.inStock p).

(** [addProduct]; [now] and [rnd] are the values of [Date.now()] and of
    [Math.floor(Math.random() * 1000)]. *)
Definition addProduct (product : Product.t) (now rnd : Z) : M Product.t :=
  let newProduct :=
    withId product
      (js "prod_" ++ numberToString now ++ js "_" ++ numberToString rnd) in
  modify (fun w => setProducts (newProduct :: products (service w)) w);;
  saveProducts;;
  ret newProduct.

(** [Partial<Product>]. *)
Record Updates := mkUpdates {
  u_id : option jsstring;
  u_name : option jsstring;
  u_price : option float;
  u_currency : option jsstring;
  u_category : option Category;
  u_description : option jsstring;
  u_detailedHistory : option jsstring;
  u_imageUrl : option jsstring;
  u_inStock : option bool
}.

(** [{ ...p, ...updates }]. *)
Definition spread (p : Product.t) (u : Updates) : Product.t :=
  Product.mk
    (default (Product.id p) (u_id u))
    (default (Product.name p) (u_name u))
    (default (Product.price p) (u_price u))
    (default (Product.currency p) (u_currency u))
    (default (Product.category p) (u_category u))
    (default (Product.description p) (u_description u))
    (default (Product.detailedHistory p) (u_detailedHistory u))
    (default (Product.imageUrl p) (u_imageUrl u))
    (default (Product.inStock p) (u_inStock u)).

(** [findIndex(p => p.id === id)], [None] for [-1]. *)
Fixpoint findIndex (id : jsstring) (ps : list Product.t) : option nat :=
  match ps with
  | [] => None
  | p :: r =>
      if str_eqb (Product.id p) id then Some 0%nat
      else S <$> findIndex id r
  end.

Definition updateProduct (id : jsstring) (updates : Updates) : M Product.t :=
  let* ps := gets (fun w => products (service w)) in
  match findIndex id ps with
  | None => throw ProductNotFound
  | Some index =>
      match ps !! index with
      | None => throw TypeError   (* not taken: [index] comes from [findIndex] *)
      | Some old =>
          let merged := spread old updates in
          modify (setProducts (<[index := merged]> ps));;
          saveProducts;;
          ret merged
      end
  end.

Definition deleteProduct (id : jsstring) : M unit :=
  modify (fun w =>
    setProducts
      (List.filter (fun p => negb (str_eqb (Product.id p) id))
         (products (service w))) w);;
  saveProducts.

(** *** Order management *)

Definition createOrder (order : loc) : M loc :=
  modify (fun w => setOrders (order :: orders (service w)) w);;
  saveOrders;;
  ret order.

Definition getOrders : M (list loc) :=
  gets (fun w => orders (service w)).

Definition clearOrders : M unit :=
  modify (setOrders []);;
  saveOrders.

(** *** Newsletter *)

(** [this.subscribers.includes(email)]. *)
Definition includes (email : jsstring) (ss : list jsstring) : bool :=
  existsb (str_eqb email) ss.

Definition addSubscriber (email : jsstring) : M unit :=
  let* ss := gets (fun w => subscribers (service w)) in
  if negb (includes email ss)
  then
    modify (setSubscribers (email :: ss));;
    saveSubscribers
  else ret tt.

Definition getSubscribers : M (list jsstring) :=
  gets (fun w => subscribers (service w)).

(** *** Authentication *)

Definition verifyAdminPin (pin : jsstring) : M bool :=
  ret (str_eqb pin (js "1234")).

End Backend.

(** ** App.tsx: the cart as the program holds it

    The [cart] state is a reference to an array of references to cart line
    objects. Every handler builds a new array; lines it does not change are
    shared between the old and the new array. *)

Module App.

Import Backend.
Local Open Scope backend_scope.

(** Allocation of a new object. *)
Definition alloc (o : object) : M loc :=
  fun w =>
    let l := fresh (dom (heap w)) in
    (mkWorld (<[l := o]> (heap w)) (service w) (localStorage w), Returned l).

Definition derefArray (l : loc) : M (list loc) :=
  fun w =>
    match readArray (heap w) l with
    | Some a => (w, Returned a)
    | None => (w, Thrown TypeError)
    end.

Definition derefItem (l : loc) : M CartItem.t :=
  fun w =>
    match readItem (heap w) l with
    | Some c => (w, Returned c)
    | None => (w, Thrown TypeError)
    end.

(** [Array.prototype.map] with a callback that may allocate. *)
Fixpoint mapA {A B} (f : A -> M B) (l : list A) : M (list B) :=
  match l with
  | [] => ret []
  | x :: r =>
      let* y := f x in
      let* ys := mapA f r in
      ret (y :: ys)
  end.

(** [Array.prototype.find]. *)
Fixpoint findA {A} (f : A -> M bool) (l : list A) : M (option A) :=
  match l with
  | [] => ret None
  | x :: r =>
      let* b := f x in
      if b then ret (Some x) else findA f r
  end.

(** [Array.prototype.filter]. *)
Fixpoint filterA {A} (f : A -> M bool) (l : list A) : M (list A) :=
  match l with
  | [] => ret []
  | x :: r =>
      let* b := f x in
      let* ys := filterA f r in
      ret (if b then x :: ys else ys)
  end.

(** [item => item.id === id]. *)
Definition hasId (id : jsstring) (l : loc) : M bool :=
  let* item := derefItem l in
  ret (str_eqb (CartItem.id item) id).

(** [handleAddToCart]: the next value of the [cart] state. *)
Definition handleAddToCart (product : Product.t) (cart : loc) : M loc :=
  let* prev := derefArray cart in
  let* existing := findA (hasId (Product.id product)) prev in
  match existing with
  | Some _ =>
      let* next :=
        mapA (fun l =>
                let* item := derefItem l in
                if str_eqb (CartItem.id item) (Product.id product)
                then alloc (OItem (CartItem.mk (CartItem.product item)
                                      (CartItem.quantity item + 1)%float))
                else ret l) prev in
      alloc (OArray next)
  | None =>
      let* line := alloc (OItem (CartItem.mk product 1%float)) in
      alloc (OArray (prev ++ [line]))
  end.

(** [handleUpdateCartQuantity]. *)
Definition handleUpdateCartQuantity (id : jsstring) (delta : float)
  (cart : loc) : M loc :=
  let* prev := derefArray cart in
  let* next :=
    mapA (fun l =>
            let* item := derefItem l in
            if str_eqb (CartItem.id item) id
            then alloc (OItem (CartItem.mk (CartItem.product item)
                     (Math_max 1%float (CartItem.quantity item + delta)%float)))
            else ret l) prev in
  alloc (OArray next).

(** [handleRemoveFromCart]. *)
Definition handleRemoveFromCart (id : jsstring) (cart : loc) : M loc :=
  let* prev := derefArray cart in
  let* next :=
    filterA (fun l => let* b := hasId id l in ret (negb b)) prev in
  alloc (OArray next).

(** [handleCheckoutComplete]: [setCart([])]. *)
Definition handleCheckoutComplete : M loc := alloc (OArray []).

End App.

(** ** components/CheckoutModal.tsx: the wizard and [completeOrder] *)

Module Wizard.

Inductive CheckoutStep := shipping | payment | confirmation.

(** The state hooks of [CheckoutModal], and the alerts it has raised. *)
Record t := mk {
  step : CheckoutStep;
  paymentMethod : PaymentMethod;
  cardProvider : CardProvider;
  isProcessing : bool;
  processingStatus : jsstring;
  shippingData : option ShippingDetails;
  orderRef : jsstring;
  alerts : list jsstring
}.

(** [setIsProcessing(false); setProcessingStatus('')]. *)
Definition stopProcessing (z : t) : t :=
  mk (step z) (paymentMethod z) (cardProvider z) false []
     (shippingData z) (orderRef z) (alerts z).

Definition setStep (st : CheckoutStep) (z : t) : t :=
  mk st (paymentMethod z) (cardProvider z) (isProcessing z)
     (processingStatus z) (shippingData z) (orderRef z) (alerts z).

(** [alert(message)]. *)
Definition alert (message : jsstring) (z : t) : t :=
  mk (step z) (paymentMethod z) (cardProvider z) (isProcessing z)
     (processingStatus z) (shippingData z) (orderRef z)
     (alerts z ++ [message]).

End Wizard.

Module Session.

Import Backend.

(** What a checkout in progress can see: the heap, the backend and its
    storage, the [cart] state of [App] and the hooks of the modal. *)
Record t := mk {
  world : World;
  cart : loc;
  wizard : Wizard.t
}.

(** services/orderService.ts *)
Definition saveOrder (order : loc) : M unit :=
  bind (createOrder order) (fun _ => ret tt).

(** The object literal [newOrder] of [completeOrder]. [lines] are the lines
    the [cart] prop stands for, from which the render computed [subtotal]
    and [total]; [now] is [new Date().toISOString()]. *)
Definition newOrder (z : Wizard.t) (cart : loc) (lines : list CartItem.t)
  (shippingData : ShippingDetails) (now language : jsstring) : Order.t loc :=
  Order.mk (Wizard.orderRef z) now cart
    (Checkout.subtotal lines) Checkout.shippingCost Checkout.importDuties
    (Checkout.total lines) shippingData (Wizard.paymentMethod z)
    (match Wizard.paymentMethod z with
     | credit_card => Some (Wizard.cardProvider z)
     | _ => None
     end)
    language pending.

(** The first two statements of [completeOrder]: the order object is built
    and handed to [saveOrder]. *)
Definition submit (s : t) (lines : list CartItem.t)
  (shippingData : ShippingDetails) (now language : jsstring)
  : World * outcome unit :=
  bind (App.alloc
          (OOrder (newOrder (wizard s) (cart s) lines shippingData
                     now language)))
       saveOrder (world s).

(** [completeOrder]: the early return, then the [try] block with its
    [catch]. On success [onComplete] runs [handleCheckoutComplete] of
    [App]. The [cart] prop of a rendered modal is a live array, and an
    allocation always returns: the two branches marked below are never
    taken. *)
Definition completeOrder (now language : jsstring) (s : t) : t :=
  match Wizard.shippingData (wizard s) with
  | None => s
  | Some shippingData =>
      match resolveItems (heap (world s)) (cart s) with
      | None => s                                          (* not taken *)
      | Some lines =>
          match submit s lines shippingData now language with
          | (w, Returned _) =>
              match App.handleCheckoutComplete w with
              | (w', Returned emptyCart) =>
                  mk w' emptyCart
                     (Wizard.setStep Wizard.confirmation
                        (Wizard.stopProcessing (wizard s)))
              | (w', Thrown _) =>                           (* not taken *)
                  mk w' (cart s)
                     (Wizard.setStep Wizard.confirmation
                        (Wizard.stopProcessing (wizard s)))
              end
          | (w, Thrown _) =>
              mk w (cart s)
                 (Wizard.alert
                    (js "Payment Gateway Error: Unable to process. Please try again.")
                    (Wizard.stopProcessing (wizard s)))
          end
      end
  end.

(** What the user or the administrator may do after an order was placed:
    cart handlers of [App] and catalog operations of the backend. *)
Inductive action :=
| AddToCart (product : Product.t)
| UpdateCartQuantity (id : jsstring) (delta : float)
| RemoveFromCart (id : jsstring)
| AdminAddProduct (product : Product.t) (now rnd : Z)
| AdminUpdateProduct (id : jsstring) (updates : Updates)
| AdminDeleteProduct (id : jsstring).

(** A cart handler: [setCart] receives the new array when the updater
    returns. *)
Definition setCart (updater : loc -> M loc) (s : t) : t :=
  match updater (cart s) (world s) with
  | (w, Returned cart') => mk w cart' (wizard s)
  | (w, Thrown _) => mk w (cart s) (wizard s)
  end.

Definition admin {A} (m : M A) (s : t) : t :=
  mk (fst (m (world s))) (cart s) (wizard s).

Definition step (s : t) (a : action) : t :=
  match a with
  | AddToCart p => setCart (App.handleAddToCart p) s
  | UpdateCartQuantity id delta => setCart (App.handleUpdateCartQuantity id delta) s
  | RemoveFromCart id => setCart (App.handleRemoveFromCart id) s
  | AdminAddProduct p now rnd => admin (addProduct p now rnd) s
  | AdminUpdateProduct id u => admin (updateProduct id u) s
  | AdminDeleteProduct id => admin (deleteProduct id) s
  end.

Definition run (s : t) (actions : list action) : t := fold_left step actions s.

(** The action that performs a cart operation. *)
Definition ofCartOp (o : Cart.op) : action :=
  match o with
  | Cart.Add p => AddToCart p
  | Cart.UpdateQuantity id delta => UpdateCartQuantity id delta
  | Cart.Remove id => RemoveFromCart id
  end.

(** The relation between two worlds when the second has every object of the
    first unchanged and the same order history, in memory and in the store. *)
Definition keepsOrders (w w' : World) : Prop :=
  heap w ⊆ heap w' /\
  orders (service w') = orders (service w) /\
  entries (localStorage w') !! KEYS_ORDERS
  = entries (localStorage w) !! KEYS_ORDERS.

(** A computation that only allocates and leaves the order history alone,
    however it ends. *)
Definition quiet {A} (m : M A) : Prop := forall w, keepsOrders w (fst (m w)).

(** Every order of the history is a live order object whose lines can be
    read. *)
Definition wellFormed (w : World) : Prop :=
  forall o, In o (orders (service w)) -> is_Some (resolveOrder (heap w) o).

End Session.

Module SessionSample.

Import Backend.

Definition address : ShippingDetails :=
  Build_ShippingDetails (js "Sara") (js "Tesfaye") (js "sara@example.com")
    (js "+32 470 00 00 00") (js "Rue Haute 1") (js "Brussels") (js "1000")
    (js "Belgium").

Definition atPayment : Wizard.t :=
  Wizard.mk Wizard.payment bank_transfer visa true (js "Registering order...")
    (Some address) (js "ETH-4711") [].

(** One basket in the cart: the line object at 1, the cart array at 2. *)
Definition cartHeap : gmap loc object :=
  {[ 1%positive := OItem (CartItem.mk Sample.basket 1%float);
     2%positive := OArray [1%positive] ]}.

(** A checkout at the payment step over an unlimited store. *)
Definition ready : Session.t :=
  Session.mk
    (mkWorld cartHeap (mkService [Sample.basket] [] [])
       (mkStorage ∅ (fun _ => true)))
    2%positive atPayment.

(** The same checkout over a store that refuses every write. *)
Definition readyStoreFull : Session.t :=
  Session.mk
    (mkWorld cartHeap (mkService [Sample.basket] [] [])
       (mkStorage ∅ (fun _ => false)))
    2%positive atPayment.

Definition today : jsstring := js "2024-05-01T10:00:00.000Z".

(** After that checkout has gone through, a scarf is put in the cart: a
    session with one order in its history and one line in its cart. *)
Definition returning : Session.t :=
  Session.step (Session.completeOrder today (js "en") ready)
    (Session.AddToCart Sample.scarf).

Definition tomorrow : jsstring := js "2024-05-02T09:30:00.000Z".

End SessionSample.

(** ** States and runs the backend properties speak about *)

Module BackendSpec.

Import Backend.

(** The normal condition of the product record: what is stored fits, and the
    stored product text is the text of the in-memory mirror. It holds after
    the constructor and after every product operation whose write went
    through. *)
Definition productsInSync (w : World) : Prop :=
  fits (localStorage w) (entries (localStorage w)) = true /\
  entries (localStorage w) !! KEYS_PRODUCTS
  = Some (JProducts (products (service w))).

(** [addSubscriber] called for each email of a list, in list order. *)
Definition subscribeAll (emails : list jsstring) (w : World) : World :=
  fold_left (fun w email => fst (addSubscriber email w)) emails w.

(** A backend with no data, over an unlimited store. *)
Definition emptyWorld : World :=
  mkWorld ∅ (mkService [] [] []) (mkStorage ∅ (fun _ => true)).

(** The same, over a store that refuses every write. *)
Definition fullWorld : World :=
  mkWorld ∅ (mkService [] [] []) (mkStorage ∅ (fun _ => false)).

Definition catalogWorld : World :=
  mkWorld ∅ (mkService [Sample.basket; Sample.scarf] [] [])
    (mkStorage {[ KEYS_PRODUCTS := JProducts [Sample.basket; Sample.scarf] ]}
       (fun _ => true)).

End BackendSpec.

(** ** services/geminiService.ts: [translateText] *)

Module Gemini.

(** What happens inside the [try] block of [translateText]: the client
    cannot be built, the remote call rejects, or it resolves to a response
    whose [text] is a string or [undefined]. *)
Inductive remote :=
| NoApiKey
| Rejected
| Responded (text : option jsstring).

(** [translateText]: what its promise resolves to ([None] for [null]). The
    promise never rejects. *)
Definition translateText (text targetLanguageCode : jsstring) (r : remote)
  : option jsstring :=
  if negb (truthy_str text) then None
  else
    match r with
    | NoApiKey => None
    | Rejected => None
    | Responded text' =>
        let result := trim <$> text' in
        if truthy result then result else None
    end.

End Gemini.

(** ** components/AutoTranslatedText.tsx *)

Module AutoTranslatedText.

(** What [useLanguage()] provides. The two lookups belong to the i18n
    module, which is taken as given. *)
Record LanguageContext := mkContext {
  language : jsstring;
  getExactTranslation : jsstring -> option jsstring;
  findBestTranslation : jsstring -> option jsstring
}.

(** [localStorage] as this component uses it: strings under string keys. *)
Record Storage := mkStorage {
  entries : gmap jsstring jsstring;
  fits : gmap jsstring jsstring -> bool
}.

(** [localStorage.setItem]; [None] when it throws. *)
Definition setItem (key value : jsstring) (st : Storage) : option Storage :=
  let contents := <[key := value]> (entries st) in
  if fits st contents then Some (mkStorage contents (fits st)) else None.

(** [simpleHash]. *)
Definition simpleHash (str : jsstring) : Z :=
  fold_left (fun hash char => toInt32 (toInt32 (Z.shiftl hash 5) - hash + char))
    str 0.

Definition cacheKey (language value : jsstring) : jsstring :=
  js "tr_v2_" ++ language ++ js "_" ++ numberToString (simpleHash value).

(** The hooks of one mounted instance, and [mountedRef.current]. *)
Record t := mk {
  translatedContent : jsstring;
  isLoading : bool;
  mounted : bool
}.

(** [setTranslatedContent(text); setIsLoading(false)]. *)
Definition settle (text : jsstring) (c : t) : t := mk text false (mounted c).

(** The cleanup of the mount effect. *)
Definition unmount (c : t) : t :=
  mk (translatedContent c) (isLoading c) false.

(** How a run of the translation effect ends: with the text settled, or
    with a call of [translateText] outstanding. *)
Inductive effectResult :=
| Settled
| Requested (key : jsstring).

(** The body of the translation effect, up to the call of [translateText]. *)
Definition effect (ctx : LanguageContext) (value : jsstring)
  (translationKey : option jsstring) (c : t) (st : Storage)
  : t * effectResult :=
  if negb (truthy_str value) then (c, Settled)
  else if str_eqb (language ctx) (js "en") then (settle value c, Settled)
  else
    let exactMatch :=
      if truthy translationKey
      then getExactTranslation ctx (default [] translationKey)
      else None in
    if truthy exactMatch then (settle (default [] exactMatch) c, Settled)
    else
      let memoryMatch := findBestTranslation ctx value in
      if truthy memoryMatch then (settle (default [] memoryMatch) c, Settled)
      else
        let key := cacheKey (language ctx) value in
        let cached := entries st !! key in
        if truthy cached then (settle (default [] cached) c, Settled)
        else (mk (translatedContent c) true (mounted c), Requested key).

(** The [then] handler of the effect, with its [catch] handler for the case
    that [setItem] throws; [result] is what [translateText] resolved to. *)
Definition onResult (value key : jsstring) (result : option jsstring)
  (c : t) (st : Storage) : t * Storage :=
  if negb (mounted c) then (c, st)
  else
    if truthy result && negb (str_eqb (default [] result) value)
    then
      match setItem key (default [] result) st with
      | Some st' => (settle (default [] result) c, st')
      | None => (settle value c, st)
      end
    else (settle value c, st).

(** One request from the effect to the settled result: the effect runs, the
    consumer may unmount while the call is outstanding, the call ends as
    [r]. Returns whether a remote call was made. *)
Definition request (ctx : LanguageContext) (value : jsstring)
  (translationKey : option jsstring) (unmountsMeanwhile : bool)
  (r : Gemini.remote) (c : t) (st : Storage) : t * Storage * bool :=
  match effect ctx value translationKey c st with
  | (c1, Settled) => (c1, st, false)
  | (c1, Requested key) =>
      let c2 := if unmountsMeanwhile then unmount c1 else c1 in
      let '(c3, st') :=
        onResult value key (Gemini.translateText value (language ctx) r) c2 st in
      (c3, st', true)
  end.

End AutoTranslatedText.

Module TranslationSample.

Import AutoTranslatedText.

(** French, with no static or remembered translation. *)
Definition french : LanguageContext :=
  mkContext (js "fr") (fun _ => None) (fun _ => None).

Definition emptyStorage : Storage := mkStorage ∅ (fun _ => true).

(** A newly mounted instance showing "Mesob Basket". *)
Definition initial : t := mk (js "Mesob Basket") false true.

(** A product name as an administrator typed it, with a trailing blank. *)
Definition padded : jsstring := js "Mesob Basket ".

Definition initialPadded : t := mk padded false true.

End TranslationSample.

Module TranslationSpec.

Import AutoTranslatedText.

(** The remote outcomes that the post-call policy treats as a non-result:
    the call fails, returns null or the empty string, or returns text
    identical to the input. *)
Definition nonResult (value : jsstring) (r : Gemini.remote) : Prop :=
  r = Gemini.NoApiKey \/ r = Gemini.Rejected \/
  r = Gemini.Responded None \/ r = Gemini.Responded (Some []) \/
  r = Gemini.Responded (Some value).

End TranslationSpec.

(** ** The operations of the backend and of the cart as data *)

Module Operations.

Import Backend.
Local Open Scope backend_scope.

(** The mutating methods of [BackendService]. *)
Inductive op :=
| AddProduct (product : Product.t) (now rnd : Z)
| UpdateProduct (id : jsstring) (updates : Updates)
| DeleteProduct (id : jsstring)
| CreateOrder (order : loc)
| ClearOrders
| AddSubscriber (email : jsstring).

(** A call of the method, its return value dropped. *)
Definition perform (o : op) : M unit :=
  match o with
  | AddProduct p now rnd => addProduct p now rnd;; ret tt
  | UpdateProduct id u => updateProduct id u;; ret tt
  | DeleteProduct id => deleteProduct id
  | CreateOrder order => createOrder order;; ret tt
  | ClearOrders => clearOrders
  | AddSubscriber email => addSubscriber email
  end.

(** The three persisted records read back: what each key holds. *)
Definition storedProducts (w : World) : option json :=
  entries (localStorage w) !! KEYS_PRODUCTS.
Definition storedOrders (w : World) : option json :=
  entries (localStorage w) !! KEYS_ORDERS.
Definition storedSubscribers (w : World) : option json :=
  entries (localStorage w) !! KEYS_SUBSCRIBERS.

(** The texts of the in-memory data. *)
Definition productsText (w : World) : json := JProducts (products (service w)).
Definition ordersText (w : World) : json :=
  JOrders (stringifyOrders (heap w) (orders (service w))).
Definition subscribersText (w : World) : json :=
  JStrings (subscribers (service w)).

(** The key of the record that a method saves, and the text of the
    in-memory data that belongs under it. *)
Definition recordKey (o : op) : jsstring :=
  match o with
  | AddProduct _ _ _ | UpdateProduct _ _ | DeleteProduct _ => KEYS_PRODUCTS
  | CreateOrder _ | ClearOrders => KEYS_ORDERS
  | AddSubscriber _ => KEYS_SUBSCRIBERS
  end.

Definition recordText (o : op) (w : World) : json :=
  match o with
  | AddProduct _ _ _ | UpdateProduct _ _ | DeleteProduct _ => productsText w
  | CreateOrder _ | ClearOrders => ordersText w
  | AddSubscriber _ => subscribersText w
  end.

(** The in-memory fields that a method has no business with. *)
Definition otherFields (o : op) (w : World) : list Product.t * list loc * list jsstring :=
  match o with
  | AddProduct _ _ _ | UpdateProduct _ _ | DeleteProduct _ =>
      ([], orders (service w), subscribers (service w))
  | CreateOrder _ | ClearOrders =>
      (products (service w), [], subscribers (service w))
  | AddSubscriber _ =>
      (products (service w), orders (service w), [])
  end.

(** How a call of a mutating method ends, and what it leaves behind. *)
Inductive ending (o : op) (w : World) : World * outcome unit -> Prop :=
| Saved (w1 : World) :
    heap w1 = heap w ->
    localStorage w1 = localStorage w ->
    otherFields o w1 = otherFields o w ->
    fits (localStorage w) (<[recordKey o := recordText o w1]> (entries (localStorage w)))
    = true ->
    ending o w
      (mkWorld (heap w) (service w1)
         (mkStorage (<[recordKey o := recordText o w1]> (entries (localStorage w)))
            (fits (localStorage w))), Returned tt)
| Refused (w1 : World) :
    heap w1 = heap w ->
    localStorage w1 = localStorage w ->
    otherFields o w1 = otherFields o w ->
    fits (localStorage w) (<[recordKey o := recordText o w1]> (entries (localStorage w)))
    = false ->
    ending o w (w1, Thrown QuotaExceededError)
| NotFound (id : jsstring) (u : Updates) :
    o = UpdateProduct id u ->
    ~ In id (List.map Product.id (products (service w))) ->
    ending o w (w, Thrown ProductNotFound)
| Known (email : jsstring) :
    o = AddSubscriber email ->
    In email (subscribers (service w)) ->
    ending o w (w, Returned tt).



End Operations.

(** ** Shapes of texts *)

Module Text.

(** The characters of a decimal rendering: digits, after at most a minus
    sign. *)
Definition decimalChar (c : Z) : Prop := c = 45 \/ 48 <= c <= 57.

End Text.

(** ** components/CheckoutModal.tsx: the payment forms *)

Module CardForm.

Import Backend.

(** [(0[1-9]|1[0-2])]: the two characters of the month. *)
Definition monthPattern (m1 m2 : Z) : bool :=
  ((m1 =? 48) && (49 <=? m2) && (m2 <=? 57))
  || ((m1 =? 49) && (48 <=? m2) && (m2 <=? 50)).

(** [/^(0[1-9]|1[0-2])\/?([0-9]{2})$/.test(expiry)]. *)
Definition expiryPattern (expiry : jsstring) : bool :=
  match expiry with
  | m1 :: m2 :: rest =>
      monthPattern m1 m2 &&
      match rest with
      | [y1; y2] => isDigit y1 && isDigit y2
      | [slash; y1; y2] => (slash =? 47) && isDigit y1 && isDigit y2
      | _ => false
      end
  | _ => false
  end.

(** [/^[0-9]{3,4}$/.test(cvc)]. *)
Definition cvcPattern (cvc : jsstring) : bool :=
  forallb isDigit cvc
  && (3 <=? Z.of_nat (length cvc)) && (Z.of_nat (length cvc) <=? 4).

(** The [errors] hook: a message for each field that has one. *)
Record Errors := mkErrors {
  cardNumber : option jsstring;
  expiry : option jsstring;
  cvc : option jsstring
}.

Definition noErrors : Errors := mkErrors None None None.

(** [Object.keys(newErrors).length > 0]. *)
Definition anyError (e : Errors) : bool :=
  match e with
  | mkErrors None None None => false
  | _ => true
  end.

(** The object [newErrors] that [handleCreditCardFlow] fills. *)
Definition validate (cardNum expiryText cvcText : jsstring) : Errors :=
  mkErrors
    (if Checkout.isValidCreditCard cardNum then None
     else Some (js "Invalid card number. Please check digits."))
    (if expiryPattern expiryText then None
     else Some (js "Invalid format (MM/YY)."))
    (if cvcPattern cvcText then None else Some (js "Invalid CVC.")).

(** [setIsProcessing(true); setProcessingStatus(status)]. *)
Definition processing (status : jsstring) (z : Wizard.t) : Wizard.t :=
  Wizard.mk (Wizard.step z) (Wizard.paymentMethod z) (Wizard.cardProvider z)
    true status (Wizard.shippingData z) (Wizard.orderRef z) (Wizard.alerts z).

Definition withWizard (z : Wizard.t) (s : Session.t) : Session.t :=
  Session.mk (Session.world s) (Session.cart s) z.

(** [handleCreditCardFlow]: the session and the [errors] hook after the
    handler has run to its end. *)
Definition handleCreditCardFlow (cardNum expiryText cvcText : jsstring)
  (now language : jsstring) (s : Session.t) : Session.t * Errors :=
  let newErrors := validate cardNum expiryText cvcText in
  if anyError newErrors then (s, newErrors)
  else
    (Session.completeOrder now language
       (withWizard
          (processing (js "Verifying transaction...")
             (processing (js "Contacting issuing bank...")
                (processing (js "Encrypting data...") (Session.wizard s))))
          s),
     noErrors).

(** [handlePayPalFlow], once its two timers have fired. *)
Definition handlePayPalFlow (now language : jsstring) (s : Session.t)
  : Session.t :=
  Session.completeOrder now language
    (withWizard
       (processing (js "Waiting for payment confirmation...")
          (processing (js "Connecting to PayPal Secure Gateway...")
             (Session.wizard s)))
       s).

(** [handleGeneralSubmit], once its timer has fired. *)
Definition handleGeneralSubmit (now language : jsstring) (s : Session.t)
  : Session.t :=
  match Wizard.paymentMethod (Session.wizard s) with
  | bank_transfer =>
      Session.completeOrder now language
        (withWizard (processing (js "Registering order...") (Session.wizard s)) s)
  | _ => s
  end.

(** The number a digit character stands for. *)
Definition digitValue (c : Z) : Z := c - 48.

End CardForm.

(** ** The hash behind the translation cache keys *)

Module Hash.

(** The value of a text read as a numeral in base 31, its code units as
    digits, most significant first. *)
Definition polynomial (str : jsstring) : Z :=
  fold_left (fun acc char => 31 * acc + char) str 0.

End Hash.

(** ** services/geminiService.ts: the curator chat *)

Module GeminiChat.

(** How [chat.sendMessage] ends: it rejects, or it resolves to a response
    whose [text] is a string or [undefined]. *)
Inductive remote :=
| Rejected
| Responded (text : option jsstring).

(** [sendMessageToCurator]: what its promise resolves to. *)
Definition sendMessageToCurator (r : remote) : jsstring :=
  match r with
  | Responded text =>
      if truthy text then default [] text
      else js "I apologize, I am having trouble connecting to the archives. Please try again."
  | Rejected =>
      js "I am currently unable to respond. Please check your connection."
  end.

End GeminiChat.

(** ** components/CuratorChat.tsx *)

Module CuratorChat.

Inductive Role := user | model.

(** [ChatMessage]; an absent [isError] reads as [false]. *)
Record ChatMessage := mkMessage {
  role : Role;
  text : jsstring;
  isError : bool
}.

(** The hooks of the component; [chatSession] tells whether
    [chatSessionRef.current] holds a session, and [pending] counts the calls
    of [sendMessageToCurator] whose promise has not resolved yet. *)
Record t := mk {
  messages : list ChatMessage;
  input : jsstring;
  isLoading : bool;
  hasError : bool;
  chatSession : bool;
  pending : nat
}.

Definition greeting (activeProduct : option Product.t) : jsstring :=
  match activeProduct with
  | Some p =>
      js "Tenayistilign! I see you are admiring the " ++ Product.name p
      ++ js ". How can I assist you with its history or styling today?"
  | None =>
      js "Tenayistilign! I am Ato Kassa. I can help you discover the perfect piece of Ethiopian heritage for your home or wardrobe. What are you looking for?"
  end.

(** [initChat]; [apiKey] tells whether [createCuratorChat] finds an API key
    (it throws when it does not, before the reference is assigned). *)
Definition initChat (apiKey : bool) (activeProduct : option Product.t)
  (c : t) : t :=
  if apiKey
  then mk [mkMessage model (greeting activeProduct) false]
         (input c) (isLoading c) false true (pending c)
  else mk [mkMessage model
             (js "I apologize, but I am having trouble connecting to the cultural archives right now. Please check your internet connection or try again later.")
             true]
         (input c) (isLoading c) true (chatSession c) (pending c).

(** [handleSend], up to the call of [sendMessageToCurator]. *)
Definition handleSend (c : t) : t :=
  if negb (truthy_str (trim (input c))) then c
  else if negb (chatSession c) || hasError c
  then mk (messages c ++
             [mkMessage user (input c) false;
              mkMessage model
                (js "Service is unavailable. Please try reloading.") true])
         [] (isLoading c) (hasError c) (chatSession c) (pending c)
  else mk (messages c ++ [mkMessage user (input c) false])
         [] true (hasError c) (chatSession c) (S (pending c)).

(** The rest of [handleSend], run when the call has ended as [r]. *)
Definition onResponse (r : GeminiChat.remote) (c : t) : t :=
  match pending c with
  | O => c
  | S n =>
      mk (messages c ++
            [mkMessage model (GeminiChat.sendMessageToCurator r) false])
        (input c) false (hasError c) (chatSession c) n
  end.

(** What can happen to an open chat window. *)
Inductive event :=
| Typed (text : jsstring)                                   (* [onChange] *)
| Init (apiKey : bool) (activeProduct : option Product.t)   (* [initChat] *)
| Send                                                      (* [handleSend] *)
| Response (r : GeminiChat.remote).

Definition step (c : t) (e : event) : t :=
  match e with
  | Typed s =>
      mk (messages c) s (isLoading c) (hasError c) (chatSession c) (pending c)
  | Init apiKey activeProduct => initChat apiKey activeProduct c
  | Send => handleSend c
  | Response r => onResponse r c
  end.

Definition run (events : list event) (c : t) : t := fold_left step events c.

(** The component as it mounts. *)
Definition initial : t := mk [] [] false false false 0.

End CuratorChat.

(** ** App.tsx: the newsletter form *)

Module Newsletter.

Import Backend.

Inductive ToastType := success | error.

(** The [emailInput] hook, the toasts shown so far, and the backend. *)
Record t := mk {
  emailInput : jsstring;
  toasts : list (jsstring * ToastType);
  world : World
}.

(** [emailInput.includes('@')]. *)
Definition includesAt (s : jsstring) : bool := existsb (Z.eqb 64) s.

(** [handleSubscribe]; it rejects when [addSubscriber] does. *)
Definition handleSubscribe (s : t) : t * outcome unit :=
  if negb (truthy_str (emailInput s)) || negb (includesAt (emailInput s))
  then (mk (emailInput s)
          (toasts s ++ [(js "Please enter a valid email", error)])
          (world s), Returned tt)
  else
    match addSubscriber (emailInput s) (world s) with
    | (w, Returned _) =>
        (mk [] (toasts s ++ [(js "Subscribed successfully!", success)]) w,
         Returned tt)
    | (w, Thrown e) => (mk (emailInput s) (toasts s) w, Thrown e)
    end.

End Newsletter.

(** ** A catalog over a store with a quota *)

Module CatalogSample.

Import Backend.

(** A quota that the product record reaches at two products. *)
Definition twoProducts (contents : gmap jsstring json) : bool :=
  match contents !! KEYS_PRODUCTS with
  | Some (JProducts ps) => (length ps <=? 2)%nat
  | _ => true
  end.

(** A catalog of two products, saved, over that store. *)
Definition smallStoreWorld : World :=
  mkWorld ∅ (mkService [Sample.basket; Sample.scarf] [] [])
    (mkStorage {[ KEYS_PRODUCTS := JProducts [Sample.basket; Sample.scarf] ]}
       twoProducts).

End CatalogSample.

(* ===================================================================== *)
(** * Part II: properties                                                 *)
(* ===================================================================== *)

Section CartFacts.

Implicit Types (cart : list CartItem.t) (product : Product.t) (id : jsstring).

Lemma str_eqb_true (a b : jsstring) : str_eqb a b = true <-> a = b.
Proof. unfold str_eqb. apply bool_decide_eq_true. Qed.

Lemma str_eqb_false (a b : jsstring) : str_eqb a b = false <-> a <> b.
Proof. unfold str_eqb. apply bool_decide_eq_false. Qed.

Lemma str_eqb_refl (a : jsstring) : str_eqb a a = true.
Proof. apply str_eqb_true. reflexivity. Qed.

Lemma ids_update id delta cart :
  Cart.ids (Cart.handleUpdateCartQuantity id delta cart) = Cart.ids cart.
Proof.
  unfold Cart.ids, Cart.handleUpdateCartQuantity.
  induction cart as [|c cart IH]; simpl; [reflexivity|].
  rewrite IH. f_equal. destruct (str_eqb (CartItem.id c) id); reflexivity.
Qed.

Lemma ids_remove id cart :
  Cart.ids (Cart.handleRemoveFromCart id cart)
  = List.filter (fun i => negb (str_eqb i id)) (Cart.ids cart).
Proof.
  unfold Cart.ids, Cart.handleRemoveFromCart.
  induction cart as [|c cart IH]; simpl; [reflexivity|].
  destruct (str_eqb (CartItem.id c) id); simpl; rewrite IH; reflexivity.
Qed.

(** [find] by id succeeds exactly when the id is among the cart's ids. *)
Lemma find_id_none product cart :
  List.find (fun item => str_eqb (CartItem.id item) (Product.id product)) cart = None
  <-> ~ In (Product.id product) (Cart.ids cart).
Proof.
  unfold Cart.ids. induction cart as [|c cart IH]; simpl.
  - split; [intros _ []|reflexivity].
  - destruct (str_eqb (CartItem.id c) (Product.id product)) eqn:E.
    + apply str_eqb_true in E. split; [discriminate|]. intros H. elim H. left. exact E.
    + apply str_eqb_false in E. rewrite IH. split.
      * intros H [H1|H1]; [exact (E H1)|exact (H H1)].
      * intros H H1. apply H. right. exact H1.
Qed.

(** The [map] branch of [handleAddToCart] keeps every line in place. *)
Lemma ids_increment product cart :
  Cart.ids
    (List.map (fun item =>
       if str_eqb (CartItem.id item) (Product.id product)
       then CartItem.mk (CartItem.product item) (CartItem.quantity item + 1)%float
       else item) cart)
  = Cart.ids cart.
Proof.
  unfold Cart.ids. induction cart as [|c cart IH]; simpl; [reflexivity|].
  rewrite IH. f_equal.
  destruct (str_eqb (CartItem.id c) (Product.id product)); reflexivity.
Qed.

Lemma ids_add_present product cart :
  In (Product.id product) (Cart.ids cart) ->
  Cart.ids (Cart.handleAddToCart product cart) = Cart.ids cart.
Proof.
  intros Hin. unfold Cart.handleAddToCart.
  destruct (List.find _ cart) eqn:F.
  - apply ids_increment.
  - apply find_id_none in F. contradiction.
Qed.

Lemma ids_add_absent product cart :
  ~ In (Product.id product) (Cart.ids cart) ->
  Cart.ids (Cart.handleAddToCart product cart) = Cart.ids cart ++ [Product.id product].
Proof.
  intros Hnin. unfold Cart.handleAddToCart.
  apply find_id_none in Hnin. rewrite Hnin.
  unfold Cart.ids. rewrite List.map_app. reflexivity.
Qed.

Lemma step_NoDup cart (o : Cart.op) :
  NoDup (Cart.ids cart) -> NoDup (Cart.ids (Cart.step cart o)).
Proof.
  intros ND. destruct o as [p|id delta|id]; simpl.
  - destruct (decide (Product.id p ∈ Cart.ids cart)) as [Hin|Hnin];
      rewrite list_elem_of_In in Hin || rewrite list_elem_of_In in Hnin.
    + rewrite ids_add_present by exact Hin. exact ND.
    + rewrite ids_add_absent by exact Hnin.
      apply NoDup_app. split; [exact ND|]. split.
      * intros x Hx Hx'. apply list_elem_of_In in Hx.
        apply list_elem_of_In in Hx'. destruct Hx' as [<-|[]]. exact (Hnin Hx).
      * apply NoDup_singleton.
  - rewrite ids_update. exact ND.
  - rewrite ids_remove. apply NoDup_ListNoDup, List.NoDup_filter, NoDup_ListNoDup, ND.
Qed.

Lemma fold_step_NoDup (ops : list Cart.op) cart :
  NoDup (Cart.ids cart) -> NoDup (Cart.ids (fold_left Cart.step ops cart)).
Proof.
  revert cart. induction ops as [|o ops IH]; intros cart ND; simpl.
  - exact ND.
  - apply IH. apply step_NoDup. exact ND.
Qed.

(** C7. After any sequence of add-to-cart, update-quantity and remove
    operations, starting from the empty cart, no two cart lines carry the
    same product id; and adding a product whose id is already in the cart
    keeps the lines where they are (same number of lines, same ids) and
    replaces exactly the line of that id by a copy whose quantity is the old
    quantity plus 1. *)
Theorem cart_one_line_per_id :
  (forall ops : list Cart.op, NoDup (Cart.ids (Cart.run ops))) /\
  (forall product cart,
      In (Product.id product) (Cart.ids cart) ->
      let cart' := Cart.handleAddToCart product cart in
      Cart.ids cart' = Cart.ids cart /\
      length cart' = length cart /\
      forall (i : nat) (line : CartItem.t),
        nth_error cart i = Some line ->
        nth_error cart' i =
          Some (if str_eqb (CartItem.id line) (Product.id product)
                then CartItem.mk (CartItem.product line) (CartItem.quantity line + 1)%float
                else line)).
Proof.
  split.
  - intros ops. unfold Cart.run. apply fold_step_NoDup. constructor.
  - intros product cart Hin cart'. split; [|split].
    + apply ids_add_present. exact Hin.
    + subst cart'. unfold Cart.handleAddToCart.
      destruct (List.find _ cart) eqn:F.
      * apply List.length_map.
      * apply find_id_none in F. contradiction.
    + intros i line Hi. subst cart'. unfold Cart.handleAddToCart.
      destruct (List.find _ cart) eqn:F.
      * rewrite List.nth_error_map, Hi. reflexivity.
      * apply find_id_none in F. contradiction.
Qed.

End CartFacts.

(** A basket added to a cart that already holds one basket. *)
Lemma cart_one_line_per_id_witness :
  In (Product.id Sample.basket) (Cart.ids Sample.oneBasket) /\
  Cart.handleAddToCart Sample.basket Sample.oneBasket
  = [CartItem.mk Sample.basket 2%float].
Proof.
  split.
  - left. reflexivity.
  - pose proof (proj2 cart_one_line_per_id Sample.basket Sample.oneBasket
                  (or_introl eq_refl)) as [_ [Hlen Hnth]].
    specialize (Hnth 0%nat (CartItem.mk Sample.basket 1%float) eq_refl).
    destruct (Cart.handleAddToCart Sample.basket Sample.oneBasket) as [|x [|y r]];
      try discriminate Hlen.
    simpl in Hnth. injection Hnth as ->. reflexivity.
Defined.

Section PricingFacts.

Lemma fold_left_line_totals (cart : list CartItem.t) (acc : float) :
  fold_left
    (fun sum item => (sum + CartItem.price item * CartItem.quantity item)%float)
    cart acc
  = fold_left (fun a x => (a + x)%float) (Spec.lineTotals cart) acc.
Proof.
  revert acc. induction cart as [|c cart IH]; intros acc; simpl.
  - reflexivity.
  - apply IH.
Qed.

(** C2. For every cart the checkout total is the sum, over the cart lines
    in order, of unit price times quantity, plus the shipping constant 25.00
    plus the duties constant 12.50 (all in binary64 arithmetic, as the
    source computes it); a cart holding one item priced 100.00 with
    quantity 1 has subtotal 100.00 and total 137.50. *)
Theorem checkout_total_formula :
  (forall cart : list CartItem.t,
      Checkout.subtotal cart = Spec.sum (Spec.lineTotals cart) /\
      Checkout.total cart
      = (Spec.sum (Spec.lineTotals cart) + 25 + 12.5)%float) /\
  Checkout.subtotal Sample.oneBasket = 100%float /\
  Checkout.total Sample.oneBasket = 137.5%float.
Proof.
  split; [|split].
  - intros cart.
    assert (H : Checkout.subtotal cart = Spec.sum (Spec.lineTotals cart))
      by apply fold_left_line_totals.
    split; [exact H|]. unfold Checkout.total. rewrite H. reflexivity.
  - vm_compute. reflexivity.
  - vm_compute. reflexivity.
Qed.

End PricingFacts.

Section CardFacts.

Lemma luhnStep_doubled (nCheck : Z) (bEven : bool) (c : Z) :
  Checkout.luhnStep (nCheck, bEven) c
  = (nCheck + (if bEven then Spec.doubled (c - 48) else c - 48), negb bEven).
Proof.
  unfold Checkout.luhnStep, Checkout.parseInt, Spec.doubled.
  destruct bEven; [|reflexivity].
  replace ((c - 48) * 2) with (2 * (c - 48)) by lia. reflexivity.
Qed.

(** The loop of the source, started in state [(nCheck, bEven)], adds to
    [nCheck] the alternate-doubling sum taken from a distance whose parity
    is that of [bEven]. *)
Lemma luhn_loop (fromRight : list Z) :
  forall (nCheck : Z) (bEven : bool) (distance : nat),
    Nat.even distance = negb bEven ->
    fst (fold_left Checkout.luhnStep fromRight (nCheck, bEven))
    = nCheck + Spec.alternateSum distance (List.map (fun c => c - 48) fromRight).
Proof.
  induction fromRight as [|c r IH]; intros nCheck bEven distance Hpar.
  - simpl. lia.
  - cbn [fold_left List.map Spec.alternateSum].
    rewrite luhnStep_doubled.
    rewrite (IH _ (negb bEven) (S distance)).
    + rewrite Hpar. destruct bEven; simpl; lia.
    + rewrite Nat.even_succ, <- Nat.negb_even, Hpar. reflexivity.
Qed.

Lemma existsb_negb_forallb {A} (f : A -> bool) (l : list A) :
  existsb (fun x => negb (f x)) l = negb (forallb f l).
Proof.
  induction l as [|x l IH]; simpl; [reflexivity|].
  rewrite IH. destruct (f x); reflexivity.
Qed.

Lemma isValidCreditCard_unfold (value : jsstring) :
  Checkout.isValidCreditCard value
  = forallb Checkout.allowedCardChar value && Spec.luhnAccepts value.
Proof.
  unfold Checkout.isValidCreditCard, Spec.luhnAccepts, Spec.luhnChecksum.
  rewrite existsb_negb_forallb.
  destruct (forallb Checkout.allowedCardChar value); simpl; [|reflexivity].
  set (newValue := List.filter isDigit value).
  set (len := Z.of_nat (length newValue)).
  destruct (Z.ltb_spec len 13) as [H13|H13].
  - simpl. destruct (Z.leb_spec 13 len); [lia|reflexivity].
  - destruct (Z.leb_spec 13 len); [|lia]. simpl.
    destruct (Z.ltb_spec 19 len) as [H19|H19].
    { destruct (Z.leb_spec len 19); [lia|reflexivity]. }
    destruct (Z.leb_spec len 19); [|lia]. simpl.
    pose proof (luhn_loop (rev newValue) 0 false 0%nat eq_refl) as Hloop.
    destruct (fold_left Checkout.luhnStep (rev newValue) (0, false)) as [nCheck b].
    simpl in Hloop. rewrite Hloop.
    rewrite List.map_rev. reflexivity.
Qed.

(** C3, as the code has it. The validator first rejects every input that
    holds a character other than a digit, a hyphen or white space; on the
    remaining inputs it strips the non-digits, requires 13 to 19 digits and
    accepts exactly when the alternate-doubling checksum is 0 modulo 10.
    "4539148803436467" is accepted and "4539148803436468" is rejected. *)
Theorem card_check_guarded_luhn :
  (forall value : jsstring,
      Checkout.isValidCreditCard value = true <->
      ((forall c, In c value -> Checkout.allowedCardChar c = true) /\
       Spec.luhnAccepts value = true)) /\
  Checkout.isValidCreditCard (js "4539148803436467") = true /\
  Checkout.isValidCreditCard (js "4539148803436468") = false.
Proof.
  split; [|split].
  - intros value. rewrite isValidCreditCard_unfold, andb_true_iff.
    rewrite List.forallb_forall. reflexivity.
  - vm_compute. reflexivity.
  - vm_compute. reflexivity.
Qed.

(** C3 as worded fails: with a letter after a valid number, stripping the
    non-digits leaves 16 digits with checksum 0 modulo 10, yet the validator
    rejects the input. *)
Lemma card_check_rejects_foreign_characters :
  Spec.luhnAccepts (js "4539148803436467a") = true /\
  Checkout.isValidCreditCard (js "4539148803436467a") = false.
Proof. split; vm_compute; reflexivity. Qed.

End CardFacts.

Section BackendFacts.

Import Backend BackendSpec.

Implicit Types (w : World) (id email : jsstring).

Lemma keys_products_orders : KEYS_PRODUCTS <> KEYS_ORDERS.
Proof. intros H. vm_compute in H. discriminate H. Qed.

Lemma keys_subscribers_orders : KEYS_SUBSCRIBERS <> KEYS_ORDERS.
Proof. intros H. vm_compute in H. discriminate H. Qed.

Lemma keys_products_subscribers : KEYS_PRODUCTS <> KEYS_SUBSCRIBERS.
Proof. intros H. vm_compute in H. discriminate H. Qed.

(** What [setItem] does to the world, in both of its outcomes. *)
Lemma setItem_cases key (value : json) w :
  (fits (localStorage w) (<[key := value]> (entries (localStorage w))) = true /\
   setItem key value w
   = (mkWorld (heap w) (service w)
        (mkStorage (<[key := value]> (entries (localStorage w)))
           (fits (localStorage w))), Returned tt)) \/
  (fits (localStorage w) (<[key := value]> (entries (localStorage w))) = false /\
   setItem key value w = (w, Thrown QuotaExceededError)).
Proof.
  unfold setItem.
  destruct (fits (localStorage w) (<[key:=value]> (entries (localStorage w))));
    [left|right]; split; reflexivity.
Qed.

(** A write leaves the heap, the service and every other key alone. *)
Lemma setItem_frame key (value : json) w :
  heap (fst (setItem key value w)) = heap w /\
  service (fst (setItem key value w)) = service w /\
  fits (localStorage (fst (setItem key value w))) = fits (localStorage w) /\
  forall key', key' <> key ->
    entries (localStorage (fst (setItem key value w))) !! key'
    = entries (localStorage w) !! key'.
Proof.
  destruct (setItem_cases key value w) as [[_ ->]|[_ ->]]; simpl.
  - repeat split; try reflexivity.
    intros key' Hne. apply lookup_insert_ne. congruence.
  - repeat split; reflexivity.
Qed.

(** C10. [clearOrders] empties the order history and nothing else: after the
    call [getOrders] returns the empty list, whether or not the write of the
    order record was accepted, while the in-memory catalog and subscriber
    list, their two persisted records and the heap are as before; when the
    write is accepted the persisted order record is the empty array, and
    otherwise the whole store is as before. *)
Theorem clearOrders_only_orders :
  forall w,
    let w' := fst (clearOrders w) in
    snd (getOrders w') = Returned [] /\
    products (service w') = products (service w) /\
    subscribers (service w') = subscribers (service w) /\
    entries (localStorage w') !! KEYS_PRODUCTS
    = entries (localStorage w) !! KEYS_PRODUCTS /\
    entries (localStorage w') !! KEYS_SUBSCRIBERS
    = entries (localStorage w) !! KEYS_SUBSCRIBERS /\
    heap w' = heap w /\
    ((snd (clearOrders w) = Returned tt /\
      entries (localStorage w') !! KEYS_ORDERS = Some (JOrders [])) \/
     (snd (clearOrders w) = Thrown QuotaExceededError /\
      localStorage w' = localStorage w)).
Proof.
  intros w w'. subst w'.
  unfold clearOrders, saveOrders, bind, modify, gets, getOrders. simpl.
  set (w1 := setOrders [] w).
  destruct (setItem_cases KEYS_ORDERS (JOrders []) w1) as [[_ E]|[_ E]];
    rewrite E; simpl.
  - repeat split; try reflexivity.
    + apply lookup_insert_ne, not_eq_sym, keys_products_orders.
    + apply lookup_insert_ne, not_eq_sym, keys_subscribers_orders.
    + left. split; [reflexivity|]. apply lookup_insert_eq.
  - repeat split; try reflexivity. right. split; reflexivity.
Qed.

End BackendFacts.

Section CatalogFacts.

Import Backend BackendSpec.

Implicit Types (w : World) (id : jsstring) (ps : list Product.t).

Lemma filter_absent id ps :
  ~ In id (List.map Product.id ps) ->
  List.filter (fun p => negb (str_eqb (Product.id p) id)) ps = ps.
Proof.
  induction ps as [|p ps IH]; simpl; intros Hnin; [reflexivity|].
  destruct (str_eqb (Product.id p) id) eqn:E.
  - apply str_eqb_true in E. elim Hnin. left. exact E.
  - simpl. rewrite IH; [reflexivity|]. intros H. apply Hnin. right. exact H.
Qed.

Lemma filter_twice id ps :
  let keep := fun p => negb (str_eqb (Product.id p) id) in
  List.filter keep (List.filter keep ps) = List.filter keep ps.
Proof.
  intros keep. induction ps as [|p ps IH]; simpl; [reflexivity|].
  destruct (keep p) eqn:E; simpl; [rewrite E, IH|]; auto.
Qed.

Lemma setProducts_same w : setProducts (products (service w)) w = w.
Proof. destruct w as [h [ps os ss] st]. reflexivity. Qed.

Lemma deleteProduct_unfold id w :
  deleteProduct id w
  = saveProducts
      (setProducts
         (List.filter (fun p => negb (str_eqb (Product.id p) id))
            (products (service w))) w).
Proof. reflexivity. Qed.

Lemma saveProducts_unfold w :
  saveProducts w = setItem KEYS_PRODUCTS (JProducts (products (service w))) w.
Proof. reflexivity. Qed.

(** Saving again right after a save changes nothing more and ends the same
    way. *)
Lemma saveProducts_twice w :
  saveProducts (fst (saveProducts w)) = saveProducts w.
Proof.
  rewrite !saveProducts_unfold.
  destruct (setItem_cases KEYS_PRODUCTS (JProducts (products (service w))) w)
    as [[Hfit E]|[Hfit E]]; rewrite E; simpl.
  - unfold setItem. simpl. rewrite insert_insert_eq, Hfit. reflexivity.
  - exact E.
Qed.

(** C8. For an id that no product of the catalog carries, [deleteProduct]
    is just a re-save of the unchanged catalog: it raises no not-found
    error, the in-memory catalog is as before, the call returns normally
    exactly when the store accepts the re-save, and when the product record
    is in its normal condition (the stored text is the text of the mirror)
    it does return normally and leaves the whole world as it was. For every
    id, deleting twice leaves the same world and ends the same way as
    deleting once. *)
Theorem deleteProduct_absent_noop :
  (forall w id,
      ~ In id (List.map Product.id (products (service w))) ->
      deleteProduct id w = saveProducts w /\
      snd (deleteProduct id w) <> Thrown ProductNotFound /\
      service (fst (deleteProduct id w)) = service w /\
      snd (getProducts (fst (deleteProduct id w)))
      = Returned (products (service w)) /\
      (snd (deleteProduct id w) = Returned tt <->
       fits (localStorage w)
         (<[KEYS_PRODUCTS := JProducts (products (service w))]>
            (entries (localStorage w))) = true) /\
      (productsInSync w -> deleteProduct id w = (w, Returned tt))) /\
  (forall w id,
      deleteProduct id (fst (deleteProduct id w)) = deleteProduct id w).
Proof.
  split.
  - intros w id Hnin.
    assert (E : deleteProduct id w = saveProducts w).
    { rewrite deleteProduct_unfold, filter_absent by exact Hnin.
      rewrite setProducts_same. reflexivity. }
    rewrite E, saveProducts_unfold.
    pose proof (setItem_frame KEYS_PRODUCTS (JProducts (products (service w))) w)
      as [_ [Hsvc _]].
    split; [reflexivity|]. split; [|split; [exact Hsvc|split; [|split]]].
    + destruct (setItem_cases KEYS_PRODUCTS (JProducts (products (service w))) w)
        as [[_ ->]|[_ ->]]; simpl; discriminate.
    + unfold getProducts, gets. simpl. rewrite Hsvc. reflexivity.
    + destruct (setItem_cases KEYS_PRODUCTS (JProducts (products (service w))) w)
        as [[Hfit ->]|[Hfit ->]]; simpl; rewrite Hfit.
      * split; reflexivity.
      * split; discriminate.
    + intros [Hfit Hrec]. unfold setItem.
      rewrite (insert_id _ _ _ Hrec), Hfit.
      destruct w as [h svc [m f]]. reflexivity.
  - intros w id.
    rewrite !deleteProduct_unfold.
    set (w1 := setProducts _ w).
    assert (Hsvc : service (fst (saveProducts w1)) = service w1).
    { rewrite saveProducts_unfold. apply setItem_frame. }
    assert (E : setProducts
                  (List.filter (fun p => negb (str_eqb (Product.id p) id))
                     (products (service (fst (saveProducts w1)))))
                  (fst (saveProducts w1))
                = fst (saveProducts w1)).
    { rewrite Hsvc. subst w1. simpl. rewrite filter_twice.
      rewrite <- (setProducts_same (fst (saveProducts _))) at 2.
      rewrite Hsvc. reflexivity. }
    rewrite E. apply saveProducts_twice.
Qed.

(** A catalog in its normal condition and an id that is not in it. *)
Lemma deleteProduct_absent_noop_witness :
  deleteProduct (js "p9") catalogWorld = (catalogWorld, Returned tt).
Proof.
  apply (proj1 deleteProduct_absent_noop catalogWorld (js "p9")).
  - vm_compute. intros [H|[H|[]]]; discriminate H.
  - split; [reflexivity|]. unfold catalogWorld. simpl.
    apply lookup_singleton_eq.
Defined.

(** C8 as worded fails: an absent id can make [deleteProduct] throw. The
    catalog is saved and in its normal condition; an [addProduct] is refused
    by the store, which leaves the new product in memory only; after that,
    [deleteProduct] for "p9", which no product carries, throws the quota
    error, because it saves the catalog whether or not it removed
    anything. *)
Lemma deleteProduct_absent_throws_after_refused_add :
  productsInSync CatalogSample.smallStoreWorld /\
  snd (addProduct Sample.scarf 1 2 CatalogSample.smallStoreWorld)
  = Thrown QuotaExceededError /\
  ~ In (js "p9")
      (List.map Product.id
         (products (service
            (fst (addProduct Sample.scarf 1 2 CatalogSample.smallStoreWorld))))) /\
  snd (deleteProduct (js "p9")
         (fst (addProduct Sample.scarf 1 2 CatalogSample.smallStoreWorld)))
  = Thrown QuotaExceededError.
Proof.
  split; [|split; [|split]].
  - split; [reflexivity|]. apply lookup_singleton_eq.
  - vm_compute. reflexivity.
  - vm_compute. intros [H | [H | [H | []]]]; discriminate H.
  - vm_compute. reflexivity.
Qed.

End CatalogFacts.

Section SubscriberFacts.

Import Backend BackendSpec.

Implicit Types (w : World) (email : jsstring) (emails : list jsstring).

Lemma includes_In email (ss : list jsstring) :
  includes email ss = true <-> In email ss.
Proof.
  unfold includes. rewrite List.existsb_exists. split.
  - intros [x [Hx E]]. apply str_eqb_true in E. subst x. exact Hx.
  - intros H. exists email. split; [exact H|apply str_eqb_refl].
Qed.

Lemma addSubscriber_present email w :
  In email (subscribers (service w)) -> addSubscriber email w = (w, Returned tt).
Proof.
  intros H. apply includes_In in H.
  unfold addSubscriber, bind, gets. rewrite H. reflexivity.
Qed.

Lemma addSubscriber_absent email w :
  ~ In email (subscribers (service w)) ->
  subscribers (service (fst (addSubscriber email w)))
  = email :: subscribers (service w).
Proof.
  intros H. rewrite <- includes_In in H. apply not_true_is_false in H.
  set (w1 := setSubscribers (email :: subscribers (service w)) w).
  assert (E : addSubscriber email w
              = setItem KEYS_SUBSCRIBERS
                  (JStrings (email :: subscribers (service w))) w1).
  { unfold addSubscriber, bind, gets. rewrite H. reflexivity. }
  rewrite E.
  destruct (setItem_frame KEYS_SUBSCRIBERS
              (JStrings (email :: subscribers (service w))) w1) as [_ [-> _]].
  reflexivity.
Qed.

(** Subscribing a list of pairwise different emails, none of them known
    yet, stacks them in front of the list, the last one first. *)
Lemma subscribeAll_fresh emails :
  forall w,
    NoDup emails ->
    (forall e, In e emails -> ~ In e (subscribers (service w))) ->
    subscribers (service (subscribeAll emails w))
    = rev emails ++ subscribers (service w).
Proof.
  induction emails as [|e emails IH]; intros w ND Hnew; [reflexivity|].
  apply NoDup_cons in ND as [Hne ND].
  unfold subscribeAll. simpl. fold (subscribeAll emails (fst (addSubscriber e w))).
  assert (He : subscribers (service (fst (addSubscriber e w)))
               = e :: subscribers (service w)).
  { apply addSubscriber_absent. apply Hnew. left. reflexivity. }
  rewrite IH.
  - rewrite He, <- List.app_assoc. reflexivity.
  - exact ND.
  - intros e' He' Hin. rewrite He in Hin. destruct Hin as [<-|Hin].
    + apply Hne. apply list_elem_of_In. exact He'.
    + apply (Hnew e'); [right; exact He'|exact Hin].
Qed.

(** C9, as the code has it. [addSubscriber] deduplicates by exact string
    match: adding an email already present changes nothing at all, adding
    an email not present stores it, and two emails that differ only in the
    case of a letter are both stored. [getSubscribers] returns the
    subscribers most recent first: after subscribing pairwise different
    emails to an empty list, it returns them in the reverse of the order in
    which they were added. *)
Theorem addSubscriber_dedup_newest_first :
  (forall w email,
      In email (subscribers (service w)) ->
      addSubscriber email w = (w, Returned tt)) /\
  (forall w email,
      ~ In email (subscribers (service w)) ->
      snd (getSubscribers (fst (addSubscriber email w)))
      = Returned (email :: subscribers (service w))) /\
  snd (getSubscribers
         (subscribeAll [js "Sara@example.com"; js "sara@example.com"] emptyWorld))
  = Returned [js "sara@example.com"; js "Sara@example.com"] /\
  (forall w emails,
      subscribers (service w) = [] ->
      NoDup emails ->
      snd (getSubscribers (subscribeAll emails w)) = Returned (rev emails)).
Proof.
  split; [|split; [|split]].
  - intros w email. apply addSubscriber_present.
  - intros w email H. unfold getSubscribers, gets. simpl.
    rewrite addSubscriber_absent by exact H. reflexivity.
  - vm_compute. reflexivity.
  - intros w emails Hempty ND. unfold getSubscribers, gets. simpl.
    rewrite subscribeAll_fresh.
    + rewrite Hempty, List.app_nil_r. reflexivity.
    + exact ND.
    + intros e _. rewrite Hempty. intros [].
Qed.

(** Two different emails subscribed to the empty list. *)
Lemma addSubscriber_dedup_newest_first_witness :
  snd (getSubscribers
         (subscribeAll [js "abebe@example.com"; js "sara@example.com"] emptyWorld))
  = Returned (rev [js "abebe@example.com"; js "sara@example.com"]).
Proof.
  apply (proj2 (proj2 (proj2 addSubscriber_dedup_newest_first))).
  - reflexivity.
  - apply NoDup_cons. split.
    + intros H. apply list_elem_of_In in H. destruct H as [H|[]]. discriminate H.
    + apply NoDup_singleton.
Defined.

(** C9 as worded fails: after subscribing "abebe@example.com" and then
    "sara@example.com", [getSubscribers] does not return them in the order
    in which they were added. *)
Lemma getSubscribers_not_insertion_order :
  snd (getSubscribers
         (subscribeAll [js "abebe@example.com"; js "sara@example.com"] emptyWorld))
  <> Returned [js "abebe@example.com"; js "sara@example.com"].
Proof. vm_compute. intros H. discriminate H. Qed.

End SubscriberFacts.

Section HeapFacts.

Import Backend.

Implicit Types (h : gmap loc object) (w : World) (l o : loc).

Lemma readItem_mono h h' l c :
  h ⊆ h' -> readItem h l = Some c -> readItem h' l = Some c.
Proof.
  unfold readItem. intros Hsub H.
  destruct (h !! l) as [x|] eqn:E; [|discriminate].
  rewrite (lookup_weaken _ _ _ _ E Hsub). exact H.
Qed.

Lemma readArray_mono h h' l a :
  h ⊆ h' -> readArray h l = Some a -> readArray h' l = Some a.
Proof.
  unfold readArray. intros Hsub H.
  destruct (h !! l) as [x|] eqn:E; [|discriminate].
  rewrite (lookup_weaken _ _ _ _ E Hsub). exact H.
Qed.

Lemma readOrder_mono h h' l v :
  h ⊆ h' -> readOrder h l = Some v -> readOrder h' l = Some v.
Proof.
  unfold readOrder. intros Hsub H.
  destruct (h !! l) as [x|] eqn:E; [|discriminate].
  rewrite (lookup_weaken _ _ _ _ E Hsub). exact H.
Qed.

Lemma readItems_mono h h' (ls : list loc) (cs : list CartItem.t) :
  h ⊆ h' -> mapM (readItem h) ls = Some cs -> mapM (readItem h') ls = Some cs.
Proof.
  intros Hsub. rewrite !mapM_Some. intros HF.
  eapply Forall2_impl; [exact HF|].
  intros l c. simpl. apply readItem_mono. exact Hsub.
Qed.

Lemma resolveItems_mono h h' l (cs : list CartItem.t) :
  h ⊆ h' -> resolveItems h l = Some cs -> resolveItems h' l = Some cs.
Proof.
  unfold resolveItems. intros Hsub H.
  destruct (readArray h l) as [a|] eqn:E; [|discriminate]. simpl in H.
  rewrite (readArray_mono _ _ _ _ Hsub E). simpl.
  apply (readItems_mono _ _ _ _ Hsub H).
Qed.

(** Objects that can be read stay as they are when the heap only grows. *)
Lemma resolveOrder_mono h h' o v :
  h ⊆ h' -> resolveOrder h o = Some v -> resolveOrder h' o = Some v.
Proof.
  unfold resolveOrder. intros Hsub H.
  destruct (readOrder h o) as [ord|] eqn:E; [|discriminate]. simpl in H.
  rewrite (readOrder_mono _ _ _ _ Hsub E). simpl.
  destruct (resolveItems h (Order.items ord)) as [cs|] eqn:E2; [|discriminate].
  rewrite (resolveItems_mono _ _ _ _ Hsub E2). exact H.
Qed.

Lemma stringifyOrders_mono h h' (os : list loc) :
  h ⊆ h' ->
  (forall o, In o os -> is_Some (resolveOrder h o)) ->
  stringifyOrders h' os = stringifyOrders h os.
Proof.
  intros Hsub. unfold stringifyOrders.
  induction os as [|o os IH]; intros Hwf; [reflexivity|]. simpl.
  destruct (Hwf o (or_introl eq_refl)) as [v Hv].
  rewrite Hv, (resolveOrder_mono _ _ _ _ Hsub Hv). simpl.
  f_equal. apply IH. intros o' Ho'. apply Hwf. right. exact Ho'.
Qed.

(** [alloc] picks a location that was not in use. *)
Lemma alloc_spec (x : object) w :
  let l := fresh (dom (heap w)) in
  App.alloc x w
  = (mkWorld (<[l := x]> (heap w)) (service w) (localStorage w), Returned l)
  /\ heap w !! l = None.
Proof.
  intros l. split; [reflexivity|].
  apply not_elem_of_dom. apply is_fresh.
Qed.

Lemma bind_returned {A B} (m : M A) (k : A -> M B) w w' (a : A) :
  m w = (w', Returned a) -> bind m k w = k a w'.
Proof. intros E. unfold bind. rewrite E. reflexivity. Qed.

Lemma bind_thrown {A B} (m : M A) (k : A -> M B) w w' (e : error) :
  m w = (w', Thrown e) -> bind m k w = (w', Thrown e).
Proof. intros E. unfold bind. rewrite E. reflexivity. Qed.

Lemma derefItem_reads w l (c : CartItem.t) :
  readItem (heap w) l = Some c -> App.derefItem l w = (w, Returned c).
Proof. intros E. unfold App.derefItem. rewrite E. reflexivity. Qed.

Lemma derefArray_reads w l (a : list loc) :
  readArray (heap w) l = Some a -> App.derefArray l w = (w, Returned a).
Proof. intros E. unfold App.derefArray. rewrite E. reflexivity. Qed.

Lemma hasId_reads id w l (c : CartItem.t) :
  readItem (heap w) l = Some c ->
  App.hasId id l w = (w, Returned (str_eqb (CartItem.id c) id)).
Proof.
  intros E. unfold App.hasId.
  rewrite (bind_returned _ _ _ _ _ (derefItem_reads _ _ _ E)). reflexivity.
Qed.

End HeapFacts.

Section QuietFacts.

Import Backend Session.

Implicit Types (w : World).

Lemma keepsOrders_refl w : keepsOrders w w.
Proof. repeat split; reflexivity. Qed.

Lemma keepsOrders_trans w1 w2 w3 :
  keepsOrders w1 w2 -> keepsOrders w2 w3 -> keepsOrders w1 w3.
Proof.
  intros [H1 [O1 S1]] [H2 [O2 S2]]. repeat split.
  - etrans; eassumption.
  - congruence.
  - congruence.
Qed.

Lemma quiet_ret {A} (a : A) : quiet (ret a).
Proof. intros w. apply keepsOrders_refl. Qed.

Lemma quiet_throw {A} (e : error) : quiet (@throw A e).
Proof. intros w. apply keepsOrders_refl. Qed.

Lemma quiet_gets {A} (f : World -> A) : quiet (gets f).
Proof. intros w. apply keepsOrders_refl. Qed.

Lemma quiet_bind {A B} (m : M A) (k : A -> M B) :
  quiet m -> (forall a, quiet (k a)) -> quiet (bind m k).
Proof.
  intros Hm Hk w. unfold bind. specialize (Hm w).
  destruct (m w) as [w' [a|e]]; simpl in *.
  - eapply keepsOrders_trans; [exact Hm|apply Hk].
  - exact Hm.
Qed.

Lemma quiet_alloc (x : object) : quiet (App.alloc x).
Proof.
  intros w. destruct (alloc_spec x w) as [-> Hfresh]. simpl.
  repeat split. apply insert_subseteq. exact Hfresh.
Qed.

Lemma quiet_derefArray l : quiet (App.derefArray l).
Proof.
  intros w. unfold App.derefArray.
  destruct (readArray (heap w) l); apply keepsOrders_refl.
Qed.

Lemma quiet_derefItem l : quiet (App.derefItem l).
Proof.
  intros w. unfold App.derefItem.
  destruct (readItem (heap w) l); apply keepsOrders_refl.
Qed.

Lemma quiet_mapA {A B} (f : A -> M B) (l : list A) :
  (forall x, quiet (f x)) -> quiet (App.mapA f l).
Proof.
  intros Hf. induction l as [|x l IH]; simpl.
  - apply quiet_ret.
  - apply quiet_bind; [apply Hf|]. intros y.
    apply quiet_bind; [exact IH|]. intros ys. apply quiet_ret.
Qed.

Lemma quiet_findA {A} (f : A -> M bool) (l : list A) :
  (forall x, quiet (f x)) -> quiet (App.findA f l).
Proof.
  intros Hf. induction l as [|x l IH]; simpl.
  - apply quiet_ret.
  - apply quiet_bind; [apply Hf|]. intros [|]; [apply quiet_ret|exact IH].
Qed.

Lemma quiet_filterA {A} (f : A -> M bool) (l : list A) :
  (forall x, quiet (f x)) -> quiet (App.filterA f l).
Proof.
  intros Hf. induction l as [|x l IH]; simpl.
  - apply quiet_ret.
  - apply quiet_bind; [apply Hf|]. intros b.
    apply quiet_bind; [exact IH|]. intros ys. apply quiet_ret.
Qed.

Lemma quiet_hasId id l : quiet (App.hasId id l).
Proof.
  apply quiet_bind; [apply quiet_derefItem|]. intros c. apply quiet_ret.
Qed.

Create HintDb quiet.
#[local] Hint Resolve quiet_ret quiet_throw quiet_gets quiet_alloc quiet_derefArray
  quiet_derefItem quiet_hasId : quiet.

Lemma quiet_handleAddToCart product cart :
  quiet (App.handleAddToCart product cart).
Proof.
  unfold App.handleAddToCart.
  apply quiet_bind; [auto with quiet|]. intros prev.
  apply quiet_bind; [apply quiet_findA; auto with quiet|]. intros [existing|].
  - apply quiet_bind; [|auto with quiet].
    apply quiet_mapA. intros l.
    apply quiet_bind; [auto with quiet|]. intros item.
    destruct (str_eqb _ _); auto with quiet.
  - apply quiet_bind; auto with quiet.
Qed.

Lemma quiet_handleUpdateCartQuantity id delta cart :
  quiet (App.handleUpdateCartQuantity id delta cart).
Proof.
  unfold App.handleUpdateCartQuantity.
  apply quiet_bind; [auto with quiet|]. intros prev.
  apply quiet_bind; [|auto with quiet].
  apply quiet_mapA. intros l.
  apply quiet_bind; [auto with quiet|]. intros item.
  destruct (str_eqb _ _); auto with quiet.
Qed.

Lemma quiet_handleRemoveFromCart id cart :
  quiet (App.handleRemoveFromCart id cart).
Proof.
  unfold App.handleRemoveFromCart.
  apply quiet_bind; [auto with quiet|]. intros prev.
  apply quiet_bind; [|auto with quiet].
  apply quiet_filterA. intros l.
  apply quiet_bind; auto with quiet.
Qed.

(** The catalog operations write the product record only. *)
Lemma quiet_setProducts (f : World -> list Product.t) :
  quiet (modify (fun w => setProducts (f w) w)).
Proof. intros w. repeat split; reflexivity. Qed.

Lemma quiet_saveProducts : quiet saveProducts.
Proof.
  intros w. rewrite saveProducts_unfold.
  destruct (setItem_frame KEYS_PRODUCTS (JProducts (products (service w))) w)
    as [Hh [Hs [_ Hk]]].
  repeat split.
  - rewrite Hh. reflexivity.
  - rewrite Hs. reflexivity.
  - apply Hk, not_eq_sym, keys_products_orders.
Qed.

Lemma quiet_addProduct product now rnd : quiet (addProduct product now rnd).
Proof.
  unfold addProduct.
  apply quiet_bind; [apply quiet_setProducts|]. intros _.
  apply quiet_bind; [apply quiet_saveProducts|]. intros _. apply quiet_ret.
Qed.

Lemma quiet_updateProduct id updates : quiet (updateProduct id updates).
Proof.
  unfold updateProduct.
  apply quiet_bind; [apply quiet_gets|]. intros ps.
  destruct (findIndex id ps) as [index|]; [|apply quiet_throw].
  destruct (ps !! index) as [old|]; [|apply quiet_throw].
  apply quiet_bind; [apply (quiet_setProducts (fun _ => _))|]. intros _.
  apply quiet_bind; [apply quiet_saveProducts|]. intros _. apply quiet_ret.
Qed.

Lemma quiet_deleteProduct id : quiet (deleteProduct id).
Proof.
  unfold deleteProduct.
  apply quiet_bind; [apply quiet_setProducts|]. intros _.
  apply quiet_saveProducts.
Qed.

Lemma setCart_keepsOrders (updater : loc -> M loc) (s : Session.t) :
  (forall cart, quiet (updater cart)) ->
  keepsOrders (world s) (world (setCart updater s)).
Proof.
  intros Hq. unfold setCart. specialize (Hq (cart s) (world s)).
  destruct (updater (cart s) (world s)) as [w' [c|e]]; exact Hq.
Qed.

Lemma step_keepsOrders (s : Session.t) (a : action) :
  keepsOrders (world s) (world (step s a)).
Proof.
  destruct a; simpl.
  - apply setCart_keepsOrders. intros c. apply quiet_handleAddToCart.
  - apply setCart_keepsOrders. intros c. apply quiet_handleUpdateCartQuantity.
  - apply setCart_keepsOrders. intros c. apply quiet_handleRemoveFromCart.
  - apply quiet_addProduct.
  - apply quiet_updateProduct.
  - apply quiet_deleteProduct.
Qed.

(** No sequence of cart and catalog actions touches an existing object or
    the order history. *)
Lemma run_keepsOrders (actions : list action) :
  forall s : Session.t, keepsOrders (world s) (world (run s actions)).
Proof.
  induction actions as [|a actions IH]; intros s; simpl.
  - apply keepsOrders_refl.
  - eapply keepsOrders_trans; [apply step_keepsOrders|apply IH].
Qed.

End QuietFacts.

Section OrderFacts.

Import Backend Session.

Implicit Types (s : Session.t) (w : World).

Lemma saveOrders_unfold w :
  saveOrders w
  = setItem KEYS_ORDERS
      (JOrders (stringifyOrders (heap w) (orders (service w)))) w.
Proof. reflexivity. Qed.

(** What the new order's text is, right after the object is allocated. *)
Lemma stringify_new_order w cart (order : Order.t loc) lines :
  Order.items order = cart ->
  resolveItems (heap w) cart = Some lines ->
  wellFormed w ->
  let o := fresh (dom (heap w)) in
  stringifyOrders (<[o := OOrder order]> (heap w)) (o :: orders (service w))
  = Order.withItems order lines :: stringifyOrders (heap w) (orders (service w)).
Proof.
  intros Hitems Hlines Hwf o.
  assert (Hfresh : heap w !! o = None) by apply (alloc_spec (OOrder order) w).
  assert (Hsub : heap w ⊆ <[o := OOrder order]> (heap w))
    by (apply insert_subseteq; exact Hfresh).
  unfold stringifyOrders. simpl.
  unfold resolveOrder at 1. unfold readOrder. rewrite lookup_insert_eq. simpl.
  rewrite Hitems, (resolveItems_mono _ _ _ _ Hsub Hlines). simpl.
  f_equal. apply (stringifyOrders_mono _ _ _ Hsub). exact Hwf.
Qed.

(** The two ways [submit] can end. In both the order object has been
    allocated and put in front of the in-memory history. *)
Lemma submit_cases s lines sd now language :
  resolveItems (heap (world s)) (cart s) = Some lines ->
  wellFormed (world s) ->
  let w := world s in
  let order := newOrder (wizard s) (cart s) lines sd now language in
  let o := fresh (dom (heap w)) in
  let h' := <[o := OOrder order]> (heap w) in
  let svc' := mkService (products (service w)) (o :: orders (service w))
                (subscribers (service w)) in
  let contents :=
    <[KEYS_ORDERS :=
        JOrders (Order.withItems order lines
                 :: stringifyOrders (heap w) (orders (service w)))]>
      (entries (localStorage w)) in
  (fits (localStorage w) contents = true /\
   submit s lines sd now language
   = (mkWorld h' svc' (mkStorage contents (fits (localStorage w))), Returned tt))
  \/
  (fits (localStorage w) contents = false /\
   submit s lines sd now language
   = (mkWorld h' svc' (localStorage w), Thrown QuotaExceededError)).
Proof.
  intros Hlines Hwf w order o h' svc' contents.
  pose proof (stringify_new_order w (cart s) order lines eq_refl Hlines Hwf)
    as Htext.
  assert (E : submit s lines sd now language
              = match
                  setItem KEYS_ORDERS
                    (JOrders (stringifyOrders h' (o :: orders (service w))))
                    (mkWorld h' svc' (localStorage w))
                with
                | (w3, Returned _) => (w3, Returned tt)
                | (w3, Thrown e) => (w3, Thrown e)
                end).
  { unfold submit, saveOrder, createOrder, bind, modify, App.alloc.
    rewrite saveOrders_unfold. unfold setItem. simpl.
    destruct (fits _ _); reflexivity. }
  rewrite E. subst h' o. rewrite Htext.
  destruct (setItem_cases KEYS_ORDERS
              (JOrders (Order.withItems order lines
                        :: stringifyOrders (heap w) (orders (service w))))
              (mkWorld (<[fresh (dom (heap w)) := OOrder order]> (heap w)) svc'
                 (localStorage w))) as [[Hfit ->]|[Hfit ->]];
    [left|right]; split; try exact Hfit; reflexivity.
Qed.

End OrderFacts.

Section CheckoutFacts.

Import Backend Session.

Implicit Types (s : Session.t) (w : World).

(** A live order of a well-formed history is not the location that the next
    allocation returns. *)
Lemma fresh_not_in_history w :
  wellFormed w -> ~ In (fresh (dom (heap w))) (orders (service w)).
Proof.
  intros Hwf Hin. destruct (Hwf _ Hin) as [v Hv].
  unfold resolveOrder, readOrder in Hv.
  assert (Hnone : heap w !! fresh (dom (heap w)) = None)
    by (apply not_elem_of_dom, is_fresh).
  rewrite Hnone in Hv. discriminate Hv.
Qed.

Lemma resolveOrder_lookup (h : gmap loc object) o v :
  resolveOrder h o = Some v -> is_Some (h !! o).
Proof.
  unfold resolveOrder, readOrder. destruct (h !! o); [eauto|discriminate].
Qed.

(** C1, as the code has it. Let an order be built at checkout from a cart
    whose lines are [lines], in a world whose order history is well formed,
    and let [createOrder] complete. Then the history returned by
    [getOrders] is the new order followed by the pre-existing ones and the
    new order occurs in it exactly once. The stored order object is not a
    copy of the cart: its [items] field is the reference of the cart array
    of the checkout. After any further sequence of cart actions (add,
    update quantity, remove) and catalog actions (add, update, delete
    product), which only allocate new arrays and objects, [getOrders] still
    returns that history, the new order still reads as the lines and totals
    of the cart at checkout, every pre-existing order is the same object and
    reads as before, and the persisted order record is the text, with the
    lines by value, written at creation. *)
Theorem createOrder_appends_shared_order :
  forall s sd lines now language,
    Wizard.shippingData (wizard s) = Some sd ->
    resolveItems (heap (world s)) (cart s) = Some lines ->
    wellFormed (world s) ->
    snd (submit s lines sd now language) = Returned tt ->
    let old := orders (service (world s)) in
    let order := newOrder (wizard s) (cart s) lines sd now language in
    let s' := completeOrder now language s in
    exists o : loc,
      snd (getOrders (world s')) = Returned (o :: old) /\
      count_occ Pos.eq_dec (o :: old) o = 1%nat /\
      readOrder (heap (world s')) o = Some order /\
      Order.items order = cart s /\
      forall actions : list action,
        let s'' := run s' actions in
        snd (getOrders (world s'')) = Returned (o :: old) /\
        resolveOrder (heap (world s'')) o = Some (Order.withItems order lines) /\
        (forall o' v,
            In o' old ->
            resolveOrder (heap (world s)) o' = Some v ->
            heap (world s'') !! o' = heap (world s) !! o' /\
            resolveOrder (heap (world s'')) o' = Some v) /\
        entries (localStorage (world s'')) !! KEYS_ORDERS
        = Some (JOrders (Order.withItems order lines
                         :: stringifyOrders (heap (world s)) old)).
Proof.
  intros s sd lines now language Hsd Hlines Hwf Hok old order s'.
  set (w := world s) in *.
  set (o := fresh (dom (heap w))).
  assert (Hfresh : heap w !! o = None) by (apply not_elem_of_dom, is_fresh).
  destruct (submit_cases s lines sd now language Hlines Hwf)
    as [[_ E]|[_ E]]; [|rewrite E in Hok; discriminate Hok].
  fold w o order in E.
  set (h1 := <[o := OOrder order]> (heap w)) in *.
  set (l := fresh (dom h1)).
  assert (Hl : h1 !! l = None) by (apply not_elem_of_dom, is_fresh).
  set (h2 := <[l := OArray []]> h1).
  assert (Hs' : world s' = mkWorld h2
                  (mkService (products (service w)) (o :: old)
                     (subscribers (service w)))
                  (mkStorage
                     (<[KEYS_ORDERS :=
                          JOrders (Order.withItems order lines
                                   :: stringifyOrders (heap w) old)]>
                        (entries (localStorage w)))
                     (fits (localStorage w)))).
  { subst s'. unfold completeOrder. rewrite Hsd. fold w. rewrite Hlines, E.
    reflexivity. }
  assert (H01 : heap w ⊆ h1) by (apply insert_subseteq; exact Hfresh).
  assert (H12 : h1 ⊆ h2) by (apply insert_subseteq; exact Hl).
  assert (Hnew1 : resolveOrder h1 o = Some (Order.withItems order lines)).
  { unfold resolveOrder, readOrder. subst h1. rewrite lookup_insert_eq. simpl.
    rewrite (resolveItems_mono _ _ _ _ H01 Hlines). reflexivity. }
  exists o. split; [|split; [|split; [|split]]].
  - rewrite Hs'. reflexivity.
  - simpl. destruct (Pos.eq_dec o o) as [_|Hne]; [|congruence].
    f_equal. apply count_occ_not_In. apply fresh_not_in_history. exact Hwf.
  - rewrite Hs'. simpl. apply (readOrder_mono h1); [exact H12|].
    unfold readOrder. subst h1. rewrite lookup_insert_eq. reflexivity.
  - reflexivity.
  - intros actions s''.
    destruct (run_keepsOrders actions s') as [Hheap [Horders Hrec]].
    fold s'' in Hheap, Horders, Hrec. rewrite Hs' in Hheap, Horders, Hrec.
    simpl in Hheap, Horders, Hrec.
    assert (H0 : heap w ⊆ heap (world s'')) by (etrans; [|exact Hheap]; etrans; eassumption).
    split; [|split; [|split]].
    + unfold getOrders, gets. simpl. rewrite Horders. reflexivity.
    + apply (resolveOrder_mono h1); [etrans; eassumption|exact Hnew1].
    + intros o' v Hin Hv. split.
      * destruct (resolveOrder_lookup _ _ _ Hv) as [x Hx].
        fold w in Hx. rewrite Hx. apply (lookup_weaken _ _ _ _ Hx H0).
      * apply (resolveOrder_mono (heap w)); [exact H0|exact Hv].
    + rewrite Hrec. apply lookup_insert_eq.
Qed.

End CheckoutFacts.

Section FailedCheckoutFacts.

Import Backend Session.

Implicit Types (s : Session.t) (w : World).

(** When [submit] throws, the store is as before, but the order object has
    been allocated and is in front of the in-memory history. *)
Lemma submit_thrown s lines sd now language e :
  snd (submit s lines sd now language) = Thrown e ->
  let w := world s in
  let o := fresh (dom (heap w)) in
  fst (submit s lines sd now language)
  = mkWorld
      (<[o := OOrder (newOrder (wizard s) (cart s) lines sd now language)]> (heap w))
      (mkService (products (service w)) (o :: orders (service w))
         (subscribers (service w)))
      (localStorage w).
Proof.
  intros Hthrown w o.
  unfold submit, saveOrder, createOrder, bind, modify, App.alloc in *.
  rewrite saveOrders_unfold in *. unfold setItem in *. simpl in *.
  destruct (fits _ _); [discriminate Hthrown|reflexivity].
Qed.

(** C6, as the code has it. If [createOrder] fails because the store
    refuses the write, then after [completeOrder] the wizard is in the step
    it was in (Payment) and has not advanced to Confirmation, the entered
    shipping data, the payment method, the card provider, the order
    reference and the cart are intact, processing has stopped and one alert
    has been raised, so the submission can be retried; the persisted records
    are all unchanged, and so are the in-memory catalog and subscriber list.
    The in-memory order history is not rolled back: it holds the new order
    object in front of the pre-existing orders. *)
Theorem failed_createOrder_not_rolled_back :
  forall s sd lines now language e,
    Wizard.shippingData (wizard s) = Some sd ->
    resolveItems (heap (world s)) (cart s) = Some lines ->
    snd (submit s lines sd now language) = Thrown e ->
    let s' := completeOrder now language s in
    let o := fresh (dom (heap (world s))) in
    Wizard.step (wizard s') = Wizard.step (wizard s) /\
    Wizard.shippingData (wizard s') = Some sd /\
    Wizard.paymentMethod (wizard s') = Wizard.paymentMethod (wizard s) /\
    Wizard.cardProvider (wizard s') = Wizard.cardProvider (wizard s) /\
    Wizard.orderRef (wizard s') = Wizard.orderRef (wizard s) /\
    Wizard.isProcessing (wizard s') = false /\
    Wizard.alerts (wizard s')
    = Wizard.alerts (wizard s)
      ++ [js "Payment Gateway Error: Unable to process. Please try again."] /\
    cart s' = cart s /\
    localStorage (world s') = localStorage (world s) /\
    products (service (world s')) = products (service (world s)) /\
    subscribers (service (world s')) = subscribers (service (world s)) /\
    snd (getOrders (world s')) = Returned (o :: orders (service (world s))) /\
    readOrder (heap (world s')) o
    = Some (newOrder (wizard s) (cart s) lines sd now language) /\
    heap (world s) ⊆ heap (world s').
Proof.
  intros s sd lines now language e Hsd Hlines Hthrown s' o.
  pose proof (submit_thrown s lines sd now language e Hthrown) as Hw.
  simpl in Hw. fold o in Hw.
  assert (Hs' : s' = Session.mk (fst (submit s lines sd now language)) (cart s)
                  (Wizard.alert
                     (js "Payment Gateway Error: Unable to process. Please try again.")
                     (Wizard.stopProcessing (wizard s)))).
  { subst s'. unfold completeOrder. rewrite Hsd, Hlines.
    destruct (submit s lines sd now language) as [w1 [[]|e1]];
      [discriminate Hthrown|reflexivity]. }
  rewrite Hs'. simpl. rewrite Hw. simpl. rewrite Hsd.
  repeat split; try reflexivity.
  - unfold readOrder. rewrite lookup_insert_eq. reflexivity.
  - apply insert_subseteq. apply not_elem_of_dom, is_fresh.
Qed.

(** A checkout over a store that refuses every write. *)
Lemma failed_createOrder_not_rolled_back_witness :
  Wizard.step (wizard (completeOrder SessionSample.today (js "en")
                         SessionSample.readyStoreFull))
  = Wizard.payment.
Proof.
  apply (failed_createOrder_not_rolled_back SessionSample.readyStoreFull
           SessionSample.address [CartItem.mk Sample.basket 1%float]
           SessionSample.today (js "en") QuotaExceededError).
  - reflexivity.
  - vm_compute. reflexivity.
  - vm_compute. reflexivity.
Defined.

(** C6 as worded fails: over a store that refuses every write [createOrder]
    fails, and yet the in-memory order history is no longer what it was
    before the call. *)
Lemma failed_createOrder_changes_history :
  snd (submit SessionSample.readyStoreFull [CartItem.mk Sample.basket 1%float]
         SessionSample.address SessionSample.today (js "en"))
  = Thrown QuotaExceededError /\
  snd (getOrders (world (completeOrder SessionSample.today (js "en")
                           SessionSample.readyStoreFull)))
  <> snd (getOrders (world SessionSample.readyStoreFull)).
Proof.
  split.
  - vm_compute. reflexivity.
  - vm_compute. intros H. discriminate H.
Qed.

End FailedCheckoutFacts.

Section TranslationFacts.

Import AutoTranslatedText TranslationSpec.

Implicit Types (ctx : LanguageContext) (value key : jsstring) (c : t)
  (st : Storage) (r : Gemini.remote).

(** A run of the effect that ends in a request has found no cache entry,
    works on a non-empty text, and only raises the loading flag. *)
Lemma effect_requested ctx value (tk : option jsstring) c st c1 key :
  effect ctx value tk c st = (c1, Requested key) ->
  truthy_str value = true /\
  key = cacheKey (language ctx) value /\
  c1 = mk (translatedContent c) true (mounted c).
Proof.
  unfold effect.
  destruct (truthy_str value); cbn [negb]; [|discriminate].
  destruct (str_eqb (language ctx) (js "en")); [discriminate|].
  destruct (truthy (if truthy tk then _ else None)); [discriminate|].
  destruct (truthy (findBestTranslation ctx value)); [discriminate|].
  destruct (truthy (entries st !! cacheKey (language ctx) value)); [discriminate|].
  intros H. injection H as <- <-. repeat split.
Qed.

(** Whether the effect asks for a remote call does not depend on what the
    instance shows, nor on its flags. *)
Lemma effect_result_display ctx value (tk : option jsstring) c c' st :
  snd (effect ctx value tk c st) = snd (effect ctx value tk c' st).
Proof.
  unfold effect.
  destruct (truthy_str value); cbn [negb]; [|reflexivity].
  destruct (str_eqb (language ctx) (js "en")); [reflexivity|].
  destruct (truthy (if truthy tk then _ else None)); [reflexivity|].
  destruct (truthy (findBestTranslation ctx value)); [reflexivity|].
  destruct (truthy (entries st !! cacheKey (language ctx) value)); reflexivity.
Qed.

(** What [translateText] resolves to on a non-result, for a text that
    [trim] leaves as it is. *)
Lemma translateText_non_result value lang r :
  trim value = value ->
  nonResult value r ->
  Gemini.translateText value lang r = None \/
  Gemini.translateText value lang r = Some value.
Proof.
  intros Htrim Hr. unfold Gemini.translateText.
  destruct (truthy_str value) eqn:Hv; simpl; [|left; reflexivity].
  destruct Hr as [-> | [-> | [-> | [-> | ->]]]]; try (left; reflexivity).
  simpl. rewrite Htrim, Hv. right. reflexivity.
Qed.

(** The post-call policy on the texts that carry no white space at either
    end: after a non-result the source text is shown, the store is exactly
    as before, and the next run of the effect asks for a remote call
    again. *)
Lemma non_result_not_cached ctx value (tk : option jsstring) c st c1 key r :
  trim value = value ->
  mounted c = true ->
  effect ctx value tk c st = (c1, Requested key) ->
  nonResult value r ->
  request ctx value tk false r c st = (settle value c1, st, true) /\
  snd (effect ctx value tk (settle value c1) st) = Requested key.
Proof.
  intros Htrim Hm Heff Hr.
  destruct (effect_requested _ _ _ _ _ _ _ Heff) as [Hv [Hkey Hc1]].
  split.
  - unfold request. rewrite Heff. unfold onResult.
    assert (Hm1 : mounted c1 = true) by (rewrite Hc1; exact Hm).
    rewrite Hm1. simpl.
    destruct (translateText_non_result value (language ctx) r Htrim Hr) as [-> | ->].
    + reflexivity.
    + simpl. rewrite Hv, str_eqb_refl. reflexivity.
  - rewrite (effect_result_display ctx value tk (settle value c1) c st), Heff.
    reflexivity.
Qed.

(** C4 at an input where the code departs from it. The text
    "Mesob Basket " ends with a blank; the remote call returns this very
    text. The pipeline then shows "Mesob Basket", writes it to the cache
    under the key of the padded text, and the next request for the same
    language and text is served from the cache without a remote call. *)
Theorem identical_reply_cached_when_padded :
  let value := TranslationSample.padded in
  let ctx := TranslationSample.french in
  let r := Gemini.Responded (Some value) in
  let '(c', st', called) :=
    request ctx value None false r TranslationSample.initialPadded
      TranslationSample.emptyStorage in
  nonResult value r /\
  called = true /\
  translatedContent c' = js "Mesob Basket" /\
  entries st' !! cacheKey (js "fr") value = Some (js "Mesob Basket") /\
  forall r', snd (request ctx value None false r' c' st') = false.
Proof.
  vm_compute. split; [do 4 right; reflexivity|].
  split; [reflexivity|]. split; [reflexivity|]. split; [reflexivity|].
  intros r'. reflexivity.
Qed.

End TranslationFacts.

Section CancellationFacts.

Import AutoTranslatedText TranslationSpec.

Implicit Types (ctx : LanguageContext) (value key : jsstring) (c : t)
  (st : Storage) (r : Gemini.remote).

Lemma onResult_unmounted value key (result : option jsstring) c st :
  mounted c = false -> onResult value key result c st = (c, st).
Proof. intros H. unfold onResult. rewrite H. reflexivity. Qed.

(** The store changes only through a reply that, once trimmed, is not empty
    and differs from the source text, and only while the instance is
    mounted. *)
Lemma cache_written_only_for_distinct_reply value key lang r c st :
  snd (onResult value key (Gemini.translateText value lang r) c st) <> st ->
  mounted c = true /\
  exists reply,
    r = Gemini.Responded (Some reply) /\
    trim reply <> [] /\ trim reply <> value /\
    snd (onResult value key (Gemini.translateText value lang r) c st)
    = mkStorage (<[key := trim reply]> (entries st)) (fits st).
Proof.
  unfold onResult. destruct (mounted c); cbn [negb]; [|intros H; elim H; reflexivity].
  intros H. split; [reflexivity|].
  destruct (Gemini.translateText value lang r) as [result|] eqn:Et;
    [|elim H; reflexivity].
  unfold Gemini.translateText in Et.
  destruct (truthy_str value); cbn [negb] in Et; [|discriminate Et].
  destruct r as [| |[reply|]]; try discriminate Et.
  simpl in Et. destruct (truthy_str (trim reply)) eqn:Hne; [|discriminate Et].
  injection Et as <-. simpl in H |- *. rewrite Hne in H |- *. simpl in H |- *.
  destruct (str_eqb (trim reply) value) eqn:Heq; simpl in H |- *;
    [elim H; reflexivity|].
  exists reply. split; [reflexivity|]. split.
  { intros E. rewrite E in Hne. discriminate Hne. }
  split; [apply str_eqb_false; exact Heq|].
  unfold setItem in *. destruct (fits st _); [reflexivity|elim H; reflexivity].
Qed.

(** C5, as the code has it. If the consumer unmounts while its remote call
    is outstanding, the result of the call is discarded whatever it is: the
    instance keeps what it showed while the call was outstanding, and the
    store is exactly as before, so no cache entry is written even when the
    call returns a distinct non-empty string. *)
Theorem unmounted_result_discarded :
  forall ctx value (tk : option jsstring) c st c1 key r,
    effect ctx value tk c st = (c1, Requested key) ->
    request ctx value tk true r c st = (unmount c1, st, true).
Proof.
  intros ctx value tk c st c1 key r Heff.
  unfold request. rewrite Heff.
  rewrite onResult_unmounted by reflexivity. reflexivity.
Qed.

(** A French rendering of "Mesob Basket" arrives after the unmount. *)
Lemma unmounted_result_discarded_witness :
  snd (fst (request TranslationSample.french (js "Mesob Basket") None true
              (Gemini.Responded (Some (js "Panier Mesob")))
              TranslationSample.initial TranslationSample.emptyStorage))
  = TranslationSample.emptyStorage.
Proof.
  rewrite (unmounted_result_discarded TranslationSample.french
             (js "Mesob Basket") None TranslationSample.initial
             TranslationSample.emptyStorage
             (mk (js "Mesob Basket") true true)
             (cacheKey (js "fr") (js "Mesob Basket"))).
  - reflexivity.
  - vm_compute. reflexivity.
Defined.

(** C5 as worded fails: the remote call succeeds with the distinct
    non-empty string "Panier Mesob" after the consumer has unmounted, and
    the cache holds no entry for the text afterwards; had the consumer
    stayed mounted, the entry would be there. *)
Lemma unmounted_success_writes_no_cache_entry :
  let value := js "Mesob Basket" in
  let r := Gemini.Responded (Some (js "Panier Mesob")) in
  let key := cacheKey (js "fr") value in
  entries (snd (fst (request TranslationSample.french value None true r
                       TranslationSample.initial TranslationSample.emptyStorage)))
    !! key = None /\
  entries (snd (fst (request TranslationSample.french value None false r
                       TranslationSample.initial TranslationSample.emptyStorage)))
    !! key = Some (js "Panier Mesob").
Proof. split; vm_compute; reflexivity. Qed.

End CancellationFacts.

Section Examples.

Import Backend Session.

(** A card number typed with hyphens. *)
Lemma card_check_guarded_luhn_witness :
  Checkout.isValidCreditCard (js "4539-1488-0343-6467") = true.
Proof.
  apply (proj1 card_check_guarded_luhn). split.
  - apply List.forallb_forall. vm_compute. reflexivity.
  - vm_compute. reflexivity.
Defined.

(** A checkout of one scarf by a customer whose earlier order is in the
    history. *)
Lemma createOrder_appends_shared_order_witness :
  exists o : loc,
    snd (getOrders (world (completeOrder SessionSample.tomorrow (js "en")
                             SessionSample.returning)))
    = Returned (o :: orders (service (world SessionSample.returning))) /\
    count_occ Pos.eq_dec
      (o :: orders (service (world SessionSample.returning))) o = 1%nat.
Proof.
  destruct (createOrder_appends_shared_order SessionSample.returning
              SessionSample.address [CartItem.mk Sample.scarf 1%float]
              SessionSample.tomorrow (js "en")) as [o [H1 [H2 _]]].
  - vm_compute. reflexivity.
  - vm_compute. reflexivity.
  - intros o Hin. vm_compute in Hin. destruct Hin as [<-|[]].
    vm_compute. eexists. reflexivity.
  - vm_compute. reflexivity.
  - exists o. split; [exact H1|exact H2].
Defined.

(** C1 as worded fails: the order stored by a checkout of one basket is not
    a by-value snapshot. Its [items] field is the source cart array itself
    (location 2), so the assignment [cart[0].quantity = 7] on the source
    cart, made after the order was created, is seen through the stored
    order, whose line then reads quantity 7 instead of 1. *)
Lemma stored_order_shares_source_cart :
  let s' := completeOrder SessionSample.today (js "en") SessionSample.ready in
  let o := 3%positive in
  let h := heap (world s') in
  let h' := store 1%positive (OItem (CartItem.mk Sample.basket 7%float)) h in
  snd (getOrders (world s')) = Returned [o] /\
  Order.items <$> readOrder h o = Some (cart SessionSample.ready) /\
  Order.items <$> resolveOrder h o = Some [CartItem.mk Sample.basket 1%float] /\
  Order.items <$> resolveOrder h' o = Some [CartItem.mk Sample.basket 7%float] /\
  resolveOrder h' o <> resolveOrder h o.
Proof.
  repeat split; try (vm_compute; reflexivity).
  intros H.
  set (cheap := fun r : option (Order.t (list CartItem.t)) =>
                  match Order.items <$> r with
                  | Some [line] => (CartItem.quantity line <? 2)%float
                  | _ => false
                  end).
  apply (f_equal cheap) in H. vm_compute in H. discriminate H.
Qed.

End Examples.

Section HandlerRefinement.

Import Backend Session.

Implicit Types (w : World) (h : gmap loc object) (l cart : loc)
  (ls : list loc) (lines : list CartItem.t).

(** [ls] are live line objects that read as [lines]. *)
#[local] Abbreviation reads h ls lines :=
  (Forall2 (fun l c => readItem h l = Some c) ls lines).

Lemma reads_mono h h' ls lines :
  h ⊆ h' -> reads h ls lines -> reads h' ls lines.
Proof.
  intros Hsub HF. eapply Forall2_impl; [exact HF|].
  intros l c. simpl. apply readItem_mono. exact Hsub.
Qed.

Lemma resolveItems_reads h cart lines :
  resolveItems h cart = Some lines <->
  exists ls, readArray h cart = Some ls /\ reads h ls lines.
Proof.
  unfold resolveItems. split.
  - intros H. destruct (readArray h cart) as [ls|]; [|discriminate].
    simpl in H. exists ls. split; [reflexivity|]. apply mapM_Some. exact H.
  - intros [ls [-> HF]]. simpl. apply mapM_Some. exact HF.
Qed.

(** A new array over live lines reads as those lines. *)
Lemma alloc_array w ls lines :
  reads (heap w) ls lines ->
  exists w' cart',
    App.alloc (OArray ls) w = (w', Returned cart') /\
    heap w ⊆ heap w' /\ resolveItems (heap w') cart' = Some lines.
Proof.
  intros HF. destruct (alloc_spec (OArray ls) w) as [E Hfresh].
  eexists _, _. split; [exact E|]. simpl.
  assert (Hsub : heap w ⊆ <[fresh (dom (heap w)) := OArray ls]> (heap w))
    by (apply insert_subseteq; exact Hfresh).
  split; [exact Hsub|].
  apply resolveItems_reads. exists ls. split.
  - unfold readArray. rewrite lookup_insert_eq. reflexivity.
  - apply (reads_mono _ _ _ _ Hsub HF).
Qed.

(** [find] through references finds a line exactly when [find] on the lines
    does, and changes nothing. *)
Lemma findA_hasId id w ls lines :
  reads (heap w) ls lines ->
  exists found,
    App.findA (App.hasId id) ls w = (w, Returned found) /\
    (is_Some found <->
     is_Some (List.find (fun item => str_eqb (CartItem.id item) id) lines)).
Proof.
  induction 1 as [|l c ls lines Hl HF IH]; cbn [App.findA List.find].
  - exists None. split; [reflexivity|].
    split; intros [x Hx]; discriminate Hx.
  - rewrite (bind_returned _ _ _ _ _ (hasId_reads id _ _ _ Hl)).
    destruct (str_eqb (CartItem.id c) id).
    + exists (Some l). split; [reflexivity|].
      split; intros _; eexists; reflexivity.
    + exact IH.
Qed.

(** [map] with a callback that copies the lines it changes. *)
Lemma mapA_copying (test : CartItem.t -> bool) (change : CartItem.t -> CartItem.t)
  ls :
  forall lines w,
    reads (heap w) ls lines ->
    exists w' ls',
      App.mapA (fun l =>
                  bind (App.derefItem l) (fun item =>
                    if test item then App.alloc (OItem (change item))
                    else ret l)) ls w
      = (w', Returned ls') /\
      heap w ⊆ heap w' /\
      reads (heap w') ls'
        (List.map (fun item => if test item then change item else item) lines).
Proof.
  induction ls as [|l ls IH]; intros lines w HF.
  - apply Forall2_nil_inv_l in HF as ->.
    exists w, []. split; [reflexivity|]. split; [reflexivity|constructor].
  - apply Forall2_cons_inv_l in HF as (c & lines' & Hl & HF & ->).
    cbn [App.mapA List.map].
    destruct (test c) eqn:Et.
    + destruct (alloc_spec (OItem (change c)) w) as [E Hfresh].
      set (l1 := fresh (dom (heap w))) in *.
      set (w1 := mkWorld (<[l1 := OItem (change c)]> (heap w)) (service w)
                   (localStorage w)) in *.
      assert (Hsub : heap w ⊆ heap w1) by (apply insert_subseteq; exact Hfresh).
      destruct (IH lines' w1 (reads_mono _ _ _ _ Hsub HF))
        as (w' & ls' & E' & Hsub' & HF').
      exists w', (l1 :: ls'). split; [|split].
      * erewrite bind_returned;
          [|erewrite bind_returned by (apply derefItem_reads; exact Hl);
            rewrite Et; exact E].
        erewrite bind_returned by exact E'. reflexivity.
      * etrans; eassumption.
      * constructor; [|exact HF'].
        apply (readItem_mono (heap w1)); [exact Hsub'|].
        unfold readItem. simpl. rewrite lookup_insert_eq. reflexivity.
    + destruct (IH lines' w HF) as (w' & ls' & E' & Hsub' & HF').
      exists w', (l :: ls'). split; [|split].
      * erewrite bind_returned;
          [|erewrite bind_returned by (apply derefItem_reads; exact Hl);
            rewrite Et; reflexivity].
        erewrite bind_returned by exact E'. reflexivity.
      * exact Hsub'.
      * constructor; [|exact HF'].
        apply (readItem_mono (heap w)); assumption.
Qed.

(** [filter] through references keeps the references of the lines that
    [filter] on the lines keeps. *)
Lemma filterA_keeping id w ls lines :
  reads (heap w) ls lines ->
  exists ls',
    App.filterA (fun l => bind (App.hasId id l) (fun b => ret (negb b))) ls w
    = (w, Returned ls') /\
    reads (heap w) ls'
      (List.filter (fun item => negb (str_eqb (CartItem.id item) id)) lines).
Proof.
  intros HF. induction HF as [|l c ls lines Hl HF IH].
  - exists []. split; [reflexivity|constructor].
  - destruct IH as (ls' & E' & HF').
    cbn [App.filterA List.filter].
    erewrite bind_returned;
      [|erewrite bind_returned by (apply hasId_reads; exact Hl); reflexivity].
    erewrite bind_returned by exact E'.
    destruct (str_eqb (CartItem.id c) id); cbn [negb].
    + exists ls'. split; [reflexivity|exact HF'].
    + exists (l :: ls'). split; [reflexivity|]. constructor; assumption.
Qed.

(** The handlers on references compute what the updaters on lines
    compute, and only allocate. *)
Lemma handleAddToCart_refines product w cart lines :
  resolveItems (heap w) cart = Some lines ->
  exists w' cart',
    App.handleAddToCart product cart w = (w', Returned cart') /\
    heap w ⊆ heap w' /\
    resolveItems (heap w') cart' = Some (Cart.handleAddToCart product lines).
Proof.
  intros Hres. apply resolveItems_reads in Hres as (ls & Harr & HF).
  unfold App.handleAddToCart, Cart.handleAddToCart.
  rewrite (bind_returned _ _ _ _ _ (derefArray_reads _ _ _ Harr)).
  destruct (findA_hasId (Product.id product) w ls lines HF) as (found & Ef & Hfound).
  rewrite (bind_returned _ _ _ _ _ Ef).
  destruct found as [l0|].
  - destruct (proj1 Hfound (ex_intro _ l0 eq_refl)) as [c0 ->].
    destruct (mapA_copying
                (fun item => str_eqb (CartItem.id item) (Product.id product))
                (fun item => CartItem.mk (CartItem.product item)
                               (CartItem.quantity item + 1)%float)
                ls lines w HF) as (w1 & ls1 & E1 & Hsub1 & HF1).
    rewrite (bind_returned _ _ _ _ _ E1).
    destruct (alloc_array w1 ls1 _ HF1) as (w2 & cart' & E2 & Hsub2 & Hres2).
    exists w2, cart'. split; [exact E2|]. split; [etrans; eassumption|exact Hres2].
  - destruct (List.find _ lines) as [c0|] eqn:Efind.
    { destruct (proj2 Hfound (ex_intro _ c0 eq_refl)) as [x Hx]. discriminate Hx. }
    destruct (alloc_spec (OItem (CartItem.mk product 1%float)) w) as [E1 Hfresh].
    rewrite (bind_returned _ _ _ _ _ E1).
    set (l1 := fresh (dom (heap w))) in *.
    set (w1 := mkWorld _ (service w) (localStorage w)) in *.
    assert (Hsub1 : heap w ⊆ heap w1) by (apply insert_subseteq; exact Hfresh).
    assert (HF1 : reads (heap w1) (ls ++ [l1]) (lines ++ [CartItem.mk product 1%float])).
    { apply Forall2_app; [apply (reads_mono _ _ _ _ Hsub1 HF)|].
      constructor; [|constructor].
      unfold readItem. simpl. rewrite lookup_insert_eq. reflexivity. }
    destruct (alloc_array w1 _ _ HF1) as (w2 & cart' & E2 & Hsub2 & Hres2).
    exists w2, cart'. split; [exact E2|]. split; [etrans; eassumption|exact Hres2].
Qed.

Lemma handleUpdateCartQuantity_refines id delta w cart lines :
  resolveItems (heap w) cart = Some lines ->
  exists w' cart',
    App.handleUpdateCartQuantity id delta cart w = (w', Returned cart') /\
    heap w ⊆ heap w' /\
    resolveItems (heap w') cart'
    = Some (Cart.handleUpdateCartQuantity id delta lines).
Proof.
  intros Hres. apply resolveItems_reads in Hres as (ls & Harr & HF).
  unfold App.handleUpdateCartQuantity, Cart.handleUpdateCartQuantity.
  rewrite (bind_returned _ _ _ _ _ (derefArray_reads _ _ _ Harr)).
  destruct (mapA_copying
              (fun item => str_eqb (CartItem.id item) id)
              (fun item => CartItem.mk (CartItem.product item)
                 (Math_max 1%float (CartItem.quantity item + delta)%float))
              ls lines w HF) as (w1 & ls1 & E1 & Hsub1 & HF1).
  rewrite (bind_returned _ _ _ _ _ E1).
  destruct (alloc_array w1 ls1 _ HF1) as (w2 & cart' & E2 & Hsub2 & Hres2).
  exists w2, cart'. split; [exact E2|]. split; [etrans; eassumption|exact Hres2].
Qed.

Lemma handleRemoveFromCart_refines id w cart lines :
  resolveItems (heap w) cart = Some lines ->
  exists w' cart',
    App.handleRemoveFromCart id cart w = (w', Returned cart') /\
    heap w ⊆ heap w' /\
    resolveItems (heap w') cart' = Some (Cart.handleRemoveFromCart id lines).
Proof.
  intros Hres. apply resolveItems_reads in Hres as (ls & Harr & HF).
  unfold App.handleRemoveFromCart, Cart.handleRemoveFromCart.
  rewrite (bind_returned _ _ _ _ _ (derefArray_reads _ _ _ Harr)).
  destruct (filterA_keeping id w ls lines HF) as (ls1 & E1 & HF1).
  rewrite (bind_returned _ _ _ _ _ E1).
  destruct (alloc_array w ls1 _ HF1) as (w2 & cart' & E2 & Hsub2 & Hres2).
  exists w2, cart'. split; [exact E2|]. split; [exact Hsub2|exact Hres2].
Qed.

(** A session whose cart reads as [lines] reads, after a sequence of cart
    operations, as the updaters applied to [lines]. *)
Lemma run_cart_refines (ops : list Cart.op) :
  forall (s : Session.t) lines,
    resolveItems (heap (world s)) (cart s) = Some lines ->
    resolveItems (heap (world (run s (List.map ofCartOp ops))))
      (cart (run s (List.map ofCartOp ops)))
    = Some (fold_left Cart.step ops lines).
Proof.
  induction ops as [|o ops IH]; intros s lines Hres; [exact Hres|].
  cbn [List.map fold_left run]. apply IH.
  destruct o as [p|id delta|id]; cbn [ofCartOp step Cart.step]; unfold setCart.
  - destruct (handleAddToCart_refines p _ _ _ Hres) as (w' & cart' & -> & _ & H).
    exact H.
  - destruct (handleUpdateCartQuantity_refines id delta _ _ _ Hres)
      as (w' & cart' & -> & _ & H).
    exact H.
  - destruct (handleRemoveFromCart_refines id _ _ _ Hres)
      as (w' & cart' & -> & _ & H).
    exact H.
Qed.

End HandlerRefinement.

(* ===================================================================== *)
(** * Part III: further properties of the same code                       *)
(* ===================================================================== *)

Section NumberFacts.

(** Comparison of binary64 numbers, through their specification. *)
Lemma SFcompare_swap (a b : spec_float) :
  SFcompare b a = option_map CompOpp (SFcompare a b).
Proof.
  destruct a as [sa|sa| |sa ma ea], b as [sb|sb| |sb mb eb]; simpl;
    try reflexivity;
    try (destruct sa; reflexivity); try (destruct sb; reflexivity);
    try (destruct sa, sb; reflexivity).
  destruct sa, sb; simpl; try reflexivity.
  - rewrite (Z.compare_antisym ea eb).
    destruct (ea ?= eb)%Z eqn:E; simpl; try reflexivity.
    rewrite (Pos.compare_cont_antisym mb ma Eq). simpl.
    destruct (Pos.compare_cont Eq ma mb); reflexivity.
  - rewrite (Z.compare_antisym ea eb).
    destruct (ea ?= eb)%Z eqn:E; simpl; try reflexivity.
    rewrite (Pos.compare_cont_antisym ma mb Eq). reflexivity.
Qed.

Lemma ltb_asym (a b : float) : (a <? b)%float = true -> (b <? a)%float = false.
Proof.
  rewrite !ltb_spec. unfold SFltb. rewrite (SFcompare_swap (Prim2SF a)).
  destruct (SFcompare (Prim2SF a) (Prim2SF b)) as [[| |]|]; simpl;
    intros H; try discriminate H; reflexivity.
Qed.

Lemma ltb_leb (a b : float) : (a <? b)%float = true -> (a <=? b)%float = true.
Proof.
  rewrite ltb_spec, leb_spec. unfold SFltb, SFleb.
  destruct (SFcompare (Prim2SF a) (Prim2SF b)) as [[| |]|];
    intros H; try discriminate H; reflexivity.
Qed.

(** [Math.max(1, x)] is never below 1: it is [x] when [1 < x], NaN when [x]
    is NaN, and 1 otherwise. *)
Lemma Math_max_one (x : float) :
  Math_max 1 x
  = (if is_nan x then nan else if (1 <? x)%float then x else 1%float) /\
  (Math_max 1 x <? 1)%float = false /\
  (is_nan x = false -> (1 <=? Math_max 1 x)%float = true).
Proof.
  assert (E : Math_max 1 x
              = if is_nan x then nan else if (1 <? x)%float then x else 1%float).
  { unfold Math_max. change (is_nan 1) with false. simpl.
    destruct (is_nan x); [reflexivity|].
    destruct (1 <? x)%float; [reflexivity|].
    change (get_sign 1) with false.
    destruct (x <? 1)%float; reflexivity. }
  split; [exact E|]. rewrite E.
  destruct (is_nan x); [split; [reflexivity|discriminate]|].
  destruct (1 <? x)%float eqn:L.
  - split; [apply ltb_asym; exact L|]. intros _. apply ltb_leb. exact L.
  - split; [reflexivity|]. intros _. reflexivity.
Qed.

End NumberFacts.

Section CartOperationFacts.

Implicit Types (cart : list CartItem.t) (product : Product.t) (id : jsstring).

Lemma remove_In id cart (line : CartItem.t) :
  In line (Cart.handleRemoveFromCart id cart)
  <-> In line cart /\ CartItem.id line <> id.
Proof.
  unfold Cart.handleRemoveFromCart. rewrite List.filter_In.
  rewrite negb_true_iff, str_eqb_false. reflexivity.
Qed.

Lemma remove_sublist id cart : sublist (Cart.handleRemoveFromCart id cart) cart.
Proof.
  unfold Cart.handleRemoveFromCart.
  induction cart as [|c cart IH]; simpl; [constructor|].
  destruct (negb (str_eqb (CartItem.id c) id)); constructor; exact IH.
Qed.

Lemma remove_absent id cart :
  ~ In id (Cart.ids cart) -> Cart.handleRemoveFromCart id cart = cart.
Proof.
  unfold Cart.handleRemoveFromCart, Cart.ids.
  induction cart as [|c cart IH]; simpl; intros Hnin; [reflexivity|].
  destruct (str_eqb (CartItem.id c) id) eqn:E.
  - apply str_eqb_true in E. elim Hnin. left. exact E.
  - simpl. rewrite IH; [reflexivity|]. intros H. apply Hnin. right. exact H.
Qed.

(** Every sublist of the cart that has no line of the id is kept whole. *)
Lemma remove_greatest id cart (l : list CartItem.t) :
  sublist l cart ->
  Forall (fun line => CartItem.id line <> id) l ->
  sublist l (Cart.handleRemoveFromCart id cart).
Proof.
  unfold Cart.handleRemoveFromCart.
  induction 1 as [|line l1 l2 Hsub IH|line l1 l2 Hsub IH]; intros Hall; simpl.
  - constructor.
  - inversion Hall as [|? ? Hne Hrest]; subst.
    apply str_eqb_false in Hne. rewrite Hne. simpl.
    constructor. apply IH. exact Hrest.
  - destruct (negb (str_eqb (CartItem.id line) id)).
    + constructor. apply IH. exact Hall.
    + apply IH. exact Hall.
Qed.

(** The lines that go are as many as the lines of the id. *)
Lemma remove_length id cart :
  length cart
  = (length (Cart.handleRemoveFromCart id cart)
     + length (List.filter (fun i => str_eqb i id) (Cart.ids cart)))%nat.
Proof.
  unfold Cart.handleRemoveFromCart, Cart.ids.
  induction cart as [|c cart IH]; simpl; [reflexivity|].
  destruct (str_eqb (CartItem.id c) id); simpl; lia.
Qed.

(** X1. [handleRemoveFromCart] removes every line of the given id and
    nothing else: afterwards no line carries the id; the lines that remain
    are exactly the lines of other ids, in the order they had; every line
    of another id is kept as often as it occurs, since the result is the
    greatest sublist of the cart without the id (it contains every sublist
    of the cart that has no line of the id) and the cart has shrunk by as
    many lines as carried the id; and removing an id that is not in the
    cart returns the cart as it is. *)
Theorem remove_from_cart_exact :
  forall id cart,
    let cart' := Cart.handleRemoveFromCart id cart in
    ~ In id (Cart.ids cart') /\
    (forall line, In line cart' <-> In line cart /\ CartItem.id line <> id) /\
    sublist cart' cart /\
    (forall l : list CartItem.t,
        sublist l cart ->
        Forall (fun line => CartItem.id line <> id) l ->
        sublist l cart') /\
    length cart
    = (length cart'
       + length (List.filter (fun i => str_eqb i id) (Cart.ids cart)))%nat /\
    (~ In id (Cart.ids cart) -> cart' = cart).
Proof.
  intros id cart cart'. split; [|split; [|split; [|split; [|split]]]].
  - unfold Cart.ids. rewrite List.in_map_iff. intros [line [Hid Hin]].
    apply remove_In in Hin as [_ Hne]. exact (Hne Hid).
  - apply remove_In.
  - apply remove_sublist.
  - intros l. apply remove_greatest.
  - apply remove_length.
  - apply remove_absent.
Qed.

(** Removing the basket from a cart without one, and from a cart of two
    scarf lines around a basket line: both scarf lines stay. *)
Lemma remove_from_cart_exact_witness :
  Cart.handleRemoveFromCart (js "p1") [CartItem.mk Sample.scarf 2%float]
  = [CartItem.mk Sample.scarf 2%float] /\
  sublist [CartItem.mk Sample.scarf 2%float; CartItem.mk Sample.scarf 2%float]
    (Cart.handleRemoveFromCart (js "p1")
       [CartItem.mk Sample.scarf 2%float; CartItem.mk Sample.basket 1%float;
        CartItem.mk Sample.scarf 2%float]).
Proof.
  split.
  - apply (remove_from_cart_exact (js "p1") [CartItem.mk Sample.scarf 2%float]).
    vm_compute. intros [H | []]. discriminate H.
  - apply (remove_from_cart_exact (js "p1")
             [CartItem.mk Sample.scarf 2%float; CartItem.mk Sample.basket 1%float;
              CartItem.mk Sample.scarf 2%float]).
    + repeat constructor.
    + repeat constructor; vm_compute; discriminate.
Defined.

(** X2. [handleUpdateCartQuantity] never adds, removes or reorders lines
    and touches only the quantity of the lines of the given id. The new
    quantity is never below 1, whatever the delta: it is at least 1 unless
    the sum of quantity and delta is not a number. *)
Theorem update_quantity_floor :
  forall id delta cart,
    let cart' := Cart.handleUpdateCartQuantity id delta cart in
    Cart.ids cart' = Cart.ids cart /\
    forall (i : nat) (line : CartItem.t),
      nth_error cart i = Some line ->
      exists line',
        nth_error cart' i = Some line' /\
        CartItem.product line' = CartItem.product line /\
        (CartItem.id line <> id -> line' = line) /\
        (CartItem.id line = id ->
         (CartItem.quantity line' <? 1)%float = false /\
         (is_nan (CartItem.quantity line + delta) = false ->
          (1 <=? CartItem.quantity line')%float = true)).
Proof.
  intros id delta cart cart'. split; [apply ids_update|].
  intros i line Hi. subst cart'. unfold Cart.handleUpdateCartQuantity.
  rewrite List.nth_error_map, Hi. simpl.
  destruct (str_eqb (CartItem.id line) id) eqn:E.
  - eexists. split; [reflexivity|]. split; [reflexivity|]. split.
    + intros Hne. apply str_eqb_true in E. contradiction.
    + intros _. simpl.
      destruct (Math_max_one (CartItem.quantity line + delta)) as [_ [H1 H2]].
      split; assumption.
  - exists line. split; [reflexivity|]. split; [reflexivity|]. split.
    + reflexivity.
    + intros Heq. apply str_eqb_false in E. contradiction.
Qed.

(** Taking one away from a single basket. *)
Lemma update_quantity_floor_witness :
  exists line',
    nth_error (Cart.handleUpdateCartQuantity (js "p1") (-1)%float Sample.oneBasket)
      0%nat = Some line' /\
    (CartItem.quantity line' <? 1)%float = false.
Proof.
  destruct (proj2 (update_quantity_floor (js "p1") (-1)%float Sample.oneBasket)
              0%nat (CartItem.mk Sample.basket 1%float) eq_refl)
    as [line' [H1 [_ [_ H2]]]].
  exists line'. split; [exact H1|]. apply H2. reflexivity.
Defined.

(** X3. Adding a product whose id is not in the cart appends one line for
    it, with quantity 1, after the lines already there; removing that id
    again gives back the cart as it was. *)
Theorem add_new_product_appends :
  forall product cart,
    ~ In (Product.id product) (Cart.ids cart) ->
    Cart.handleAddToCart product cart = cart ++ [CartItem.mk product 1%float] /\
    Cart.handleRemoveFromCart (Product.id product)
      (Cart.handleAddToCart product cart) = cart.
Proof.
  intros product cart Hnin.
  assert (E : Cart.handleAddToCart product cart
              = cart ++ [CartItem.mk product 1%float]).
  { unfold Cart.handleAddToCart. apply find_id_none in Hnin. rewrite Hnin.
    reflexivity. }
  split; [exact E|]. rewrite E.
  unfold Cart.handleRemoveFromCart. rewrite List.filter_app. simpl.
  unfold CartItem.id at 2. simpl. rewrite str_eqb_refl. simpl.
  rewrite List.app_nil_r. apply remove_absent. exact Hnin.
Qed.

(** A scarf added to a cart holding one basket. *)
Lemma add_new_product_appends_witness :
  Cart.handleAddToCart Sample.scarf Sample.oneBasket
  = Sample.oneBasket ++ [CartItem.mk Sample.scarf 1%float].
Proof.
  apply (add_new_product_appends Sample.scarf Sample.oneBasket).
  vm_compute. intros [H|[]]. discriminate H.
Defined.

End CartOperationFacts.

Section AllocationFacts.

Import Backend Operations.

Implicit Types (w : World).













End AllocationFacts.

Section BackendOperationFacts.

Import Backend Operations.

Implicit Types (w : World) (o : op).

Lemma modify_returned (f : World -> World) w : modify f w = (f w, Returned tt).
Proof. reflexivity. Qed.

Lemma gets_returned {A} (f : World -> A) w : gets f w = (w, Returned (f w)).
Proof. reflexivity. Qed.

Lemma saveSubscribers_unfold w :
  saveSubscribers w
  = setItem KEYS_SUBSCRIBERS (JStrings (subscribers (service w))) w.
Proof. reflexivity. Qed.

(** The shape shared by the mutating methods: change the in-memory data,
    save the record, return. Either the write is accepted, and the store
    holds the new text, or it is refused, and only the in-memory data has
    changed. *)
Lemma change_then_save {A} (f : World -> World) (save : M unit) key
  (text : World -> json) (result : A) w :
  (forall w0, save w0 = setItem key (text w0) w0) ->
  let w1 := f w in
  let contents := <[key := text w1]> (entries (localStorage w1)) in
  (bind (modify f) (fun _ => bind save (fun _ => ret result)) w
   = (mkWorld (heap w1) (service w1)
        (mkStorage contents (fits (localStorage w1))), Returned result)
   /\ fits (localStorage w1) contents = true)
  \/
  (bind (modify f) (fun _ => bind save (fun _ => ret result)) w
   = (w1, Thrown QuotaExceededError)
   /\ fits (localStorage w1) contents = false).
Proof.
  intros Hsave w1 contents.
  rewrite (bind_returned _ _ _ _ _ (modify_returned f w)). fold w1.
  destruct (setItem_cases key (text w1) w1) as [[Hfit E]|[Hfit E]];
    rewrite <- Hsave in E.
  - left. rewrite (bind_returned _ _ _ _ _ E). split; [reflexivity|exact Hfit].
  - right. rewrite (bind_thrown _ _ _ _ _ E). split; [reflexivity|exact Hfit].
Qed.

Lemma change_then_save_unit (f : World -> World) (save : M unit) key
  (text : World -> json) w :
  (forall w0, save w0 = setItem key (text w0) w0) ->
  let w1 := f w in
  let contents := <[key := text w1]> (entries (localStorage w1)) in
  (bind (modify f) (fun _ => save) w
   = (mkWorld (heap w1) (service w1)
        (mkStorage contents (fits (localStorage w1))), Returned tt)
   /\ fits (localStorage w1) contents = true)
  \/
  (bind (modify f) (fun _ => save) w = (w1, Thrown QuotaExceededError)
   /\ fits (localStorage w1) contents = false).
Proof.
  intros Hsave w1 contents.
  rewrite (bind_returned _ _ _ _ _ (modify_returned f w)). fold w1.
  rewrite Hsave.
  destruct (setItem_cases key (text w1) w1) as [[Hfit E]|[Hfit E]];
    [left|right]; (split; [exact E|exact Hfit]).
Qed.

Lemma findIndex_none id (ps : list Product.t) :
  findIndex id ps = None <-> ~ In id (List.map Product.id ps).
Proof.
  induction ps as [|p ps IH]; simpl.
  - split; [intros _ []|reflexivity].
  - destruct (str_eqb (Product.id p) id) eqn:E.
    + apply str_eqb_true in E. split; [discriminate|].
      intros H. elim H. left. exact E.
    + apply str_eqb_false in E.
      destruct (findIndex id ps) as [i|]; simpl.
      * split; [discriminate|]. intros H.
        assert (Hn : ~ In id (List.map Product.id ps))
          by (intros Hin; apply H; right; exact Hin).
        apply IH in Hn. discriminate Hn.
      * split; [|reflexivity]. intros _ [H|H]; [exact (E H)|].
        apply (proj1 IH eq_refl). exact H.
Qed.

(** [findIndex] returns the position of the first product of the id. *)
Lemma findIndex_some id (ps : list Product.t) (i : nat) :
  findIndex id ps = Some i ->
  exists p,
    ps !! i = Some p /\ Product.id p = id /\
    forall (j : nat) q, (j < i)%nat -> ps !! j = Some q -> Product.id q <> id.
Proof.
  revert i. induction ps as [|p ps IH]; simpl; intros i H; [discriminate H|].
  destruct (str_eqb (Product.id p) id) eqn:E.
  - injection H as <-. exists p. split; [reflexivity|].
    split; [apply str_eqb_true; exact E|]. intros j q Hj. lia.
  - destruct (findIndex id ps) as [i'|]; [|discriminate H].
    simpl in H. injection H as <-.
    destruct (IH i' eq_refl) as (p' & Hl & Hid & Hmin).
    exists p'. split; [exact Hl|]. split; [exact Hid|].
    intros [|j] q Hj Hq; simpl in Hq.
    + injection Hq as <-. apply str_eqb_false. exact E.
    + apply (Hmin j q); [lia|exact Hq].
Qed.

Lemma perform_ending o w : ending o w (perform o w).
Proof.
  destruct o as [p now rnd|id u|id|order| |email]; simpl.
  - unfold addProduct.
    set (np := withId p _).
    destruct (change_then_save
                (fun w0 => setProducts (np :: products (service w0)) w0)
                saveProducts KEYS_PRODUCTS productsText np w saveProducts_unfold)
      as [[E Hfit]|[E Hfit]].
    + rewrite (bind_returned _ _ _ _ _ E).
      apply (Saved (AddProduct p now rnd) w
               (setProducts (np :: products (service w)) w));
        try reflexivity. exact Hfit.
    + rewrite (bind_thrown _ _ _ _ _ E).
      apply (Refused (AddProduct p now rnd) w
               (setProducts (np :: products (service w)) w));
        try reflexivity. exact Hfit.
  - unfold updateProduct.
    unfold bind at 1. unfold bind at 1. rewrite gets_returned.
    destruct (findIndex id (products (service w))) as [index|] eqn:Ei.
    + destruct (findIndex_some _ _ _ Ei) as (old & Hold & _ & _).
      rewrite Hold.
      set (merged := spread old u).
      destruct (change_then_save
                  (setProducts (<[index := merged]> (products (service w))))
                  saveProducts KEYS_PRODUCTS productsText merged w
                  saveProducts_unfold) as [[E Hfit]|[E Hfit]]; rewrite E.
      * apply (Saved (UpdateProduct id u) w
                 (setProducts (<[index := merged]> (products (service w))) w));
          try reflexivity. exact Hfit.
      * apply (Refused (UpdateProduct id u) w
                 (setProducts (<[index := merged]> (products (service w))) w));
          try reflexivity. exact Hfit.
    + apply (NotFound _ _ id u); [reflexivity|].
      apply findIndex_none. exact Ei.
  - unfold deleteProduct.
    destruct (change_then_save_unit
                (fun w0 => setProducts
                             (List.filter (fun p => negb (str_eqb (Product.id p) id))
                                (products (service w0))) w0)
                saveProducts KEYS_PRODUCTS productsText w saveProducts_unfold)
      as [[E Hfit]|[E Hfit]]; rewrite E.
    + apply (Saved (DeleteProduct id) w
               (setProducts
                  (List.filter (fun p => negb (str_eqb (Product.id p) id))
                     (products (service w))) w)); try reflexivity. exact Hfit.
    + apply (Refused (DeleteProduct id) w
               (setProducts
                  (List.filter (fun p => negb (str_eqb (Product.id p) id))
                     (products (service w))) w)); try reflexivity. exact Hfit.
  - unfold createOrder.
    destruct (change_then_save
                (fun w0 => setOrders (order :: orders (service w0)) w0)
                saveOrders KEYS_ORDERS ordersText order w saveOrders_unfold)
      as [[E Hfit]|[E Hfit]].
    + rewrite (bind_returned _ _ _ _ _ E).
      apply (Saved (CreateOrder order) w
               (setOrders (order :: orders (service w)) w));
        try reflexivity. exact Hfit.
    + rewrite (bind_thrown _ _ _ _ _ E).
      apply (Refused (CreateOrder order) w
               (setOrders (order :: orders (service w)) w));
        try reflexivity. exact Hfit.
  - unfold clearOrders.
    destruct (change_then_save_unit (setOrders []) saveOrders KEYS_ORDERS
                ordersText w saveOrders_unfold) as [[E Hfit]|[E Hfit]];
      rewrite E.
    + apply (Saved ClearOrders w (setOrders [] w)); try reflexivity. exact Hfit.
    + apply (Refused ClearOrders w (setOrders [] w)); try reflexivity. exact Hfit.
  - unfold addSubscriber. unfold bind at 1. rewrite gets_returned.
    destruct (includes email (subscribers (service w))) eqn:Ein; simpl.
    + apply (Known _ _ email); [reflexivity|]. apply includes_In. exact Ein.
    + destruct (change_then_save_unit
                  (setSubscribers (email :: subscribers (service w)))
                  saveSubscribers KEYS_SUBSCRIBERS subscribersText w
                  saveSubscribers_unfold) as [[E Hfit]|[E Hfit]]; rewrite E.
      * apply (Saved (AddSubscriber email) w
                 (setSubscribers (email :: subscribers (service w)) w));
          try reflexivity. exact Hfit.
      * apply (Refused (AddSubscriber email) w
                 (setSubscribers (email :: subscribers (service w)) w));
          try reflexivity. exact Hfit.
Qed.

Lemma recordText_same_memory o (w w1 : World) st :
  heap w1 = heap w ->
  recordText o (mkWorld (heap w) (service w1) st) = recordText o w1.
Proof.
  intros Hh. destruct o; simpl; unfold productsText, ordersText, subscribersText;
    simpl; rewrite <- ?Hh; reflexivity.
Qed.

Lemma otherFields_service o (w1 : World) h st :
  otherFields o (mkWorld h (service w1) st) = otherFields o w1.
Proof. destruct o; reflexivity. Qed.

(** X5. Whatever mutating method of the backend is called, and whatever the
    state of the store: when the call returns normally, the record of that
    method holds the text of the in-memory data the call leaves behind
    (unless it was [addSubscriber] for a known email, which changes
    nothing); when it throws, the store is exactly as before, and a thrown
    not-found error leaves the in-memory data as before too. The only
    errors are the refusal of the write and, for [updateProduct], the
    not-found error. *)
Theorem backend_store_follows_memory :
  forall o w,
    let w' := fst (perform o w) in
    (snd (perform o w) = Returned tt ->
     entries (localStorage w') !! recordKey o = Some (recordText o w') \/
     (w' = w /\ exists email,
         o = AddSubscriber email /\ In email (subscribers (service w)))) /\
    (forall e, snd (perform o w) = Thrown e ->
               localStorage w' = localStorage w /\
               (e = QuotaExceededError \/
                (e = ProductNotFound /\ w' = w /\
                 exists id u, o = UpdateProduct id u))).
Proof.
  intros o w w'. subst w'.
  destruct (perform_ending o w) as [w1 Hh Hst Hof Hfit|w1 Hh Hst Hof Hfit
                                    |id u Ho Hnin|email Ho Hin]; simpl.
  - split; [|intros e H; discriminate H]. intros _. left.
    rewrite lookup_insert_eq. f_equal. symmetry.
    apply recordText_same_memory. exact Hh.
  - split; [intros H; discriminate H|]. intros e He. injection He as <-.
    split; [exact Hst|]. left. reflexivity.
  - split; [intros H; discriminate H|]. intros e He. injection He as <-.
    split; [reflexivity|]. right. split; [reflexivity|].
    split; [reflexivity|]. exists id, u. exact Ho.
  - split; [|intros e H; discriminate H]. intros _. right.
    split; [reflexivity|]. exists email. split; assumption.
Qed.

(** A product added over an unlimited store. *)
Lemma backend_store_follows_memory_witness :
  entries (localStorage
             (fst (perform (AddProduct Sample.scarf 1700000000000 42)
                     BackendSpec.emptyWorld))) !! KEYS_PRODUCTS
  = Some (JProducts
            [withId Sample.scarf (js "prod_1700000000000_42")]).
Proof.
  destruct (proj1 (backend_store_follows_memory
                     (AddProduct Sample.scarf 1700000000000 42)
                     BackendSpec.emptyWorld)) as [H|[_ [email [H _]]]].
  - vm_compute. reflexivity.
  - refine (eq_trans H _). vm_compute. reflexivity.
  - discriminate H.
Defined.

(** X6. A mutating method of the backend touches nothing but its own data:
    the heap, the two in-memory fields of the other kinds, the acceptance
    rule of the store and every persisted record other than its own are as
    before, however the call ends. *)
Theorem backend_writes_own_record :
  forall o w,
    let w' := fst (perform o w) in
    heap w' = heap w /\
    otherFields o w' = otherFields o w /\
    fits (localStorage w') = fits (localStorage w) /\
    forall key, key <> recordKey o ->
      entries (localStorage w') !! key = entries (localStorage w) !! key.
Proof.
  intros o w w'. subst w'.
  destruct (perform_ending o w) as [w1 Hh Hst Hof Hfit|w1 Hh Hst Hof Hfit
                                    |id u Ho Hnin|email Ho Hin]; simpl.
  - split; [reflexivity|]. split; [rewrite otherFields_service; exact Hof|].
    split; [reflexivity|]. intros key Hne. apply lookup_insert_ne. congruence.
  - split; [exact Hh|]. split; [exact Hof|]. rewrite Hst.
    split; reflexivity.
  - repeat split; reflexivity.
  - repeat split; reflexivity.
Qed.

(** A subscription leaves the product record of the sample catalog alone. *)
Lemma backend_writes_own_record_witness :
  entries (localStorage
             (fst (perform (AddSubscriber (js "sara@example.com"))
                     BackendSpec.catalogWorld))) !! KEYS_PRODUCTS
  = entries (localStorage BackendSpec.catalogWorld) !! KEYS_PRODUCTS.
Proof.
  apply (backend_writes_own_record (AddSubscriber (js "sara@example.com"))
           BackendSpec.catalogWorld).
  simpl. apply keys_products_subscribers.
Defined.

End BackendOperationFacts.

Section StringFacts.

Import Text.

Lemma js_app (a b : string) : js (a +:+ b) = js a ++ js b.
Proof. induction a as [|c a IH]; simpl; [reflexivity|]. rewrite IH. reflexivity. Qed.

Lemma js_inj (a b : string) : js a = js b -> a = b.
Proof.
  revert b. induction a as [|c a IH]; intros [|d b] H; simpl in H;
    try discriminate H; [reflexivity|].
  injection H as Hc Hr. f_equal; [|apply IH; exact Hr].
  apply N2Z.inj in Hc.
  rewrite <- (ascii_N_embedding c), <- (ascii_N_embedding d), Hc. reflexivity.
Qed.

Lemma pretty_N_char_digit (x : N) :
  48 <= Z.of_N (N_of_ascii (pretty_N_char x)) <= 57.
Proof.
  destruct x as [|p]; [vm_compute; split; discriminate|].
  do 4 (try destruct p as [p|p|]); vm_compute; split; discriminate.
Qed.

Lemma pretty_N_go_chars (x : N) :
  forall s, Forall decimalChar (js s) -> Forall decimalChar (js (pretty_N_go x s)).
Proof.
  induction (N.lt_wf_0 x) as [x _ IH]. intros s Hs.
  destruct (N.eq_dec x 0%N) as [->|Hx].
  - rewrite pretty_N_go_0. exact Hs.
  - rewrite pretty_N_go_step by lia. apply IH.
    + apply N.div_lt; lia.
    + simpl. constructor; [|exact Hs]. right. apply pretty_N_char_digit.
Qed.

Lemma numberToString_chars (z : Z) : Forall decimalChar (numberToString z).
Proof.
  unfold numberToString, pretty, pretty_Z.
  destruct z as [|p|p].
  - constructor; [right; vm_compute; split; discriminate|constructor].
  - unfold pretty, pretty_positive, pretty, pretty_N. case_decide.
    + constructor; [right; vm_compute; split; discriminate|constructor].
    + apply pretty_N_go_chars. constructor.
  - rewrite js_app. apply Forall_app. split.
    + constructor; [left; reflexivity|constructor].
    + unfold pretty, pretty_positive, pretty, pretty_N. case_decide.
      * constructor; [right; vm_compute; split; discriminate|constructor].
      * apply pretty_N_go_chars. constructor.
Qed.

Lemma numberToString_inj (a b : Z) : numberToString a = numberToString b -> a = b.
Proof.
  unfold numberToString. intros H. apply js_inj in H.
  apply (inj pretty) in H. exact H.
Qed.

(** Two texts cut at a separator that occurs in neither left part are equal
    only if their parts are. *)
Lemma split_at_separator (sep : Z) (a a' b b' : jsstring) :
  ~ In sep a -> ~ In sep a' ->
  a ++ sep :: b = a' ++ sep :: b' -> a = a' /\ b = b'.
Proof.
  revert a'. induction a as [|c a IH]; intros [|c' a'] Ha Ha' H; simpl in H.
  - injection H as <-. split; reflexivity.
  - injection H as <- _. elim Ha'. left. reflexivity.
  - injection H as -> _. elim Ha. left. reflexivity.
  - injection H as <- H.
    destruct (IH a') as [<- <-]; try exact H.
    + intros Hin. apply Ha. right. exact Hin.
    + intros Hin. apply Ha'. right. exact Hin.
    + split; reflexivity.
Qed.

Lemma numberToString_no_underscore (z : Z) : ~ In 95 (numberToString z).
Proof.
  intros Hin. pose proof (numberToString_chars z) as HF.
  rewrite Forall_forall in HF. apply list_elem_of_In in Hin.
  destruct (HF _ Hin) as [H|H]; lia.
Qed.

End StringFacts.

Section ProductFacts.

Import Backend Operations.

Implicit Types (w : World) (id : jsstring) (ps : list Product.t).

Lemma addProduct_mirror product now rnd w :
  let newProduct :=
    withId product
      (js "prod_" ++ numberToString now ++ js "_" ++ numberToString rnd) in
  service (fst (addProduct product now rnd w))
  = mkService (newProduct :: products (service w)) (orders (service w))
      (subscribers (service w)) /\
  (snd (addProduct product now rnd w) = Returned newProduct \/
   snd (addProduct product now rnd w) = Thrown QuotaExceededError).
Proof.
  intros newProduct. unfold addProduct. fold newProduct.
  destruct (change_then_save
              (fun w0 => setProducts (newProduct :: products (service w0)) w0)
              saveProducts KEYS_PRODUCTS productsText newProduct w
              saveProducts_unfold) as [[E _]|[E _]]; rewrite E; simpl.
  - split; [reflexivity|left; reflexivity].
  - split; [reflexivity|right; reflexivity].
Qed.

(** X7. [addProduct] puts the new product in front of the catalog and
    leaves the products already there as they are; the new product carries
    the id built from the clock and the random number, whatever id the
    input carried, and the other fields of the input. If no product had
    that id, deleting it again gives back the catalog as it was. *)
Theorem addProduct_in_front :
  forall product now rnd w,
    let newId := js "prod_" ++ numberToString now ++ js "_" ++ numberToString rnd in
    let w' := fst (addProduct product now rnd w) in
    exists newProduct,
      snd (getProducts w') = Returned (newProduct :: products (service w)) /\
      Product.id newProduct = newId /\
      withId newProduct (Product.id product) = product /\
      (~ In newId (List.map Product.id (products (service w))) ->
       snd (getProducts (fst (deleteProduct newId w')))
       = Returned (products (service w))).
Proof.
  intros product now rnd w newId w'.
  destruct (addProduct_mirror product now rnd w) as [Hsvc _].
  fold newId in Hsvc. fold w' in Hsvc.
  exists (withId product newId). split; [|split; [|split]].
  - unfold getProducts, gets. simpl. rewrite Hsvc. reflexivity.
  - reflexivity.
  - destruct product. reflexivity.
  - intros Hnin. unfold getProducts, gets. simpl.
    rewrite deleteProduct_unfold, saveProducts_unfold.
    destruct (setItem_frame KEYS_PRODUCTS
                (JProducts
                   (products
                      (service
                         (setProducts
                            (List.filter
                               (fun p => negb (str_eqb (Product.id p) newId))
                               (products (service w'))) w'))))
                (setProducts
                   (List.filter (fun p => negb (str_eqb (Product.id p) newId))
                      (products (service w'))) w')) as [_ [-> _]].
    simpl. rewrite Hsvc. simpl. unfold withId at 1. simpl.
    rewrite str_eqb_refl. simpl. rewrite filter_absent by exact Hnin.
    reflexivity.
Qed.

(** A scarf added to the sample catalog, where no id starts with "prod_". *)
Lemma addProduct_in_front_witness :
  snd (getProducts
         (fst (deleteProduct (js "prod_1700000000000_42")
                 (fst (addProduct Sample.scarf 1700000000000 42
                         BackendSpec.catalogWorld)))))
  = Returned [Sample.basket; Sample.scarf].
Proof.
  destruct (addProduct_in_front Sample.scarf 1700000000000 42
              BackendSpec.catalogWorld) as [np [_ [_ [_ H]]]].
  apply H. vm_compute. intros [E|[E|[]]]; discriminate E.
Defined.

(** X8. The ids that [addProduct] gives are told apart by the pair of the
    clock value and the random number: the products put in front by two
    calls carry the same id exactly when both values coincide. *)
Theorem addProduct_id_unique :
  forall product product' now now' rnd rnd' w w',
    exists p1 p2,
      products (service (fst (addProduct product now rnd w)))
      = p1 :: products (service w) /\
      products (service (fst (addProduct product' now' rnd' w')))
      = p2 :: products (service w') /\
      (Product.id p1 = Product.id p2 <-> now = now' /\ rnd = rnd').
Proof.
  intros product product' now now' rnd rnd' w w'.
  destruct (addProduct_mirror product now rnd w) as [-> _].
  destruct (addProduct_mirror product' now' rnd' w') as [-> _].
  eexists _, _. split; [reflexivity|]. split; [reflexivity|].
  unfold withId. cbn [Product.id]. split.
  - intros H. apply app_inv_head in H.
    change (js "_" ++ numberToString rnd) with (95 :: numberToString rnd) in H.
    change (js "_" ++ numberToString rnd') with (95 :: numberToString rnd') in H.
    apply split_at_separator in H as [Hn Hr];
      try apply numberToString_no_underscore.
    apply numberToString_inj in Hn, Hr. split; assumption.
  - intros [-> ->]. reflexivity.
Qed.

(** Two products added at the same clock value with different random
    numbers. *)
Lemma addProduct_id_unique_witness :
  exists p1 p2,
    products (service (fst (addProduct Sample.scarf 1700000000000 42
                              BackendSpec.emptyWorld))) = [p1] /\
    products (service (fst (addProduct Sample.scarf 1700000000000 43
                              BackendSpec.emptyWorld))) = [p2] /\
    Product.id p1 <> Product.id p2.
Proof.
  destruct (addProduct_id_unique Sample.scarf Sample.scarf
              1700000000000 1700000000000 42 43
              BackendSpec.emptyWorld BackendSpec.emptyWorld)
    as (p1 & p2 & H1 & H2 & Hiff).
  exists p1, p2. split; [exact H1|]. split; [exact H2|].
  intros E. apply Hiff in E as [_ E]. discriminate E.
Defined.

Lemma spread_nothing (p : Product.t) :
  spread p (mkUpdates None None None None None None None None None) = p.
Proof. destruct p. reflexivity. Qed.

(** X9. [updateProduct] for an id that no product carries throws the
    not-found error and changes nothing, in memory or in the store. For an
    id in the catalog it replaces the first product of that id by that
    product overlaid with the updates, keeps every other product and the
    length of the catalog, and returns the overlaid product unless the
    write is refused; with no field to update the catalog is as before. *)
Theorem updateProduct_first_match :
  forall id (u : Updates) w,
    (~ In id (List.map Product.id (products (service w))) ->
     updateProduct id u w = (w, Thrown ProductNotFound)) /\
    (In id (List.map Product.id (products (service w))) ->
     exists (index : nat) old,
       products (service w) !! index = Some old /\
       Product.id old = id /\
       (forall (j : nat) q, (j < index)%nat ->
          products (service w) !! j = Some q -> Product.id q <> id) /\
       products (service (fst (updateProduct id u w)))
       = <[index := spread old u]> (products (service w)) /\
       length (products (service (fst (updateProduct id u w))))
       = length (products (service w)) /\
       (snd (updateProduct id u w) = Returned (spread old u) \/
        snd (updateProduct id u w) = Thrown QuotaExceededError) /\
       (u = mkUpdates None None None None None None None None None ->
        products (service (fst (updateProduct id u w))) = products (service w))).
Proof.
  intros id u w. split.
  - intros Hnin. apply findIndex_none in Hnin.
    unfold updateProduct. unfold bind at 1. rewrite gets_returned, Hnin.
    reflexivity.
  - intros Hin.
    destruct (findIndex id (products (service w))) as [index|] eqn:Ei;
      [|apply findIndex_none in Ei; contradiction].
    destruct (findIndex_some _ _ _ Ei) as (old & Hold & Hid & Hmin).
    exists index, old. split; [exact Hold|]. split; [exact Hid|].
    split; [exact Hmin|].
    assert (E : updateProduct id u w
                = bind (modify (setProducts (<[index := spread old u]>
                                               (products (service w)))))
                    (fun _ => bind saveProducts (fun _ => ret (spread old u))) w).
    { unfold updateProduct. unfold bind at 1. rewrite gets_returned, Ei, Hold.
      reflexivity. }
    rewrite E.
    destruct (change_then_save
                (setProducts (<[index := spread old u]> (products (service w))))
                saveProducts KEYS_PRODUCTS productsText (spread old u) w
                saveProducts_unfold) as [[E' _]|[E' _]]; rewrite E'; simpl.
    + split; [reflexivity|]. split; [apply length_insert|].
      split; [left; reflexivity|]. intros ->. rewrite spread_nothing.
      apply list_insert_id. exact Hold.
    + split; [reflexivity|]. split; [apply length_insert|].
      split; [right; reflexivity|]. intros ->. rewrite spread_nothing.
      apply list_insert_id. exact Hold.
Qed.

(** An update for an id that is not in the sample catalog. *)
Lemma updateProduct_first_match_witness :
  updateProduct (js "p9") (mkUpdates None None None None None None None None None)
    BackendSpec.catalogWorld
  = (BackendSpec.catalogWorld, Thrown ProductNotFound).
Proof.
  apply (updateProduct_first_match (js "p9")).
  vm_compute. intros [E|[E|[]]]; discriminate E.
Defined.

(** X10. [createOrder] never turns an order down: the same order object
    submitted twice is twice in the history afterwards, in front of the
    orders that were there, whether or not the writes are accepted. *)
Theorem createOrder_twice :
  forall (order : loc) w,
    let w2 := fst (createOrder order (fst (createOrder order w))) in
    snd (getOrders w2) = Returned (order :: order :: orders (service w)) /\
    count_occ Pos.eq_dec (orders (service w2)) order
    = S (S (count_occ Pos.eq_dec (orders (service w)) order)).
Proof.
  intros order w w2.
  assert (Hstep : forall w0,
             orders (service (fst (createOrder order w0)))
             = order :: orders (service w0)).
  { intros w0. unfold createOrder.
    destruct (change_then_save
                (fun w1 => setOrders (order :: orders (service w1)) w1)
                saveOrders KEYS_ORDERS ordersText order w0 saveOrders_unfold)
      as [[E _]|[E _]]; rewrite E; reflexivity. }
  assert (E2 : orders (service w2) = order :: order :: orders (service w)).
  { subst w2. rewrite Hstep, Hstep. reflexivity. }
  split.
  - unfold getOrders, gets. simpl. rewrite E2. reflexivity.
  - rewrite E2. simpl. destruct (Pos.eq_dec order order); [reflexivity|congruence].
Qed.

End ProductFacts.

Section CardFormFacts.

Import Backend CardForm.

Lemma monthPattern_number (m1 m2 : Z) :
  monthPattern m1 m2 = true <->
  isDigit m1 = true /\ isDigit m2 = true /\
  1 <= 10 * digitValue m1 + digitValue m2 <= 12.
Proof.
  unfold monthPattern, isDigit, digitValue.
  rewrite !orb_true_iff, !andb_true_iff, !Z.eqb_eq, !Z.leb_le. lia.
Qed.

(** X11. The expiry check accepts exactly the texts made of a two-digit
    month from 01 to 12 and a two-digit year, with or without a slash
    between them; the year is not compared with any date. *)
Theorem expiry_month_and_year :
  forall text : jsstring,
    expiryPattern text = true <->
    exists m1 m2 y1 y2,
      (text = [m1; m2; 47; y1; y2] \/ text = [m1; m2; y1; y2]) /\
      isDigit m1 = true /\ isDigit m2 = true /\
      isDigit y1 = true /\ isDigit y2 = true /\
      1 <= 10 * digitValue m1 + digitValue m2 <= 12.
Proof.
  intros text. split.
  - destruct text as [|m1 [|m2 [|a [|b [|c [|d r]]]]]]; simpl;
      try discriminate;
      rewrite ?andb_false_r; try discriminate;
      rewrite ?andb_true_iff, monthPattern_number, ?Z.eqb_eq.
    + intros [[H1 [H2 H3]] [Ha Hb]].
      exists m1, m2, a, b. split; [right; reflexivity|]. tauto.
    + intros [[H1 [H2 H3]] [[-> Hb] Hc]].
      exists m1, m2, b, c. split; [left; reflexivity|]. tauto.
  - intros (m1 & m2 & y1 & y2 & [-> | ->] & H1 & H2 & H3 & H4 & H5); simpl;
      rewrite ?andb_true_iff, monthPattern_number, ?Z.eqb_eq; tauto.
Qed.

(** Month 04, year 27, with the slash. *)
Lemma expiry_month_and_year_witness : expiryPattern (js "04/27") = true.
Proof.
  apply expiry_month_and_year.
  exists 48, 52, 50, 55. split; [left; reflexivity|].
  repeat split; try reflexivity; vm_compute; discriminate.
Defined.

Lemma anyError_validate (cardNum expiryText cvcText : jsstring) :
  anyError (validate cardNum expiryText cvcText)
  = negb (Checkout.isValidCreditCard cardNum && expiryPattern expiryText
          && cvcPattern cvcText).
Proof.
  unfold validate.
  destruct (Checkout.isValidCreditCard cardNum), (expiryPattern expiryText),
    (cvcPattern cvcText); reflexivity.
Qed.

(** [completeOrder] overwrites the processing flag and status it finds. *)
Lemma completeOrder_processing status now language (s : Session.t) :
  is_Some (Wizard.shippingData (Session.wizard s)) ->
  is_Some (resolveItems (heap (Session.world s)) (Session.cart s)) ->
  Session.completeOrder now language
    (withWizard (processing status (Session.wizard s)) s)
  = Session.completeOrder now language s.
Proof.
  destruct s as [w c [st pm cp ip ps sdo oref al]].
  intros [sd Hsd] [lines Hlines]. simpl in Hsd, Hlines. subst sdo.
  unfold Session.completeOrder, withWizard, Session.submit, processing.
  cbn [Session.wizard Session.world Session.cart Wizard.shippingData
       Wizard.step Wizard.paymentMethod Wizard.cardProvider Wizard.orderRef
       Wizard.alerts].
  rewrite Hlines.
  change (Session.newOrder (Wizard.mk st pm cp true status (Some sd) oref al)
            c lines sd now language)
    with (Session.newOrder (Wizard.mk st pm cp ip ps (Some sd) oref al)
            c lines sd now language).
  destruct (bind _ _ w) as [w1 [[]|e]]; [|reflexivity].
  destruct (App.handleCheckoutComplete w1) as [w2 [c2|e]]; reflexivity.
Qed.

Lemma processing_keeps status (s : Session.t) :
  let s' := withWizard (processing status (Session.wizard s)) s in
  Wizard.shippingData (Session.wizard s') = Wizard.shippingData (Session.wizard s)
  /\ Session.world s' = Session.world s /\ Session.cart s' = Session.cart s.
Proof. repeat split; reflexivity. Qed.

(** X12. [handleCreditCardFlow] checks the card number, the expiry and the
    security code independently and reports every failing field at once:
    each of the three messages is present exactly when its field fails its
    check. If any field fails, nothing is submitted and the session is as
    before. If all three pass, the messages are cleared and, at the payment
    step of a rendered modal, the handler ends as [completeOrder] does. *)
Theorem card_flow_validates_all_fields :
  forall cardNum expiryText cvcText now language (s : Session.t),
    let result := handleCreditCardFlow cardNum expiryText cvcText now language s in
    let allPass := Checkout.isValidCreditCard cardNum
                   && expiryPattern expiryText && cvcPattern cvcText in
    (is_Some (cardNumber (validate cardNum expiryText cvcText))
     <-> Checkout.isValidCreditCard cardNum = false) /\
    (is_Some (expiry (validate cardNum expiryText cvcText))
     <-> expiryPattern expiryText = false) /\
    (is_Some (cvc (validate cardNum expiryText cvcText))
     <-> cvcPattern cvcText = false) /\
    (allPass = false ->
     result = (s, validate cardNum expiryText cvcText)) /\
    (allPass = true ->
     is_Some (Wizard.shippingData (Session.wizard s)) ->
     is_Some (resolveItems (heap (Session.world s)) (Session.cart s)) ->
     result = (Session.completeOrder now language s, noErrors)).
Proof.
  intros cardNum expiryText cvcText now language s result allPass.
  split; [|split; [|split; [|split]]].
  - unfold validate. simpl. destruct (Checkout.isValidCreditCard cardNum);
      split; intros H; try discriminate H; try reflexivity;
      [destruct H as [x Hx]; discriminate Hx|eexists; reflexivity].
  - unfold validate. simpl. destruct (expiryPattern expiryText);
      split; intros H; try discriminate H; try reflexivity;
      [destruct H as [x Hx]; discriminate Hx|eexists; reflexivity].
  - unfold validate. simpl. destruct (cvcPattern cvcText);
      split; intros H; try discriminate H; try reflexivity;
      [destruct H as [x Hx]; discriminate Hx|eexists; reflexivity].
  - intros Hfail. subst result. unfold handleCreditCardFlow.
    rewrite anyError_validate. fold allPass. rewrite Hfail. reflexivity.
  - intros Hpass Hsd Hcart. subst result. unfold handleCreditCardFlow.
    rewrite anyError_validate. fold allPass. rewrite Hpass. simpl. f_equal.
    set (z1 := processing (js "Encrypting data...") (Session.wizard s)).
    set (z2 := processing (js "Contacting issuing bank...") z1).
    refine (eq_trans
              (completeOrder_processing (js "Verifying transaction...")
                 now language (withWizard z2 s) Hsd Hcart) _).
    refine (eq_trans
              (completeOrder_processing (js "Contacting issuing bank...")
                 now language (withWizard z1 s) Hsd Hcart) _).
    apply completeOrder_processing; assumption.
Qed.

(** A wrong security code on the sample checkout. *)
Lemma card_flow_validates_all_fields_witness :
  handleCreditCardFlow (js "4539148803436467") (js "04/27") (js "12")
    SessionSample.today (js "en") SessionSample.ready
  = (SessionSample.ready,
     mkErrors None None (Some (js "Invalid CVC."))).
Proof.
  apply (card_flow_validates_all_fields (js "4539148803436467") (js "04/27")
           (js "12") SessionSample.today (js "en") SessionSample.ready).
  vm_compute. reflexivity.
Defined.

(** However [submit] ends, the order object has been allocated and put in
    front of the in-memory history. *)
Lemma submit_memory (s : Session.t) lines sd now language :
  let w := Session.world s in
  let o := fresh (dom (heap w)) in
  heap (fst (Session.submit s lines sd now language))
  = <[o := OOrder (Session.newOrder (Session.wizard s) (Session.cart s) lines sd
                     now language)]> (heap w) /\
  service (fst (Session.submit s lines sd now language))
  = mkService (products (service w)) (o :: orders (service w))
      (subscribers (service w)).
Proof.
  intros w o.
  unfold Session.submit, Session.saveOrder, createOrder, bind, modify, App.alloc.
  rewrite saveOrders_unfold. unfold setItem. simpl.
  destruct (fits _ _); split; reflexivity.
Qed.

(** X13. When [completeOrder] goes through, the wizard is at the
    confirmation step with processing stopped and no alert raised, the cart
    state is a new, empty array while the array of the checkout still reads
    as the lines that were bought, and the stored order is pending, carries
    the order reference of the modal, and records as subtotal the sum of
    price times quantity over those lines and as total that sum plus 25
    plus 12.5. *)
Theorem completed_checkout :
  forall (s : Session.t) sd lines now language,
    Wizard.shippingData (Session.wizard s) = Some sd ->
    resolveItems (heap (Session.world s)) (Session.cart s) = Some lines ->
    snd (Session.submit s lines sd now language) = Returned tt ->
    let s' := Session.completeOrder now language s in
    let o := fresh (dom (heap (Session.world s))) in
    Wizard.step (Session.wizard s') = Wizard.confirmation /\
    Wizard.isProcessing (Session.wizard s') = false /\
    Wizard.processingStatus (Session.wizard s') = [] /\
    Wizard.alerts (Session.wizard s') = Wizard.alerts (Session.wizard s) /\
    Session.cart s' <> Session.cart s /\
    resolveItems (heap (Session.world s')) (Session.cart s') = Some [] /\
    resolveItems (heap (Session.world s')) (Session.cart s) = Some lines /\
    exists order,
      readOrder (heap (Session.world s')) o = Some order /\
      Order.status order = pending /\
      Order.id order = Wizard.orderRef (Session.wizard s) /\
      Order.subtotal order = Spec.sum (Spec.lineTotals lines) /\
      Order.total order = (Spec.sum (Spec.lineTotals lines) + 25 + 12.5)%float.
Proof.
  intros s sd lines now language Hsd Hlines Hok s' o.
  destruct (submit_memory s lines sd now language) as [Hh Hsvc].
  fold o in Hh, Hsvc.
  set (order := Session.newOrder (Session.wizard s) (Session.cart s) lines sd
                  now language) in *.
  set (w1 := fst (Session.submit s lines sd now language)) in *.
  set (l := fresh (dom (heap w1))).
  assert (Hs' : s' = Session.mk
                       (mkWorld (<[l := OArray []]> (heap w1)) (service w1)
                          (localStorage w1))
                       l
                       (Wizard.setStep Wizard.confirmation
                          (Wizard.stopProcessing (Session.wizard s)))).
  { subst s'. unfold Session.completeOrder. rewrite Hsd, Hlines.
    subst w1 l. destruct (Session.submit s lines sd now language) as [w [[]|e]];
      [reflexivity|discriminate Hok]. }
  assert (Hfresh : heap (Session.world s) !! o = None)
    by (apply not_elem_of_dom, is_fresh).
  assert (Hl : heap w1 !! l = None) by (apply not_elem_of_dom, is_fresh).
  assert (H01 : heap (Session.world s) ⊆ heap w1)
    by (rewrite Hh; apply insert_subseteq; exact Hfresh).
  assert (H12 : heap w1 ⊆ <[l := OArray []]> (heap w1))
    by (apply insert_subseteq; exact Hl).
  rewrite Hs'. simpl.
  split; [reflexivity|]. split; [reflexivity|]. split; [reflexivity|].
  split; [reflexivity|]. split; [|split; [|split]].
  - intros E.
    assert (Hc : is_Some (heap w1 !! Session.cart s)).
    { unfold resolveItems, readArray in Hlines.
      destruct (heap (Session.world s) !! Session.cart s) as [x|] eqn:Ex;
        [|discriminate Hlines].
      exists x. apply (lookup_weaken _ _ _ _ Ex H01). }
    rewrite <- E, Hl in Hc. destruct Hc as [x Hx]. discriminate Hx.
  - unfold resolveItems, readArray. rewrite lookup_insert_eq. reflexivity.
  - apply (resolveItems_mono (heap (Session.world s))); [|exact Hlines].
    etrans; eassumption.
  - exists order. split.
    + apply (readOrder_mono (heap w1)); [exact H12|].
      unfold readOrder. rewrite Hh, lookup_insert_eq. reflexivity.
    + split; [reflexivity|]. split; [reflexivity|].
      assert (Hsub : Checkout.subtotal lines = Spec.sum (Spec.lineTotals lines))
        by apply fold_left_line_totals.
      split; [exact Hsub|]. simpl. unfold Checkout.total. rewrite Hsub.
      reflexivity.
Qed.

(** The sample checkout of one basket. *)
Lemma completed_checkout_witness :
  Wizard.step (Session.wizard
                 (Session.completeOrder SessionSample.today (js "en")
                    SessionSample.ready))
  = Wizard.confirmation.
Proof.
  apply (completed_checkout SessionSample.ready SessionSample.address
           Sample.oneBasket SessionSample.today (js "en")).
  - reflexivity.
  - vm_compute. reflexivity.
  - vm_compute. reflexivity.
Defined.

(** X14. Every payment branch ends in [completeOrder]: at the payment step
    of a rendered modal, the card form (with three valid fields), the
    PayPal flow and the bank-transfer submit all leave the session that
    [completeOrder] leaves, whatever status text they showed on the way.
    The general submit does nothing unless the payment method is bank
    transfer. *)
Theorem payment_branches_converge :
  forall now language (s : Session.t),
    (Wizard.paymentMethod (Session.wizard s) <> bank_transfer ->
     handleGeneralSubmit now language s = s) /\
    (is_Some (Wizard.shippingData (Session.wizard s)) ->
     is_Some (resolveItems (heap (Session.world s)) (Session.cart s)) ->
     handlePayPalFlow now language s = Session.completeOrder now language s /\
     (Wizard.paymentMethod (Session.wizard s) = bank_transfer ->
      handleGeneralSubmit now language s = Session.completeOrder now language s)).
Proof.
  intros now language s. split.
  - intros Hne. unfold handleGeneralSubmit.
    destruct (Wizard.paymentMethod (Session.wizard s)); congruence.
  - intros Hsd Hcart. split.
    + unfold handlePayPalFlow.
      refine (eq_trans
                (completeOrder_processing
                   (js "Waiting for payment confirmation...") now language
                   (withWizard
                      (processing (js "Connecting to PayPal Secure Gateway...")
                         (Session.wizard s)) s) Hsd Hcart) _).
      apply completeOrder_processing; assumption.
    + intros Hbank. unfold handleGeneralSubmit. rewrite Hbank.
      apply completeOrder_processing; assumption.
Qed.

(** The sample checkout pays by bank transfer. *)
Lemma payment_branches_converge_witness :
  handleGeneralSubmit SessionSample.today (js "en") SessionSample.ready
  = Session.completeOrder SessionSample.today (js "en") SessionSample.ready.
Proof.
  apply (payment_branches_converge SessionSample.today (js "en")
           SessionSample.ready).
  - eexists. reflexivity.
  - eexists. vm_compute. reflexivity.
  - reflexivity.
Defined.

End CardFormFacts.

Section TranslationTierFacts.

Import AutoTranslatedText.

Implicit Types (ctx : LanguageContext) (value key : jsstring) (c : t)
  (st : Storage) (r : Gemini.remote).

Lemma truthy_str_nonempty (s : jsstring) : truthy_str s = true <-> s <> [].
Proof. destruct s; simpl; split; congruence. Qed.

(** X15. The translation request asks the remote service exactly when the
    text is not empty, the language is not English and the static
    dictionary, the translation memory and the cache all miss. Whenever it
    does not ask, the store is untouched, and for a non-empty text the
    instance is settled on the first tier that answers: the text itself in
    English, else the dictionary entry, else the remembered translation,
    else the cached one. *)
Theorem remote_call_after_all_tiers_miss :
  forall ctx value (tk : option jsstring) (unmounts : bool) r c st,
    let exact := if truthy tk
                 then getExactTranslation ctx (default [] tk) else None in
    let memory := findBestTranslation ctx value in
    let cached := entries st !! cacheKey (language ctx) value in
    let '(c', st', called) := request ctx value tk unmounts r c st in
    (called = true <->
     value <> [] /\ language ctx <> js "en" /\ truthy exact = false /\
     truthy memory = false /\ truthy cached = false) /\
    (called = false ->
     st' = st /\
     (value <> [] ->
      c' = settle (if str_eqb (language ctx) (js "en") then value
                   else if truthy exact then default [] exact
                   else if truthy memory then default [] memory
                   else default [] cached) c)).
Proof.
  intros ctx value tk unmounts r c st exact memory cached.
  unfold request, effect. fold exact memory cached.
  destruct (truthy_str value) eqn:Hv; cbn [negb].
  2:{ split.
      - split; [discriminate|]. intros [H _].
        apply truthy_str_nonempty in H. congruence.
      - intros _. split; [reflexivity|]. intros H.
        apply truthy_str_nonempty in H. congruence. }
  apply truthy_str_nonempty in Hv.
  destruct (str_eqb (language ctx) (js "en")) eqn:Hl.
  { apply str_eqb_true in Hl. split.
    - split; [discriminate|]. intros [_ [H _]]. contradiction.
    - intros _. split; reflexivity. }
  apply str_eqb_false in Hl.
  destruct (truthy exact) eqn:He.
  { split.
    - split; [discriminate|]. intros [_ [_ [H _]]]. discriminate H.
    - intros _. split; reflexivity. }
  destruct (truthy memory) eqn:Hm.
  { split.
    - split; [discriminate|]. intros [_ [_ [_ [H _]]]]. discriminate H.
    - intros _. split; reflexivity. }
  destruct (truthy cached) eqn:Hc.
  { split.
    - split; [discriminate|]. intros [_ [_ [_ [_ H]]]]. discriminate H.
    - intros _. split; reflexivity. }
  destruct (onResult _ _ _ _ st) as [c3 st3]. split.
  - split; [|reflexivity]. intros _. repeat split; assumption.
  - discriminate.
Qed.

(** X16. A translation that has been shown and cached is found again: once
    a mounted instance has received a reply that, trimmed, is not empty and
    differs from the text, and the store has accepted the write, no later
    request for the same text and language asks the remote service or
    touches the store, from whatever instance, with whatever translation
    key and whatever the service would have answered. Such a request
    settles on the cached translation, unless its own translation key has
    an entry in the static dictionary, which comes first. *)
Theorem cached_translation_is_reused :
  forall ctx value (tk : option jsstring) r c st c1 key reply,
    effect ctx value tk c st = (c1, Requested key) ->
    mounted c = true ->
    r = Gemini.Responded (Some reply) ->
    trim reply <> [] -> trim reply <> value ->
    fits st (<[key := trim reply]> (entries st)) = true ->
    let '(c', st', called) := request ctx value tk false r c st in
    called = true /\
    translatedContent c' = trim reply /\ isLoading c' = false /\
    entries st' !! key = Some (trim reply) /\
    forall (tk' : option jsstring) (other : t) (r' : Gemini.remote)
           (unmounts : bool),
      let exact := if truthy tk'
                   then getExactTranslation ctx (default [] tk') else None in
      request ctx value tk' unmounts r' other st'
      = (settle (if truthy exact then default [] exact else trim reply) other,
         st', false).
Proof.
  intros ctx value tk r c st c1 key reply Heff Hm -> Hne Hdiff Hfit.
  destruct (effect_requested _ _ _ _ _ _ _ Heff) as [Hv [Hkey Hc1]].
  pose proof (proj2 (truthy_str_nonempty _) Hne) as Htrim.
  pose proof (proj2 (str_eqb_false _ _) Hdiff) as Hneq.
  assert (Htr : Gemini.translateText value (language ctx)
                  (Gemini.Responded (Some reply)) = Some (trim reply)).
  { unfold Gemini.translateText. rewrite Hv. simpl.
    rewrite Htrim. reflexivity. }
  assert (Hres : onResult value key (Some (trim reply)) c1 st
                 = (settle (trim reply) c1,
                    mkStorage (<[key := trim reply]> (entries st)) (fits st))).
  { unfold onResult, setItem. subst c1.
    change (default [] (Some (trim reply))) with (trim reply).
    cbn [mounted truthy].
    rewrite Hm, Htrim. cbn [negb andb]. rewrite Hneq, Hfit. reflexivity. }
  unfold request at 1. rewrite Heff, Htr, Hres.
  split; [reflexivity|]. split; [reflexivity|]. split; [reflexivity|].
  split; [apply lookup_insert_eq|].
  assert (Hmiss : str_eqb (language ctx) (js "en") = false /\
                  truthy (findBestTranslation ctx value) = false).
  { revert Heff. unfold effect. rewrite Hv. cbn [negb].
    destruct (str_eqb (language ctx) (js "en")); [discriminate|].
    destruct (truthy (if truthy tk then _ else None)); [discriminate|].
    destruct (truthy (findBestTranslation ctx value)); [discriminate|].
    intros _. split; reflexivity. }
  destruct Hmiss as [Hl Hmem].
  intros tk' other r' unmounts. cbv zeta.
  unfold request, effect. rewrite Hv, Hl. cbn [negb].
  destruct (truthy (if truthy tk'
                    then getExactTranslation ctx (default [] tk') else None));
    [reflexivity|].
  rewrite Hmem.
  cbn [entries]. rewrite <- Hkey, lookup_insert_eq.
  change (default [] (Some (trim reply))) with (trim reply).
  cbn [truthy]. rewrite Htrim. reflexivity.
Qed.

(** "Panier Mesob" for "Mesob Basket", requested without a translation key,
    over an unlimited store and a dictionary that has "Corbeille" under
    "product_p1_name": a later request without a key shows the cached
    translation, one with that key shows the dictionary entry, and neither
    asks the service. *)
Lemma cached_translation_is_reused_witness :
  let ctx := mkContext (js "fr")
               (fun k => if str_eqb k (js "product_p1_name")
                         then Some (js "Corbeille") else None)
               (fun _ => None) in
  let '(c', st', called) :=
    request ctx (js "Mesob Basket") None false
      (Gemini.Responded (Some (js " Panier Mesob ")))
      TranslationSample.initial TranslationSample.emptyStorage in
  translatedContent c' = js "Panier Mesob" /\
  request ctx (js "Mesob Basket") None false Gemini.Rejected
    TranslationSample.initial st'
  = (settle (js "Panier Mesob") TranslationSample.initial, st', false) /\
  request ctx (js "Mesob Basket") (Some (js "product_p1_name")) false
    Gemini.Rejected TranslationSample.initial st'
  = (settle (js "Corbeille") TranslationSample.initial, st', false).
Proof.
  intros ctx.
  pose proof (cached_translation_is_reused ctx
                (js "Mesob Basket") None
                (Gemini.Responded (Some (js " Panier Mesob ")))
                TranslationSample.initial TranslationSample.emptyStorage
                (mk (js "Mesob Basket") true true)
                (cacheKey (js "fr") (js "Mesob Basket"))
                (js " Panier Mesob ")) as H.
  destruct (request ctx (js "Mesob Basket") None false
              (Gemini.Responded (Some (js " Panier Mesob ")))
              TranslationSample.initial TranslationSample.emptyStorage)
    as [[c' st'] called].
  destruct H as [_ [Hshown [_ [_ Hlater]]]].
  - vm_compute. reflexivity.
  - reflexivity.
  - reflexivity.
  - vm_compute. discriminate.
  - vm_compute. discriminate.
  - reflexivity.
  - split; [exact Hshown|]. split.
    + exact (Hlater None TranslationSample.initial Gemini.Rejected false).
    + exact (Hlater (Some (js "product_p1_name")) TranslationSample.initial
               Gemini.Rejected false).
Defined.

(** X17. When the store refuses the cache write, the translation is given
    up: a mounted instance that has received a usable reply falls back to
    the source text, stops loading, and the store is as before. *)
Theorem refused_cache_write_falls_back :
  forall value key (result : jsstring) c st,
    mounted c = true ->
    result <> [] -> result <> value ->
    fits st (<[key := result]> (entries st)) = false ->
    onResult value key (Some result) c st = (settle value c, st) /\
    translatedContent (fst (onResult value key (Some result) c st)) = value /\
    isLoading (fst (onResult value key (Some result) c st)) = false.
Proof.
  intros value key result c st Hm Hne Hdiff Hfit.
  pose proof (proj2 (truthy_str_nonempty _) Hne) as Htrim.
  pose proof (proj2 (str_eqb_false _ _) Hdiff) as Hneq.
  assert (E : onResult value key (Some result) c st = (settle value c, st)).
  { unfold onResult, setItem.
    change (default [] (Some result)) with result. cbn [truthy].
    rewrite Hm, Htrim. cbn [negb andb]. rewrite Hneq, Hfit. reflexivity. }
  rewrite E. repeat split.
Qed.

(** A reply for "Mesob Basket" over a full store. *)
Lemma refused_cache_write_falls_back_witness :
  onResult (js "Mesob Basket") (cacheKey (js "fr") (js "Mesob Basket"))
    (Some (js "Panier Mesob")) TranslationSample.initial
    (mkStorage ∅ (fun _ => false))
  = (settle (js "Mesob Basket") TranslationSample.initial,
     mkStorage ∅ (fun _ => false)).
Proof.
  apply (refused_cache_write_falls_back (js "Mesob Basket")
           (cacheKey (js "fr") (js "Mesob Basket")) (js "Panier Mesob")
           TranslationSample.initial (mkStorage ∅ (fun _ => false))).
  - reflexivity.
  - discriminate.
  - vm_compute. discriminate.
  - reflexivity.
Defined.

End TranslationTierFacts.

Section HashFacts.

Import AutoTranslatedText.

Lemma toInt32_wrap (z : Z) : exists k, toInt32 z = z + k * 2 ^ 32.
Proof.
  unfold toInt32. exists (- ((z + 2 ^ 31) / 2 ^ 32)).
  pose proof (Z.div_mod (z + 2 ^ 31) (2 ^ 32)) as H.
  change (2 ^ 32) with 4294967296 in *. change (2 ^ 31) with 2147483648 in *.
  lia.
Qed.

Lemma toInt32_shift (z k : Z) : toInt32 (z + k * 2 ^ 32) = toInt32 z.
Proof.
  unfold toInt32.
  replace (z + k * 2 ^ 32 + 2 ^ 31) with (z + 2 ^ 31 + k * 2 ^ 32) by ring.
  rewrite Z_mod_plus_full. reflexivity.
Qed.

Lemma toInt32_range (z : Z) : - 2 ^ 31 <= toInt32 z < 2 ^ 31.
Proof.
  unfold toInt32.
  pose proof (Z.mod_pos_bound (z + 2 ^ 31) (2 ^ 32)) as H.
  change (2 ^ 32) with 4294967296 in *. change (2 ^ 31) with 2147483648 in *.
  lia.
Qed.

(** One turn of the loop, on a hash that is the wrap of [h]. *)
Lemma simpleHash_step (h char : Z) :
  toInt32 (toInt32 (Z.shiftl (toInt32 h) 5) - toInt32 h + char)
  = toInt32 (31 * h + char).
Proof.
  rewrite Z.shiftl_mul_pow2 by lia.
  destruct (toInt32_wrap h) as [k Hk].
  destruct (toInt32_wrap (toInt32 h * 2 ^ 5)) as [k' Hk'].
  rewrite Hk'. rewrite Hk.
  replace ((h + k * 2 ^ 32) * 2 ^ 5 + k' * 2 ^ 32 - (h + k * 2 ^ 32) + char)
    with (31 * h + char + (31 * k + k') * 2 ^ 32).
  - apply toInt32_shift.
  - change (2 ^ 5) with 32. ring.
Qed.

Lemma simpleHash_fold (str : jsstring) :
  forall h,
    fold_left (fun hash char => toInt32 (toInt32 (Z.shiftl hash 5) - hash + char))
      str (toInt32 h)
    = toInt32 (fold_left (fun acc char => 31 * acc + char) str h).
Proof.
  induction str as [|char str IH]; intros h; simpl.
  - reflexivity.
  - rewrite simpleHash_step. apply IH.
Qed.

(** X18. [simpleHash] is the polynomial hash in base 31 wrapped to 32 bits:
    the text read as a base-31 numeral, reduced to the signed 32-bit
    integer that is congruent to it modulo 2^32. So the hash lies between
    -2^31 and 2^31 - 1 whatever the length of the text. *)
Theorem simpleHash_polynomial :
  forall str : jsstring,
    simpleHash str = toInt32 (Hash.polynomial str) /\
    - 2 ^ 31 <= simpleHash str < 2 ^ 31.
Proof.
  intros str.
  assert (E : simpleHash str = toInt32 (Hash.polynomial str)).
  { unfold simpleHash, Hash.polynomial.
    change 0 with (toInt32 0) at 1. apply simpleHash_fold. }
  split; [exact E|]. rewrite E. apply toInt32_range.
Qed.

(** X19. The cache identifies a text by its language and hash only. When
    two texts have the same hash, a translation cached for the one is shown
    for the other: a request for the second text that gets as far as the
    cache settles on the first text's translation, and the remote service
    is not asked. *)
Theorem hash_collision_shares_cache_entry :
  forall ctx (value value' : jsstring) (tk : option jsstring)
         (unmounts : bool) (r : Gemini.remote) (c : t) (st : Storage)
         (translation : jsstring),
    simpleHash value' = simpleHash value ->
    entries st !! cacheKey (language ctx) value = Some translation ->
    translation <> [] ->
    value' <> [] ->
    language ctx <> js "en" ->
    truthy (if truthy tk then getExactTranslation ctx (default [] tk)
            else None) = false ->
    truthy (findBestTranslation ctx value') = false ->
    request ctx value' tk unmounts r c st = (settle translation c, st, false).
Proof.
  intros ctx value value' tk unmounts r c st translation
         Hh Hst Hne Hv Hl He Hm.
  unfold request, effect.
  rewrite (proj2 (truthy_str_nonempty _) Hv). cbn [negb].
  rewrite (proj2 (str_eqb_false _ _) Hl), He, Hm.
  unfold cacheKey in *. rewrite Hh, Hst.
  change (default [] (Some translation)) with translation. cbn [truthy].
  rewrite (proj2 (truthy_str_nonempty _) Hne). reflexivity.
Qed.

(** "Aa" and "BB" both hash to 2112; "Ah" is cached for "Aa". *)
Lemma hash_collision_shares_cache_entry_witness :
  js "Aa" <> js "BB" /\
  request TranslationSample.french (js "BB") None false Gemini.Rejected
    (mk (js "BB") false true)
    (mkStorage {[ cacheKey (js "fr") (js "Aa") := js "Ah" ]} (fun _ => true))
  = (settle (js "Ah") (mk (js "BB") false true),
     mkStorage {[ cacheKey (js "fr") (js "Aa") := js "Ah" ]} (fun _ => true),
     false).
Proof.
  split; [discriminate|].
  apply (hash_collision_shares_cache_entry TranslationSample.french
           (js "Aa") (js "BB")).
  - reflexivity.
  - apply lookup_singleton_eq.
  - discriminate.
  - discriminate.
  - vm_compute. discriminate.
  - reflexivity.
  - reflexivity.
Defined.

End HashFacts.

Section TrimFacts.

Lemma dropWhile_head (f : Z -> bool) (s : jsstring) :
  match dropWhile f s with [] => True | c :: _ => f c = false end.
Proof.
  induction s as [|c s IH]; simpl; [exact I|].
  destruct (f c) eqn:E; [exact IH|exact E].
Qed.

Lemma dropWhile_suffix (f : Z -> bool) (s : jsstring) :
  exists pre, s = pre ++ dropWhile f s.
Proof.
  induction s as [|c s [pre IH]]; simpl.
  - exists []. reflexivity.
  - destruct (f c).
    + exists (c :: pre). simpl. f_equal. exact IH.
    + exists []. reflexivity.
Qed.

Lemma dropWhile_fixed (f : Z -> bool) (s : jsstring) :
  match s with [] => True | c :: _ => f c = false end ->
  dropWhile f s = s.
Proof. destruct s as [|c s]; simpl; [reflexivity|]. intros ->. reflexivity. Qed.

(** A trimmed text starts and ends with a character that is not white
    space, so trimming it again changes nothing. *)
Lemma trim_trimmed (s : jsstring) : trim (trim s) = trim s.
Proof.
  unfold trim.
  set (a := dropWhile isSpace s).
  set (b := dropWhile isSpace (rev a)).
  assert (Hb : dropWhile isSpace b = b).
  { apply dropWhile_fixed. apply dropWhile_head. }
  assert (Hrb : dropWhile isSpace (rev b) = rev b).
  { apply dropWhile_fixed.
    destruct (dropWhile_suffix isSpace (rev a)) as [pre Hpre]. fold b in Hpre.
    assert (Ha : a = rev b ++ rev pre).
    { rewrite <- rev_app_distr, <- Hpre, rev_involutive. reflexivity. }
    pose proof (dropWhile_head isSpace s) as Hhead. fold a in Hhead.
    destruct (rev b) as [|c rb]; [exact I|].
    rewrite Ha in Hhead. exact Hhead. }
  rewrite Hrb, rev_involutive, Hb. reflexivity.
Qed.

(** X20. [translateText] never rejects, and what it resolves to is either
    null or usable as it is. It resolves to a string exactly when the text
    is not empty and the call answered with a string that is not blank; the
    result is then that string trimmed, so it is not empty and carries no
    white space at either end. *)
Theorem translateText_result_shape :
  forall (text targetLanguageCode : jsstring) (r : Gemini.remote)
         (result : jsstring),
    (Gemini.translateText text targetLanguageCode r = Some result <->
     text <> [] /\
     exists reply, r = Gemini.Responded (Some reply) /\
                   trim reply = result /\ result <> []) /\
    (Gemini.translateText text targetLanguageCode r = Some result ->
     trim result = result).
Proof.
  intros text lang r result.
  assert (E : Gemini.translateText text lang r = Some result <->
              text <> [] /\
              exists reply, r = Gemini.Responded (Some reply) /\
                            trim reply = result /\ result <> []).
  { unfold Gemini.translateText. split.
    - destruct (truthy_str text) eqn:Ht; cbn [negb]; [|discriminate].
      destruct r as [| |[reply|]]; try discriminate; simpl.
      destruct (truthy_str (trim reply)) eqn:Hr; [|discriminate].
      intros H. injection H as <-.
      split; [apply truthy_str_nonempty; exact Ht|].
      exists reply. repeat split. apply truthy_str_nonempty. exact Hr.
    - intros [Ht [reply [-> [<- Hr]]]].
      rewrite (proj2 (truthy_str_nonempty _) Ht). simpl.
      rewrite (proj2 (truthy_str_nonempty _) Hr). reflexivity. }
  split; [exact E|].
  intros H. apply E in H. destruct H as [_ [reply [_ [<- _]]]].
  apply trim_trimmed.
Qed.

End TrimFacts.

Section TranslationExamples.

Import AutoTranslatedText.

(** In English the text itself is shown and the service is not asked. *)
Lemma remote_call_after_all_tiers_miss_witness :
  request (mkContext (js "en") (fun _ => None) (fun _ => None))
    (js "Mesob Basket") None false Gemini.Rejected
    TranslationSample.initial TranslationSample.emptyStorage
  = (settle (js "Mesob Basket") TranslationSample.initial,
     TranslationSample.emptyStorage, false).
Proof.
  pose proof (remote_call_after_all_tiers_miss
                (mkContext (js "en") (fun _ => None) (fun _ => None))
                (js "Mesob Basket") None false Gemini.Rejected
                TranslationSample.initial TranslationSample.emptyStorage) as H.
  cbv zeta in H.
  destruct (request _ _ _ _ _ _ _) as [[c' st'] called].
  destruct H as [Hcalled Hquiet].
  destruct called.
  - exfalso. destruct (proj1 Hcalled eq_refl) as [_ [Hl _]].
    apply Hl. reflexivity.
  - destruct (Hquiet eq_refl) as [-> Hc]. rewrite Hc; [reflexivity|discriminate].
Defined.

(** The reply " Panier Mesob " for "Mesob Basket". *)
Lemma translateText_result_shape_witness :
  trim (js "Panier Mesob") = js "Panier Mesob".
Proof.
  apply (proj2 (translateText_result_shape (js "Mesob Basket") (js "fr")
                  (Gemini.Responded (Some (js " Panier Mesob ")))
                  (js "Panier Mesob"))).
  vm_compute. reflexivity.
Defined.

End TranslationExamples.

Section ChatFacts.

Import CuratorChat.

Lemma trim_nil : trim [] = [].
Proof. reflexivity. Qed.

Lemma sendMessageToCurator_nonempty (r : GeminiChat.remote) :
  GeminiChat.sendMessageToCurator r <> [].
Proof.
  destruct r as [|[reply|]]; simpl; try discriminate.
  destruct (truthy_str reply) eqn:E; [|discriminate].
  apply truthy_str_nonempty. exact E.
Qed.

Lemma greeting_nonempty (activeProduct : option Product.t) :
  greeting activeProduct <> [].
Proof. destruct activeProduct; discriminate. Qed.

(** What every bubble of the conversation satisfies: its text is not empty,
    and what the visitor sent is not blank. *)
#[local] Abbreviation shown :=
  (fun m : ChatMessage => text m <> [] /\ (role m = user -> trim (text m) <> [])).

Lemma step_shown (c : t) (e : event) :
  Forall shown (messages c) -> Forall shown (messages (step c e)).
Proof.
  intros H. destruct e as [s|apiKey activeProduct| |r]; simpl.
  - exact H.
  - unfold initChat. destruct apiKey; simpl.
    + repeat constructor; [apply greeting_nonempty|discriminate].
    + repeat constructor; discriminate.
  - unfold handleSend.
    destruct (truthy_str (trim (input c))) eqn:Ht; cbn [negb]; [|exact H].
    assert (Hi : input c <> []).
    { intros E. rewrite E, trim_nil in Ht. discriminate Ht. }
    apply truthy_str_nonempty in Ht.
    destruct (negb (chatSession c) || hasError c); simpl;
      apply Forall_app; split; try exact H; repeat constructor;
      simpl; try assumption; try discriminate; intros _; exact Ht.
  - unfold onResponse. destruct (pending c); [exact H|]. simpl.
    apply Forall_app. split; [exact H|].
    repeat constructor; simpl;
      [apply sendMessageToCurator_nonempty|discriminate].
Qed.

(** X21. The conversation never shows an empty bubble. Whatever the visitor
    types and sends, however the calls end and whenever the chat is started
    again, every message has a text that is not empty, and every message of
    the visitor a text that is not blank. *)
Theorem chat_never_shows_empty_message :
  forall (events : list event) (c : t),
    Forall (fun m => text m <> [] /\ (role m = user -> trim (text m) <> []))
      (messages c) ->
    Forall (fun m => text m <> [] /\ (role m = user -> trim (text m) <> []))
      (messages (run events c)).
Proof.
  unfold run. induction events as [|e events IH]; intros c H; simpl.
  - exact H.
  - apply IH. apply step_shown. exact H.
Qed.

(** A chat opened without an API key, a question typed and sent, the chat
    started again with a key, the question sent again, a blank reply. *)
Lemma chat_never_shows_empty_message_witness :
  Forall (fun m => text m <> [] /\ (role m = user -> trim (text m) <> []))
    (messages
       (run [Init false None; Typed (js "Is it hand woven?"); Send;
             Init true (Some Sample.basket); Typed (js "Is it hand woven?");
             Send; Response (GeminiChat.Responded (Some []))]
          initial)).
Proof.
  apply (chat_never_shows_empty_message _ initial). constructor.
Defined.

(** X22. An exchange with the curator: a text that is not blank, sent while
    a session is available, is shown as it was typed, the input is cleared
    and the spinner runs; when the call ends, one message of the curator
    follows, which is the reply, or an apology when the call failed or
    answered with nothing. A blank text is not sent at all. *)
Theorem send_then_response :
  forall (c : t) (r : GeminiChat.remote),
    (trim (input c) = [] -> handleSend c = c) /\
    (trim (input c) <> [] -> chatSession c = true -> hasError c = false ->
     isLoading (handleSend c) = true /\
     input (handleSend c) = [] /\
     messages (run [Send; Response r] c)
     = messages c ++
       [mkMessage user (input c) false;
        mkMessage model (GeminiChat.sendMessageToCurator r) false] /\
     isLoading (run [Send; Response r] c) = false /\
     pending (run [Send; Response r] c) = pending c /\
     (forall reply, r = GeminiChat.Responded (Some reply) -> reply <> [] ->
      GeminiChat.sendMessageToCurator r = reply)).
Proof.
  intros c r. split.
  - intros H. unfold handleSend. rewrite H. reflexivity.
  - intros Ht Hs He.
    apply truthy_str_nonempty in Ht.
    unfold run. simpl. unfold handleSend. rewrite Ht, Hs, He. simpl.
    repeat split.
    + rewrite <- app_assoc. reflexivity.
    + intros reply -> Hr. simpl.
      rewrite (proj2 (truthy_str_nonempty _) Hr). reflexivity.
Qed.

(** A question about the basket, answered. *)
Lemma send_then_response_witness :
  messages
    (run [Send; Response (GeminiChat.Responded (Some (js "Yes, by hand.")))]
       (mk [] (js "Is it hand woven?") false false true 0))
  = [mkMessage user (js "Is it hand woven?") false;
     mkMessage model (js "Yes, by hand.") false].
Proof.
  refine (eq_trans
            (proj1 (proj2 (proj2
               (proj2 (send_then_response
                         (mk [] (js "Is it hand woven?") false false true 0)
                         (GeminiChat.Responded (Some (js "Yes, by hand."))))
                  _ _ _)))) _).
  - vm_compute. discriminate.
  - reflexivity.
  - reflexivity.
  - reflexivity.
Defined.

(** X23. A reply outlives the conversation it was asked in. When the chat
    is started again while a call is outstanding, the question is gone with
    the old conversation, but the answer still arrives: the new conversation
    consists of the greeting followed by a reply to a question that is not
    shown. *)
Theorem late_reply_lands_in_new_conversation :
  forall (c : t) (r : GeminiChat.remote) (activeProduct : option Product.t),
    trim (input c) <> [] -> chatSession c = true -> hasError c = false ->
    messages (run [Send; Init true activeProduct; Response r] c)
    = [mkMessage model (greeting activeProduct) false;
       mkMessage model (GeminiChat.sendMessageToCurator r) false].
Proof.
  intros c r activeProduct Ht Hs He.
  apply truthy_str_nonempty in Ht.
  unfold run. simpl. unfold handleSend. rewrite Ht, Hs, He. reflexivity.
Qed.

(** The visitor asks about the scarf and then opens the basket. *)
Lemma late_reply_lands_in_new_conversation_witness :
  messages
    (run [Send; Init true (Some Sample.basket);
          Response (GeminiChat.Responded (Some (js "It is cotton.")))]
       (mk [mkMessage model (greeting (Some Sample.scarf)) false]
          (js "What is it made of?") false false true 0))
  = [mkMessage model (greeting (Some Sample.basket)) false;
     mkMessage model (js "It is cotton.") false].
Proof.
  apply (late_reply_lands_in_new_conversation
           (mk [mkMessage model (greeting (Some Sample.scarf)) false]
              (js "What is it made of?") false false true 0)
           (GeminiChat.Responded (Some (js "It is cotton.")))
           (Some Sample.basket)).
  - vm_compute. discriminate.
  - reflexivity.
  - reflexivity.
Defined.

End ChatFacts.

Section NewsletterFacts.

Import Backend Newsletter.

(** How [addSubscriber] ends for an email that is not on the list. *)
Lemma addSubscriber_new email w :
  ~ In email (subscribers (service w)) ->
  let w1 := setSubscribers (email :: subscribers (service w)) w in
  let contents :=
    <[KEYS_SUBSCRIBERS := JStrings (email :: subscribers (service w))]>
      (entries (localStorage w)) in
  (addSubscriber email w
   = (mkWorld (heap w) (service w1)
        (mkStorage contents (fits (localStorage w))), Returned tt)
   /\ fits (localStorage w) contents = true)
  \/
  (addSubscriber email w = (w1, Thrown QuotaExceededError)
   /\ fits (localStorage w) contents = false).
Proof.
  intros Hnew w1 contents.
  assert (Hinc : includes email (subscribers (service w)) = false).
  { destruct (includes email (subscribers (service w))) eqn:E; [|reflexivity].
    apply includes_In in E. contradiction. }
  assert (E : addSubscriber email w
              = bind (modify (setSubscribers (email :: subscribers (service w))))
                  (fun _ => saveSubscribers) w).
  { unfold addSubscriber. unfold bind at 1. unfold gets.
    rewrite Hinc. reflexivity. }
  rewrite E.
  pose proof (change_then_save_unit
                (setSubscribers (email :: subscribers (service w)))
                saveSubscribers KEYS_SUBSCRIBERS
                (fun w0 => JStrings (subscribers (service w0))) w
                saveSubscribers_unfold) as H.
  cbv zeta in H. subst w1 contents. exact H.
Qed.

(** X24. The newsletter form. An input that is empty or has no at sign never
    reaches the backend: an error toast is shown and nothing else changes.
    Any other input is on the subscriber list afterwards. When the call
    returns, a success toast is shown and the input is cleared, also for an
    address that was subscribed before, for which nothing is written. When
    the store refuses the write, the handler rejects: no toast of either
    kind is shown and the input stays, while the in-memory list has the
    address and the store has not. *)
Theorem handleSubscribe_outcomes :
  forall s : Newsletter.t,
    let email := emailInput s in
    let s' := fst (handleSubscribe s) in
    let out := snd (handleSubscribe s) in
    (email = [] \/ includesAt email = false ->
     out = Returned tt /\ world s' = world s /\ emailInput s' = email /\
     toasts s' = toasts s ++ [(js "Please enter a valid email", error)]) /\
    (email <> [] -> includesAt email = true ->
     In email (subscribers (service (world s'))) /\
     (out = Returned tt ->
      emailInput s' = [] /\
      toasts s' = toasts s ++ [(js "Subscribed successfully!", success)] /\
      (In email (subscribers (service (world s))) -> world s' = world s)) /\
     (out <> Returned tt ->
      out = Thrown QuotaExceededError /\
      emailInput s' = email /\ toasts s' = toasts s /\
      localStorage (world s') = localStorage (world s) /\
      subscribers (service (world s'))
      = email :: subscribers (service (world s)))).
Proof.
  intros s email s' out. subst email s' out. split.
  - intros H. unfold handleSubscribe.
    assert (E : negb (truthy_str (emailInput s))
                || negb (includesAt (emailInput s)) = true).
    { destruct H as [H | H]; rewrite H; [reflexivity|].
      apply orb_true_r. }
    rewrite E. repeat split.
  - intros Hne Hat. unfold handleSubscribe.
    rewrite (proj2 (truthy_str_nonempty _) Hne), Hat. cbn [negb orb].
    assert (Hcases : In (emailInput s) (subscribers (service (world s))) \/
                     ~ In (emailInput s) (subscribers (service (world s)))).
    { destruct (includes (emailInput s) (subscribers (service (world s))))
        eqn:Hi.
      - left. apply includes_In. exact Hi.
      - right. intros Hin. apply includes_In in Hin. congruence. }
    destruct Hcases as [Hin | Hnew].
    + rewrite (addSubscriber_present _ _ Hin). cbn [fst snd world].
      split; [exact Hin|]. split.
      * intros _. repeat split.
      * intros H. contradiction H. reflexivity.
    + destruct (addSubscriber_new _ _ Hnew) as [[E _] | [E Hfit]];
        rewrite E; cbn [fst snd world emailInput toasts].
      * split; [left; reflexivity|]. split.
        -- intros _. split; [reflexivity|]. split; [reflexivity|].
           intros Hin. contradiction.
        -- intros H. contradiction H. reflexivity.
      * split; [left; reflexivity|]. split.
        -- discriminate.
        -- intros _. repeat split.
Qed.

(** A first subscription over a store that is full. *)
Lemma handleSubscribe_outcomes_witness :
  toasts (fst (handleSubscribe
                 (Newsletter.mk (js "sara@example.com") []
                    BackendSpec.fullWorld))) = [] /\
  subscribers (service (world (fst (handleSubscribe
                 (Newsletter.mk (js "sara@example.com") []
                    BackendSpec.fullWorld)))))
  = [js "sara@example.com"].
Proof.
  destruct (proj2 (handleSubscribe_outcomes
                     (Newsletter.mk (js "sara@example.com") []
                        BackendSpec.fullWorld)))
    as [_ [_ Hthrown]].
  - discriminate.
  - reflexivity.
  - destruct Hthrown as [_ [_ [Ht [_ Hs]]]].
    + vm_compute. discriminate.
    + split; [exact Ht|exact Hs].
Defined.

End NewsletterFacts.
